(** * Blazy lazy-loading pipeline: dBlazy, Bio and BioMedia

    A shallow embedding of the lazy-loading code of the theme's aggregated
    script [js_0CRKAecEYuIPO5boSqhv89tRApbbekikzJhn6A7uY98.js]:

    - [dBlazy]   -- the DOM utility layer ([activeWidth], [setAttr], ...);
    - [Bio]      -- the IntersectionObserver engine and its counters;
    - [BioMedia] -- the media loader ([lazyLoad], [promise], [setImage]);
    - [Blazy]    -- the part of the [Drupal.blazy] orchestrator that is
                    handed to the loader as its success / error callback.

    JavaScript numbers are modelled by rationals extended with NaN and the
    two infinities, rounded to the nearest double where the code computes
    ([JS.double]); strings by [string] (ASCII code units), objects by
    their own-property list in enumeration order, DOM elements by records
    held in a store indexed by node identity. *)

From Stdlib Require Import ZArith QArith Qround Qabs Qreduction Qcanon Ascii String List Lia.
From stdpp Require Import gmap strings list.

Set Warnings "-register-all".

Local Open Scope Z_scope.

(** ** JavaScript values *)

Module JS.

(** A Number: NaN, a finite value, or an infinity ([true] is negative). *)
Inductive number :=
| NaN
| Num (q : Q)
| Infinity (negative : bool).

Inductive value :=
| Undefined
| Null
| Bool (b : bool)
| Number (n : number)
| Str (s : string)
| Obj (ref : positive).

(** An object is the list of its own enumerable properties, in the order
    [Object.keys] and [for ... in] enumerate them; a value that is itself
    an object is a reference [Obj]. *)
Definition object := list (string * value).

Definition of_Z (z : Z) : number := Num (inject_Z z).

(** [x >= y] on Numbers: false as soon as one side is NaN. *)
Definition ge (x y : number) : bool :=
  match x, y with
  | NaN, _ | _, NaN => false
  | Num a, Num b => Qle_bool b a
  | Infinity false, _ => true
  | _, Infinity true => true
  | Infinity true, _ => false
  | Num _, Infinity false => false
  end.

(** [x <= y] on Numbers. *)
Definition le (x y : number) : bool := ge y x.

(** *** Doubles

    A Number is a binary64 value: 53 bits of significand, the least
    exponent of a bit being -1074.  [double q] is the double nearest to
    [q], ties going to the even significand.  That holds for magnitudes
    below 2^53; from there on, where the doubles are integers no width of
    a page comes near, [q] is kept as it is (so every integer is kept, as
    [parseInt] and [of_Z] have them). *)

(** [2 ^ e]. *)
Definition pow2 (e : Z) : Q :=
  if 0 <=? e then inject_Z (2 ^ e) else 1 # Z.to_pos (2 ^ (- e)).

(** The [e] with [2 ^ e <= q < 2 ^ (e + 1)], for [q] above zero and in
    lowest terms. *)
Definition ilog2 (q : Q) : Z :=
  let e := Z.log2 (Qnum q) - Z.log2 (Zpos (Qden q)) in
  if Qle_bool (pow2 e) q then e else e - 1.

(** The integer nearest to [q]; half way, the even one. *)
Definition nearest_even (q : Q) : Z :=
  let f := Qfloor q in
  match Qcompare (q - inject_Z f) (1 # 2) with
  | Lt => f
  | Gt => f + 1
  | Eq => if Z.even f then f else f + 1
  end.

(** The double nearest to [q], for [q] above zero, below 2^53 and in
    lowest terms: the nearest multiple of the unit in the last place. *)
Definition round_positive (q : Q) : Q :=
  let ulp := pow2 (Z.max (ilog2 q - 52) (-1074)) in
  (inject_Z (nearest_even (q / ulp)) * ulp)%Q.

Definition double (q : Q) : Q :=
  let r := Qred q in
  if Qle_bool (pow2 53) (Qabs r) then r
  else match Qcompare r 0 with
       | Eq => 0%Q
       | Lt => (- round_positive (- r))%Q
       | Gt => round_positive r
       end.

(** [x * y] on Numbers that are doubles: the product is rounded. *)
Definition mul (x y : number) : number :=
  match x, y with
  | NaN, _ | _, NaN => NaN
  | Num a, Num b => Num (double (a * b))
  | Infinity s, Infinity t => Infinity (xorb s t)
  | Infinity s, Num b | Num b, Infinity s =>
      match Qcompare b 0 with
      | Eq => NaN
      | Lt => Infinity (negb s)
      | Gt => Infinity s
      end
  end.

(** *** Characters *)

Definition code (c : ascii) : Z := Z.of_nat (nat_of_ascii c).

(** WhiteSpace and LineTerminator code units below 256. *)
Definition is_space (c : ascii) : bool :=
  let n := code c in
  ((9 <=? n) && (n <=? 13)) || (n =? 32) || (n =? 160).

Definition is_digit (c : ascii) : bool :=
  let n := code c in (48 <=? n) && (n <=? 57).

(** The value of [c] as a digit in [radix], if it is one. *)
Definition digit_in (radix : Z) (c : ascii) : option Z :=
  let n := code c in
  let d :=
    if (48 <=? n) && (n <=? 57) then Some (n - 48)
    else if (97 <=? n) && (n <=? 122) then Some (n - 87)
    else if (65 <=? n) && (n <=? 90) then Some (n - 55)
    else None in
  match d with
  | Some v => if v <? radix then Some v else None
  | None => None
  end.

Fixpoint trim_start (s : string) : string :=
  match s with
  | String c t => if is_space c then trim_start t else s
  | EmptyString => EmptyString
  end.

(** Drops trailing white space. *)
Fixpoint trim_end (s : string) : string :=
  match s with
  | EmptyString => EmptyString
  | String c t =>
      match trim_end t with
      | EmptyString => if is_space c then EmptyString else String c EmptyString
      | t' => String c t'
      end
  end.

(** The longest prefix of [s] made of [radix] digits, read as a number
    starting from the accumulator [acc]; [n] counts the digits read.
    Returns the value, the number of digits and the rest of [s]. *)
Fixpoint read_digits (radix : Z) (acc : Z) (n : nat) (s : string) : Z * nat * string :=
  match s with
  | String c t =>
      match digit_in radix c with
      | Some d => read_digits radix (acc * radix + d) (S n) t
      | None => (acc, n, s)
      end
  | EmptyString => (acc, n, s)
  end.

(** [strip p s]: what follows [p] in [s] when [s] starts with [p]. *)
Fixpoint strip (p s : string) : option string :=
  match p, s with
  | EmptyString, _ => Some s
  | String a p', String b s' => if Ascii.eqb a b then strip p' s' else None
  | String _ _, EmptyString => None
  end.

(** The first of the prefixes [ps] that [s] starts with, stripped. *)
Fixpoint strip_any (ps : list string) (s : string) : option string :=
  match ps with
  | p :: ps' =>
      match strip p s with
      | Some t => Some t
      | None => strip_any ps' s
      end
  | [] => None
  end.

(** *** parseInt(string) with the radix left undefined *)
Definition parseInt (input : string) : number :=
  let s := trim_start input in
  let '(sign, s) :=
    match strip "-" s with
    | Some t => (-1, t)
    | None =>
        match strip "+" s with
        | Some t => (1, t)
        | None => (1, s)
        end
    end in
  let '(radix, s) :=
    match strip_any ["0x"; "0X"] s with
    | Some t => (16, t)
    | None => (10, s)
    end in
  match read_digits radix 0 0 s with
  | (_, O, _) => NaN
  | (v, _, _) => of_Z (sign * v)
  end.

(** *** ToNumber applied to a string (StringToNumber)

    The value of a decimal literal is kept exact: no rounding to the
    nearest double is applied. *)

(** [m * 10 ^ e]. *)
Definition scale10 (m e : Z) : Q :=
  if 0 <=? e then inject_Z (m * 10 ^ e)
  else Qmake m (Z.to_pos (10 ^ (- e))).

(** ExponentPart, optional: returns the exponent and the rest. *)
Definition read_exponent (s : string) : option (Z * string) :=
  match strip_any ["e"; "E"] s with
  | Some t =>
      let '(neg, t) :=
        match strip "-" t with
        | Some u => (true, u)
        | None =>
            match strip "+" t with
            | Some u => (false, u)
            | None => (false, t)
            end
        end in
      match read_digits 10 0 0 t with
      | (_, O, _) => None
      | (v, _, rest) => Some (if neg : bool then - v else v, rest)
      end
  | None => Some (0, s)
  end.

(** StrUnsignedDecimalLiteral, which must span the whole of [s]. *)
Definition unsigned_decimal (s : string) : number :=
  if String.eqb s "Infinity" then Infinity false
  else
    let '(ip, ni, s1) := read_digits 10 0 0 s in
    let '(fp, nf, s2) :=
      match strip "." s1 with
      | Some t => read_digits 10 ip 0 t
      | None => (ip, O, s1)
      end in
    if (Nat.eqb ni 0 && Nat.eqb nf 0)%bool then NaN
    else
      match read_exponent s2 with
      | Some (e, EmptyString) => Num (scale10 fp (e - Z.of_nat nf))
      | _ => NaN
      end.

Definition negate (n : number) : number :=
  match n with
  | NaN => NaN
  | Num q => Num (Qopp q)
  | Infinity b => Infinity (negb b)
  end.

(** NonDecimalIntegerLiteral: the digits after a [0b], [0o] or [0x]
    prefix, which must span the whole of [s]. *)
Definition non_decimal (radix : Z) (s : string) : number :=
  match read_digits radix 0 0 s with
  | (_, O, _) => NaN
  | (v, _, EmptyString) => of_Z v
  | _ => NaN
  end.

Definition StringToNumber (input : string) : number :=
  let s := trim_end (trim_start input) in
  match s with
  | EmptyString => of_Z 0
  | _ =>
      match strip_any ["0x"; "0X"] s, strip_any ["0o"; "0O"] s, strip_any ["0b"; "0B"] s with
      | Some t, _, _ => non_decimal 16 t
      | _, Some t, _ => non_decimal 8 t
      | _, _, Some t => non_decimal 2 t
      | None, None, None =>
          match strip "-" s with
          | Some t => negate (unsigned_decimal t)
          | None =>
              match strip "+" s with
              | Some t => unsigned_decimal t
              | None => unsigned_decimal s
              end
          end
      end
  end.

(** ToNumber of a property key, or of [undefined] when the key is
    missing ([None]). *)
Definition ToNumber (k : option string) : number :=
  match k with
  | Some s => StringToNumber s
  | None => NaN
  end.

(** ToPropertyKey: [undefined] names the property ["undefined"]. *)
Definition ToPropertyKey (k : option string) : string :=
  match k with
  | Some s => s
  | None => "undefined"
  end.

Definition Object_keys (o : object) : list string := map fst o.

(** [o[k]]: the value of the own property [k], or [undefined]. *)
Fixpoint get (o : object) (k : string) : value :=
  match o with
  | (k', v) :: rest => if String.eqb k' k then v else get rest k
  | [] => Undefined
  end.

(** [Array.prototype.shift] and [pop], as far as their result goes:
    the removed element, [undefined] on an empty array. *)
Definition shift (a : list value) : value := hd Undefined a.
Definition pop (a : list value) : value := List.last a Undefined.

End JS.

(** ** The page: window, document tree, elements

    Elements are records in a store indexed by node identity; the shape of
    the document is a tree of identities, which none of the modelled code
    changes. *)

Definition ElId := nat.

Record Window := {
  innerWidth : Z;
  documentElement_clientWidth : Z;
  body_clientWidth : Z;
  screen_width : Z;
  devicePixelRatio : Q;
  picturefill : bool            (* whether [window.picturefill] is there *)
}.

Record Element := {
  nodeName : string;                (* upper case for HTML elements *)
  attributes : gmap string string;  (* content attributes, [class] and [style] apart *)
  classList : list string;          (* the tokens of the [class] attribute *)
  own_src : option string;          (* a [src] property put on an element whose interface has none *)
  style : gmap string string        (* declarations set through [el.style] *)
}.

Inductive Tree := Node (id : ElId) (children : list Tree).

(** What a timer set with [window.setTimeout] will run. *)
Inductive Task :=
| Reload (el : ElId)       (* [me.init.load(el)] *)
| UpdateContainer (el : ElId) (cn : option ElId) (isPicture : bool).

(** The steps the modelled code takes on the page, oldest first. *)
Inductive Step :=
| SetAttribute (el : ElId) (name value : string)
| RemoveAttribute (el : ElId) (name : string)
| SetSrc (el : ElId) (value : string)
| ClassAdd (el : ElId) (token : string)
| ClassRemove (el : ElId) (token : string)
| SetClassName (el : ElId) (value : string)
| SetStyle (el : ElId) (property value : string)
| MediaLoad (el : ElId)
| Listen (el : ElId) (type : string)
| Dispatch (el : ElId) (type : string)
| SetTimeout (task : Task) (delay : Z)
| Picturefill (el : ElId).

(** The state of the [Drupal.blazy] orchestrator that its callbacks read
    and write. *)
Record Orchestrator := {
  init_assigned : bool;        (* [Drupal.blazy.init !== null] *)
  blazy_errorClass : string;   (* [Drupal.blazy.options.errorClass] *)
  blazy_successClass : string; (* [Drupal.blazy.options.successClass] *)
  context : ElId;              (* [Drupal.blazy.context] *)
  isNativeExecuted : bool;     (* [_isNativeExecuted] *)
  items : list ElId;           (* [Drupal.blazy.items], the native lazy elements *)
  listening : list ElId        (* the elements on which a listener of [blazy.native]
                                  bound by [doNativeLazy] waits for its one run *)
}.

Record Page := {
  window : Window;
  tree : Tree;
  nodes : gmap ElId Element;
  history : list Step;
  blazy : Orchestrator
}.

Module DOM.

Definition blank : Element :=
  {| nodeName := ""; attributes := ∅; classList := []; own_src := None; style := ∅ |}.

Definition node (p : Page) (el : ElId) : Element := default blank (nodes p !! el).

Definition record (s : Step) (p : Page) : Page :=
  {| window := window p; tree := tree p; nodes := nodes p;
     history := history p ++ [s]; blazy := blazy p |}.

(** Changes element [el] by [f] and records the step [s]. *)
Definition mutate (el : ElId) (f : Element -> Element) (s : Step) (p : Page) : Page :=
  {| window := window p; tree := tree p;
     nodes := <[el := f (node p el)]> (nodes p);
     history := history p ++ [s]; blazy := blazy p |}.

Definition set_blazy (b : Orchestrator) (p : Page) : Page :=
  {| window := window p; tree := tree p; nodes := nodes p;
     history := history p; blazy := b |}.

(** *** The tree *)

(** An element and its descendants, in document order. *)
Fixpoint elements (t : Tree) : list ElId :=
  match t with
  | Node i cs => i :: flat_map elements cs
  end.

(** The subtree rooted at [el]. *)
Fixpoint subtree (el : ElId) (t : Tree) : option Tree :=
  match t with
  | Node i cs =>
      if Nat.eqb i el then Some t
      else fold_right (fun c found =>
                         match subtree el c with
                         | Some r => Some r
                         | None => found
                         end) None cs
  end.

Definition descendants (p : Page) (el : ElId) : list ElId :=
  match subtree el (tree p) with
  | Some (Node _ cs) => flat_map elements cs
  | None => []
  end.

(** The ancestors of [el] in [t], nearest first; [None] when [el] is not
    in [t]. *)
Fixpoint ancestors_in (el : ElId) (t : Tree) : option (list ElId) :=
  match t with
  | Node i cs =>
      if Nat.eqb i el then Some []
      else fold_right (fun c found =>
                         match ancestors_in el c with
                         | Some up => Some (up ++ [i])
                         | None => found
                         end) None cs
  end.

Definition ancestors (p : Page) (el : ElId) : list ElId :=
  default [] (ancestors_in el (tree p)).

(** [el.parentNode], as far as it is an element. *)
Definition parentNode (p : Page) (el : ElId) : option ElId := head (ancestors p el).

(** *** Strings *)

Definition lower (c : ascii) : ascii :=
  let n := nat_of_ascii c in
  if (Nat.leb 65 n && Nat.leb n 90)%bool then ascii_of_nat (n + 32) else c.

Fixpoint toLowerCase (s : string) : string :=
  match s with
  | String c t => String (lower c) (toLowerCase t)
  | EmptyString => EmptyString
  end.

(** Whether [sub] occurs in [s]. *)
Fixpoint includes (sub s : string) : bool :=
  if String.prefix sub s then true
  else match s with
       | String _ t => includes sub t
       | EmptyString => false
       end.

(** ASCII white space, which separates the tokens of an attribute. *)
Definition is_ascii_whitespace (c : ascii) : bool :=
  let n := nat_of_ascii c in
  (Nat.eqb n 9 || Nat.eqb n 10 || Nat.eqb n 12 || Nat.eqb n 13 || Nat.eqb n 32)%bool.

(** Splits [s] on ASCII white space; [cur] is the token being read,
    reversed. *)
Fixpoint split_tokens (cur : list ascii) (s : string) : list string :=
  let flush := match cur with
               | [] => []
               | _ => [string_of_list_ascii (rev cur)]
               end in
  match s with
  | String c t =>
      if is_ascii_whitespace c then flush ++ split_tokens [] t
      else split_tokens (c :: cur) t
  | EmptyString => flush
  end.

Definition tokens (s : string) : list string := split_tokens [] s.

(** The ordered set of the tokens [l]: first occurrences, in order. *)
Definition ordered_set (l : list string) : list string :=
  fold_left (fun acc t => if bool_decide (t ∈ acc) then acc else acc ++ [t]) l [].

(** Serialises tokens, separated by one space. *)
Definition serialize (l : list string) : string := String.concat " " l.

(** *** Attributes, classes, properties *)

Definition hasAttribute (p : Page) (el : ElId) (name : string) : bool :=
  bool_decide (is_Some (attributes (node p el) !! name)).

Definition getAttribute (p : Page) (el : ElId) (name : string) : option string :=
  attributes (node p el) !! name.

Definition with_attributes (a : gmap string string) (e : Element) : Element :=
  {| nodeName := nodeName e; attributes := a; classList := classList e;
     own_src := own_src e; style := style e |}.

Definition with_classList (l : list string) (e : Element) : Element :=
  {| nodeName := nodeName e; attributes := attributes e; classList := l;
     own_src := own_src e; style := style e |}.

Definition with_own_src (v : option string) (e : Element) : Element :=
  {| nodeName := nodeName e; attributes := attributes e; classList := classList e;
     own_src := v; style := style e |}.

Definition with_style (st : gmap string string) (e : Element) : Element :=
  {| nodeName := nodeName e; attributes := attributes e; classList := classList e;
     own_src := own_src e; style := st |}.

Definition setAttribute (el : ElId) (name value : string) : Page -> Page :=
  mutate el (fun e => with_attributes (<[name := value]> (attributes e)) e)
    (SetAttribute el name value).

Definition removeAttribute (el : ElId) (name : string) : Page -> Page :=
  mutate el (fun e => with_attributes (delete name (attributes e)) e)
    (RemoveAttribute el name).

(** The elements whose interface reflects the [src] content attribute. *)
Definition src_elements : list string :=
  ["img"; "iframe"; "embed"; "video"; "audio"; "source"; "track"; "script"; "input"; "frame"].

Definition reflects_src (e : Element) : bool :=
  bool_decide (toLowerCase (nodeName e) ∈ src_elements).

(** [typeof el.src === 'undefined']. *)
Definition src_undefined (p : Page) (el : ElId) : bool :=
  let e := node p el in
  negb (reflects_src e) && bool_decide (own_src e = None).

(** [el.src = value]. *)
Definition set_src (el : ElId) (value : string) : Page -> Page :=
  mutate el (fun e => if reflects_src e
                      then with_attributes (<["src" := value]> (attributes e)) e
                      else with_own_src (Some value) e)
    (SetSrc el value).

(** [el.classList.contains(token)]. *)
Definition contains (p : Page) (el : ElId) (token : string) : bool :=
  bool_decide (token ∈ classList (node p el)).

(** [el.classList.add(token)]: the token joins the ordered set unless it
    is there, and the attribute is written back from the set.  Tokens are
    taken to be valid (not empty, no white space): the exception the DOM
    raises on others is followed in [Exn.classList_add], below. *)
Definition classList_add (el : ElId) (token : string) : Page -> Page :=
  mutate el (fun e => with_classList (ordered_set (classList e ++ [token])) e)
    (ClassAdd el token).

(** [el.classList.remove(token)]. *)
Definition classList_remove (el : ElId) (token : string) : Page -> Page :=
  mutate el (fun e => with_classList
                        (List.filter (fun t => negb (String.eqb t token))
                           (ordered_set (classList e))) e)
    (ClassRemove el token).

(** [el.className]. *)
Definition className (p : Page) (el : ElId) : string := serialize (classList (node p el)).

(** [el.className = value]. *)
Definition set_className (el : ElId) (value : string) : Page -> Page :=
  mutate el (with_classList (tokens value)) (SetClassName el value).

(** [el.style[property] = value]. *)
Definition set_style (el : ElId) (property value : string) : Page -> Page :=
  mutate el (fun e => with_style (<[property := value]> (style e)) e)
    (SetStyle el property value).

(** [root.getElementsByTagName(name)], [name] in lower case. *)
Definition getElementsByTagName (p : Page) (root : ElId) (name : string) : list ElId :=
  List.filter (fun d => String.eqb (toLowerCase (nodeName (node p d))) name)
    (descendants p root).

(** *** Selectors: the fragment the scripts use *)
Inductive Selector :=
| SelTag (name : string)               (* [name] *)
| SelClass (token : string)            (* [.token] *)
| SelAttr (name : string)              (* [[name]] *)
| SelClassIncludes (part : string)     (* [[class*="part"]] *)
| SelNot (s : Selector)                (* [:not(s)] *)
| SelAnd (s1 s2 : Selector).           (* [s1s2], a compound selector *)

Fixpoint matches (p : Page) (el : ElId) (s : Selector) : bool :=
  match s with
  | SelTag name => String.eqb (toLowerCase (nodeName (node p el))) name
  | SelClass token => contains p el token
  | SelAttr name => hasAttribute p el name
  | SelClassIncludes part => includes part (className p el)
  | SelNot s' => negb (matches p el s')
  | SelAnd s1 s2 => matches p el s1 && matches p el s2
  end.

(** [(root || document).querySelectorAll(s)]. *)
Definition querySelectorAll (p : Page) (root : option ElId) (s : Selector) : list ElId :=
  List.filter (fun el => matches p el s)
    (match root with
     | Some r => descendants p r
     | None => elements (tree p)
     end).

End DOM.

(** ** dBlazy: the DOM utility layer *)

Module dBlazy.

(** [a || b] on numbers: [b] when [a] is zero. *)
Definition or_else (a b : Z) : Z := if a =? 0 then b else a.

(** [dBlazy.pixelRatio]: [window.devicePixelRatio || 1]; what the window
    reports is the double nearest to its ratio. *)
Definition pixelRatio (win : Window) : Q :=
  let r := JS.double (devicePixelRatio win) in
  if Qeq_bool r 0 then 1%Q else r.

(** [dBlazy.windowWidth]. *)
Definition windowWidth (win : Window) : Z :=
  or_else (innerWidth win)
    (or_else (documentElement_clientWidth win)
       (or_else (body_clientWidth win) (screen_width win))).

(** [dBlazy.activeWidth]. *)
Definition activeWidth (win : Window) (dataset : JS.object) (mobileFirst : bool) : JS.value :=
  let keys := JS.Object_keys dataset in
  let xs := head keys in
  let xl := last keys in
  let pr := JS.mul (JS.of_Z (windowWidth win)) (JS.Num (pixelRatio win)) in
  let ww := if mobileFirst then JS.of_Z (windowWidth win) else pr in
  let mw w := if mobileFirst then JS.le (JS.parseInt w) ww else JS.ge (JS.parseInt w) ww in
  let data :=
    (if mobileFirst then JS.pop else JS.shift)
      (map (fun v => JS.get dataset v) (List.filter mw keys)) in
  match data with
  | JS.Undefined =>
      JS.get dataset (JS.ToPropertyKey (if JS.ge ww (JS.ToNumber xl) then xl else xs))
  | _ => data
  end.

(** [dBlazy.equal]; [el] is [None] for [null]. *)
Definition equal (p : Page) (el : option ElId) (str : string) : bool :=
  match el with
  | Some e => String.eqb (DOM.toLowerCase (nodeName (DOM.node p e))) str
  | None => false
  end.

(** [dBlazy.closest]: the nearest proper ancestor that matches. *)
Definition closest (p : Page) (el : ElId) (selector : DOM.Selector) : option ElId :=
  List.find (fun a => DOM.matches p a selector) (DOM.ancestors p el).

(** [dBlazy.hasClass]. *)
Definition hasClass (p : Page) (el : ElId) (name : string) : bool := DOM.contains p el name.

(** [dBlazy.setAttr]. *)
Definition setAttr (el : ElId) (attr : string) (remove : bool) (p : Page) : Page :=
  match DOM.getAttribute p el ("data-" +:+ attr) with
  | Some dataAttr =>
      let p1 := if String.eqb attr "src" then DOM.set_src el dataAttr p
                else DOM.setAttribute el attr dataAttr p in
      if remove then DOM.removeAttribute el ("data-" +:+ attr) p1 else p1
  | None => p
  end.

(** [dBlazy.setAttrs]. *)
Definition setAttrs (el : ElId) (attrs : list string) (remove : bool) (p : Page) : Page :=
  fold_left (fun q src => setAttr el src remove q) attrs p.

(** [dBlazy.setAttrsWithSources]; [attr] is [None] when a falsy value is
    passed. *)
Definition setAttrsWithSources (el : ElId) (attr : option string) (remove : bool) (p : Page) : Page :=
  let parent := DOM.parentNode p el in
  let isPicture := equal p parent "picture" in
  let targets :=
    DOM.getElementsByTagName p (if isPicture then default el parent else el) "source" in
  let attr := match attr with
              | Some a => a
              | None => if isPicture then "srcset" else "src"
              end in
  fold_left (fun q source => setAttr source attr remove q) targets p.

(** [dBlazy.removeAttrs]. *)
Definition removeAttrs (el : ElId) (attrs : list string) (p : Page) : Page :=
  fold_left (fun q attr => DOM.removeAttribute el ("data-" +:+ attr) q) attrs p.

(** [dBlazy.bindEvent]. *)
Definition bindEvent (el : ElId) (type : string) : Page -> Page := DOM.record (Listen el type).

(** [dBlazy.trigger]: the event is dispatched on [elm].  What its
    listeners do is outside the model, but for the one listener the code
    binds on an event of its own, [blazy.native]: it is followed in
    [Exn.trigger_native], below. *)
Definition trigger (elm : ElId) (eventName : string) : Page -> Page :=
  DOM.record (Dispatch elm eventName).

(** [dBlazy.animate]; [animation] is [None] when the argument is left
    out.  The name of the animation is taken to be a class token;
    [Exn.animate], below, has the exception the DOM raises on others. *)
Definition animate (el : ElId) (animation : option string) (p : Page) : Page :=
  let animation :=
    match animation with
    | Some a => a
    | None => default "undefined" (DOM.getAttribute p el "data-animation")
    end in
  let p1 := DOM.classList_add el animation (DOM.classList_add el "animated" p) in
  let p2 :=
    fold_left
      (fun q key =>
         match DOM.getAttribute q el ("data-animation-" +:+ fst key) with
         | Some v => DOM.set_style el ("animation" +:+ snd key) v q
         | None => q
         end)
      [("duration", "Duration"); ("delay", "Delay"); ("iteration-count", "IterationCount")]
      p1 in
  bindEvent el "animationend" p2.

End dBlazy.

(** ** Bio: the IntersectionObserver engine *)

(** A [success] or [error] callback is run on the element and the status;
    it may change the page in any way.  The fields of the instance, the
    variables of the Bio module and the probes are taken to be out of its
    reach.  A callback of this type returns; the callbacks that throw are
    followed in [Exn], below. *)
Definition Callback := ElId -> Z -> Page -> Page.

Module Options.

Record t := {
  root : option ElId;
  disconnect : bool;
  error : option Callback;
  success : option Callback;
  successClass : string;
  selector : DOM.Selector;
  errorClass : string;
  bgClass : string;
  rootMargin : string;
  threshold : list Q
}.

End Options.

(** What an IntersectionObserver watches. *)
Record IntersectionObserver := { targets : list ElId }.

(** The private variables of the Bio module, shared by whatever is built
    from its prototype. *)
Record Vars := {
  _bioTick : Z;
  _revTick : Z;
  _disconnected : bool;
  _observed : bool
}.

(** A detached [Image] made by [BioMedia.promise] to preload for
    [for_element]. *)
Record Image := {
  for_element : ElId;
  background : bool;
  image_src : option string;      (* [None] when [null] was assigned *)
  image_srcset : option string
}.

Record World := {
  page : Page;
  vars : Vars;
  images : list Image             (* the probes made so far, oldest first *)
}.

(** How a call ends: it returns, or it throws; either way with the state
    it has reached. *)
Inductive completion (A : Type) :=
| Returned (a : A)
| Thrown (a : A).
Arguments Returned {A} a.
Arguments Thrown {A} a.

Definition on_page (f : Page -> Page) (w : World) : World :=
  {| page := f (page w); vars := vars w; images := images w |}.

Definition with_vars (v : Vars) (w : World) : World :=
  {| page := page w; vars := v; images := images w |}.

Definition set_disconnected (b : bool) (w : World) : World :=
  with_vars {| _bioTick := _bioTick (vars w); _revTick := _revTick (vars w);
               _disconnected := b; _observed := _observed (vars w) |} w.

Definition set_observed (b : bool) (w : World) : World :=
  with_vars {| _bioTick := _bioTick (vars w); _revTick := _revTick (vars w);
               _disconnected := _disconnected (vars w); _observed := b |} w.

Definition set_bioTick (n : Z) (w : World) : World :=
  with_vars {| _bioTick := n; _revTick := _revTick (vars w);
               _disconnected := _disconnected (vars w); _observed := _observed (vars w) |} w.

Module Bio.

(** An instance built from the prototype. *)
Record t := {
  options : Options.t;
  count : Z;
  counted : Z;
  erCounted : Z;
  elms : option (list ElId);                 (* [None] is [null] *)
  observer : option IntersectionObserver;    (* [None] is [null] *)
  windowWidth : Z
}.

Definition _er : Z := -1.
Definition _ok : Z := 1.

Definition defaults : Options.t :=
  {| Options.root := None;
     Options.disconnect := false;
     Options.error := None;
     Options.success := None;
     Options.successClass := "b-loaded";
     Options.selector := DOM.SelClass "b-lazy";
     Options.errorClass := "b-error";
     Options.bgClass := "b-bg";
     Options.rootMargin := "0px";
     Options.threshold := [0%Q] |}.

(** The fields an instance reads from the prototype until it writes its
    own. *)
Definition prototype (o : Options.t) : t :=
  {| options := o; count := 0; counted := -1; erCounted := 0;
     elms := None; observer := None; windowWidth := 0 |}.

Definition with_erCounted (n : Z) (me : t) : t :=
  {| options := options me; count := count me; counted := counted me;
     erCounted := n; elms := elms me; observer := observer me;
     windowWidth := windowWidth me |}.

Definition with_observer (o : option IntersectionObserver) (me : t) : t :=
  {| options := options me; count := count me; counted := counted me;
     erCounted := erCounted me; elms := elms me; observer := o;
     windowWidth := windowWidth me |}.

(** [me.isLoaded]. *)
Definition isLoaded (me : t) (p : Page) (el : ElId) : bool :=
  DOM.contains p el (Options.successClass (options me)).

(** [observer.observe(entry)]. *)
Definition io_observe (entry : ElId) (io : IntersectionObserver) : IntersectionObserver :=
  {| targets := if bool_decide (entry ∈ targets io) then targets io
                else targets io ++ [entry] |}.

(** [observer.disconnect()]. *)
Definition io_disconnect (io : IntersectionObserver) : IntersectionObserver :=
  {| targets := [] |}.

(** [me.success]. *)
Definition success (me : t) (el : ElId) (status : Z) (w : World) : t * World :=
  let w1 := match Options.success (options me) with
            | Some f => on_page (f el status) w
            | None => w
            end in
  (if 0 <? erCounted me then with_erCounted (erCounted me - 1) me else me, w1).

(** [me.error]. *)
Definition error (me : t) (el : ElId) (status : Z) (w : World) : t * World :=
  let w1 := match Options.error (options me) with
            | Some f => on_page (f el status) w
            | None => w
            end in
  (with_erCounted (erCounted me + 1) me, w1).

(** [me.loaded]. *)
Definition loaded (me : t) (el : ElId) (status : Z) (w : World) : t * World :=
  let w1 := on_page (DOM.classList_add el
                       (if status =? _ok then Options.successClass (options me)
                        else Options.errorClass (options me))) w in
  if status =? _ok then success me el status w1 else error me el status w1.

(** [me.observe]: throws when [me.elms] is [null], and when [me.observer]
    is while an entry is still to be observed. *)
Definition observe (me : t) (w : World) : completion (t * World) :=
  match elms me with
  | None => Thrown (me, w)
  | Some entries =>
      let w1 := set_bioTick (Z.of_nat (length entries)) w in
      let pending := List.filter (fun entry => negb (isLoaded me (page w) entry)) entries in
      match pending, observer me with
      | [], _ => Returned (me, w1)
      | _ :: _, None => Thrown (me, w1)
      | _ :: _, Some io =>
          Returned (with_observer (Some (fold_left (fun o entry => io_observe entry o) pending io)) me, w1)
      end
  end.

(** [me.disconnect]; [force] stands for the truth of the argument.
    Throws when the observer is to be let go and [me.observer] is
    [null]. *)
Definition disconnect (me : t) (force : bool) (w : World) : completion (t * World) :=
  if (0 <? erCounted me) && negb force then Returned (me, w)
  else if (((_bioTick (vars w) =? 0) || (count me =? counted me))
           && Options.disconnect (options me)) || force
  then
    match observer me with
    | None => Thrown (me, w)
    | Some io =>
        Returned ({| options := options me; count := 0; counted := counted me;
                     erCounted := erCounted me; elms := None;
                     observer := Some (io_disconnect io);
                     windowWidth := windowWidth me |},
                  set_disconnected true w)
    end
  else Returned (me, w).

(** [me.destroy]. *)
Definition destroy (me : t) (force : bool) (w : World) : completion (t * World) :=
  match disconnect me force w with
  | Returned (me1, w1) => Returned (with_observer None me1, w1)
  | Thrown s => Thrown s
  end.

(** [me.disconnected]. *)
Definition disconnected (me : t) (w : World) : bool := _disconnected (vars w).

(** The private [init], on a selector and an observer configuration the
    platform accepts; [Exn.init], below, has the exceptions. *)
Definition init (me : t) (w : World) : completion (t * World) :=
  let found :=
    DOM.querySelectorAll (page w) (Options.root (options me))
      (DOM.SelAnd (Options.selector (options me))
         (DOM.SelNot (DOM.SelClass (Options.successClass (options me))))) in
  let me1 :=
    {| options := options me; count := Z.of_nat (length found); counted := counted me;
       erCounted := erCounted me; elms := Some found;
       observer := Some {| targets := [] |};
       windowWidth := dBlazy.windowWidth (window (page w)) |} in
  if _observed (vars w) then Returned (me1, w)
  else
    match observe me1 w with
    | Returned (me2, w2) => Returned (me2, set_observed true w2)
    | Thrown s => Thrown s
    end.

(** [new Bio(options)]; [o] is the options merged over [defaults]. *)
Definition new (o : Options.t) (w : World) : completion (t * World) :=
  init (prototype o) (set_observed false (set_disconnected false w)).

(** [me.reinit]. *)
Definition reinit (me : t) (w : World) : completion (t * World) :=
  init me (set_observed false (set_disconnected false w)).

(** [Bio.prototype.lazyLoad]: left to the extenders. *)
Definition lazyLoad (me : t) (el : ElId) (w : World) : t * World := (me, w).

End Bio.

(** ** BioMedia: the media loader, built on Bio's prototype *)

Module BioMedia.

Definition _src : string := "src".
Definition _srcSet : string := "srcset".
Definition _bgSrc : string := "data-src".
Definition _dataSrc : string := "data-src".
Definition _dataSrcset : string := "data-srcset".
Definition _bgSources : list string := [_src].
Definition _imgSources : list string := [_srcSet; _src].

(** [new BioMedia(options)] applies Bio's constructor. *)
Definition new : Options.t -> World -> completion (Bio.t * World) := Bio.new.

(** The text [url("] ... [")] made around [v]. *)
Definition css_url (v : string) : string :=
  "url(" +:+ String "034"%char (v +:+ String "034"%char ")").

(** [me.setBg]. *)
Definition setBg (el : ElId) (p : Page) : Page :=
  match DOM.getAttribute p el _bgSrc with
  | Some v => DOM.removeAttribute el _src (DOM.set_style el "backgroundImage" (css_url v) p)
  | None => p
  end.

(** [applyAttrs] of [me.promise]. *)
Definition applyAttrs (el : ElId) (isBg : bool) (p : Page) : Page :=
  if isBg then setBg el p else dBlazy.setAttrs el _imgSources false p.

(** [me.promise], the part that runs at once: the probe is made and its
    sources assigned. *)
Definition promise (me : Bio.t) (el : ElId) (isBg : bool) (w : World) : World :=
  let img :=
    {| for_element := el; background := isBg;
       image_src := DOM.getAttribute (page w) el (if isBg then _bgSrc else _dataSrc);
       image_srcset := DOM.getAttribute (page w) el _dataSrcset |} in
  {| page := page w; vars := vars w; images := images w ++ [img] |}.

(** [me.setImage], the part that runs at once; the handlers it chains
    are below. *)
Definition setImage (me : Bio.t) (el : ElId) (isBg : bool) (w : World) : World :=
  promise me el isBg w.

(** What the probe reports. *)
Inductive Outcome := onload | onerror.

(** The [then] handler of [me.setImage]. *)
Definition setImage_then (me : Bio.t) (el : ElId) (isBg : bool) (status : Z) (w : World)
  : Bio.t * World :=
  let '(me1, w1) := Bio.loaded me el status w in
  (me1, on_page (dBlazy.removeAttrs el (if isBg then _bgSources else _imgSources)) w1).

(** The [catch] handler of [me.setImage]. *)
Definition setImage_catch (me : Bio.t) (el : ElId) (status : Z) (w : World) : Bio.t * World :=
  let '(me1, w1) := Bio.loaded me el status w in
  (me1, on_page (DOM.removeAttribute el "data-bio-hit") w1).

(** The [finally] handler of [me.setImage]. *)
Definition setImage_finally (el : ElId) (w : World) : World :=
  on_page (dBlazy.trigger el "bio.finally") w.

(** The probe [img] reports [outcome]: its handler applies the
    attributes and settles the promise, and the chain of [me.setImage]
    runs to its end, each handler returning.  [Exn.settle], below,
    follows the handlers that throw. *)
Definition settle (me : Bio.t) (img : Image) (outcome : Outcome) (w : World) : Bio.t * World :=
  let el := for_element img in
  let isBg := background img in
  let w1 := on_page (applyAttrs el isBg) w in
  let '(me2, w2) :=
    match outcome with
    | onload => setImage_then me el isBg Bio._ok w1
    | onerror => setImage_catch me el Bio._er w1
    end in
  (me2, setImage_finally el w2).

(** The cascade of [me.lazyLoad] over the kind of element. *)
Definition lazyLoad_branch (me : Bio.t) (el : ElId) (w : World) : Bio.t * World :=
  let p := page w in
  let parent := DOM.parentNode p el in
  let isImage := dBlazy.equal p (Some el) "img" in
  let isBg := DOM.src_undefined p el && DOM.contains p el (Options.bgClass (Bio.options me)) in
  let isPicture := dBlazy.equal p parent "picture" in
  let isVideo := dBlazy.equal p (Some el) "video" in
  if isPicture then
    Bio.loaded me el Bio._ok
      (on_page (fun q => dBlazy.setAttr el _src true
                           (dBlazy.setAttrsWithSources el (Some _srcSet) true q)) w)
  else if isVideo then
    Bio.loaded me el Bio._ok
      (on_page (fun q => DOM.record (MediaLoad el)
                           (dBlazy.setAttrsWithSources el (Some _src) true q)) w)
  else if isImage || isBg then (me, setImage me el isBg w)
  else
    match DOM.getAttribute p el _dataSrc with
    | Some (String _ _) =>
        if DOM.hasAttribute p el _src
        then Bio.loaded me el Bio._ok (on_page (dBlazy.setAttr el _src true) w)
        else (me, w)
    | _ => (me, w)
    end.

(** [me.lazyLoad]. *)
Definition lazyLoad (me : Bio.t) (el : ElId) (w : World) : Bio.t * World :=
  if DOM.hasAttribute (page w) el "data-bio-hit" then (me, w)
  else
    let '(me1, w1) := lazyLoad_branch me el w in
    Bio.lazyLoad me1 el (on_page (DOM.setAttribute el "data-bio-hit" "1") w1).

End BioMedia.

(** ** Drupal.blazy: what the orchestrator hands to the loader *)

Module Blazy.

(** The largest [k] such that the first [k] characters of [s] are not
    white space and ["loading"] follows them. *)
Fixpoint longest_before_loading (s : string) : option nat :=
  match s with
  | EmptyString => None
  | String c t =>
      let here := if String.prefix "loading" s then Some O else None in
      if JS.is_space c then here
      else match longest_before_loading t with
           | Some k => Some (S k)
           | None => here
           end
  end.

(** The length of the match of [/(\S+)loading/] at the start of [s]. *)
Definition match_loading (s : string) : option nat :=
  match s with
  | String c t =>
      if JS.is_space c then None
      else match longest_before_loading t with
           | Some k => Some (S k + 7)%nat
           | None => None
           end
  | EmptyString => None
  end.

Fixpoint skip (n : nat) (s : string) : string :=
  match n, s with
  | S m, String _ t => skip m t
  | _, _ => s
  end.

(** [s.replace(/(\S+)loading/, '')]: the leftmost match is taken out. *)
Fixpoint replace_loading (s : string) : string :=
  match match_loading s with
  | Some len => skip len s
  | None =>
      match s with
      | String c t => String c (replace_loading t)
      | EmptyString => EmptyString
      end
  end.

(** [me.has]. *)
Definition has (p : Page) (el : option ElId) (attribute : string) : bool :=
  match el with
  | Some e => DOM.hasAttribute p e attribute
  | None => false
  end.

(** [me.clearLoading]. *)
Definition clearLoading (el : ElId) (p : Page) : Page :=
  let loaders :=
    [Some el;
     dBlazy.closest p el (DOM.SelClass "is-loading");
     dBlazy.closest p el (DOM.SelClassIncludes "loading")] in
  fold_left
    (fun q loader =>
       match loader with
       | Some l => DOM.set_className l (replace_loading (DOM.className q l)) q
       | None => q
       end)
    loaders p.

(** [me.reevaluate]. *)
Definition reevaluate (el : ElId) (p : Page) : Page :=
  let ie := DOM.contains p el "b-responsive" && DOM.hasAttribute p el "data-pfsrc" in
  let p1 :=
    if init_assigned (blazy p) && dBlazy.hasClass p el (blazy_errorClass (blazy p))
    then DOM.record (SetTimeout (Reload el) 10)
           (DOM.classList_remove el (blazy_errorClass (blazy p)) p)
    else p in
  if picturefill (window p1) && ie then DOM.record (Picturefill el) p1 else p1.

(** [me.updateContainer]: the work is put on a timer. *)
Definition updateContainer (el : ElId) (cn : option ElId) (p : Page) : Page :=
  let isPicture :=
    dBlazy.equal p (DOM.parentNode p el) "picture" && has p cn "data-dimensions" in
  DOM.record (SetTimeout (UpdateContainer el cn isPicture) 0) p.

(** [me.clearing], which [globals] makes both the [success] and the
    [error] callback of the loader: the calls that return, no listener of
    [blazy.native] waiting.  [Exn.clearing], below, has the others. *)
Definition clearing : Callback := fun el _ p =>
  let cn := dBlazy.closest p el (DOM.SelClass "media") in
  let an := dBlazy.closest p el (DOM.SelAttr "data-animation") in
  let p1 := clearLoading el p in
  let p2 := reevaluate el p1 in
  let p3 := updateContainer el cn p2 in
  let p4 :=
    match an with
    | Some a => dBlazy.animate a None p3
    | None => if has p3 (Some el) "data-animation" then dBlazy.animate el None p3 else p3
    end in
  let p5 := dBlazy.trigger el "blazy.done" p4 in
  if isNativeExecuted (blazy p5) then p5
  else
    DOM.set_blazy
      {| init_assigned := init_assigned (blazy p5);
         blazy_errorClass := blazy_errorClass (blazy p5);
         blazy_successClass := blazy_successClass (blazy p5);
         context := context (blazy p5);
         isNativeExecuted := true;
         items := items (blazy p5);
         listening := listening (blazy p5) |}
      (dBlazy.trigger (context (blazy p5)) "blazy.native" p5).

(** The options the loader is built with when the site settings and the
    container add nothing: [commons] of [me.globals] over Bio's
    defaults. *)
Definition options : Options.t :=
  {| Options.root := None;
     Options.disconnect := false;
     Options.error := Some clearing;
     Options.success := Some clearing;
     Options.successClass := "b-loaded";
     Options.selector := DOM.SelClass "b-lazy";
     Options.errorClass := "b-error";
     Options.bgClass := "b-bg";
     Options.rootMargin := "0px";
     Options.threshold := [0%Q] |}.

End Blazy.

(** ** A sample page *)

Module Sample.

Definition win900 : Window :=
  {| innerWidth := 900; documentElement_clientWidth := 900; body_clientWidth := 900;
     screen_width := 1920; devicePixelRatio := 1; picturefill := false |}.

(** [{0: "a.jpg", 768: "b.jpg", 1200: "c.jpg"}]. *)
Definition abc : JS.object :=
  [("0", JS.Str "a.jpg"); ("768", JS.Str "b.jpg"); ("1200", JS.Str "c.jpg")].

Definition element (name : string) (classes : list string) (attrs : list (string * string))
  : Element :=
  {| nodeName := name; attributes := list_to_map attrs; classList := classes;
     own_src := None; style := ∅ |}.

(** [<body>] holding an image, a picture with two sources and its
    image, a video with one source, a background block and an iframe. *)
Definition body : Tree :=
  (Node 0 [Node 1 [];
           Node 2 [Node 3 []; Node 4 []; Node 5 []];
           Node 6 [Node 7 []];
           Node 8 [];
           Node 9 []])%nat.

Definition store : gmap ElId Element :=
  list_to_map
    [(0%nat, element "BODY" [] []);
     (1%nat, element "IMG" ["b-lazy"] [("data-src", "a.jpg"); ("data-srcset", "a.jpg 1x, a2.jpg 2x")]);
     (2%nat, element "PICTURE" [] []);
     (3%nat, element "SOURCE" [] [("data-srcset", "s.webp")]);
     (4%nat, element "SOURCE" [] [("data-srcset", "s.jpg")]);
     (5%nat, element "IMG" ["b-lazy"] [("data-src", "p.jpg")]);
     (6%nat, element "VIDEO" ["b-lazy"] []);
     (7%nat, element "SOURCE" [] [("data-src", "v.mp4")]);
     (8%nat, element "DIV" ["b-lazy"; "b-bg"] [("data-src", "bg.jpg")]);
     (9%nat, element "IFRAME" ["b-lazy"] [("data-src", "frame.html"); ("src", "about:blank")])].

Definition page0 : Page :=
  {| window := win900; tree := body; nodes := store; history := [];
     blazy := {| init_assigned := true; blazy_errorClass := "b-error";
                 blazy_successClass := "b-loaded";
                 context := 0%nat; isNativeExecuted := false;
                 items := []; listening := [] |} |}.

Definition world0 : World :=
  {| page := page0;
     vars := {| _bioTick := 0; _revTick := 0; _disconnected := false; _observed := false |};
     images := [] |}.

End Sample.

(** ** Vocabulary of the statements *)

(** *** Breakpoint datasets *)

Module Breakpoints.

(** The number written by the decimal digits [s], after [acc]. *)
Fixpoint numeral (acc : Z) (s : string) : option Z :=
  match s with
  | EmptyString => Some acc
  | String c t =>
      if JS.is_digit c then numeral (10 * acc + (JS.code c - 48)) t else None
  end.

(** The width a property name stands for when it is the canonical
    decimal numeral of a natural number: digits only, no leading zero.
    Such names (below 2^32 - 1) are the integer keys of an object, which
    [Object.keys] lists first and in ascending order. *)
Definition width_of (k : string) : option Z :=
  match k with
  | EmptyString => None
  | String c t =>
      if Ascii.eqb c "0" && negb (String.eqb t "") then None else numeral 0 k
  end.

(** The widths that key a dataset, in the order of its keys. *)
Fixpoint widths (d : JS.object) : option (list Z) :=
  match d with
  | [] => Some []
  | (k, _) :: rest =>
      match width_of k, widths rest with
      | Some w, Some ws => Some (w :: ws)
      | _, _ => None
      end
  end.

Fixpoint ascending (ws : list Z) : bool :=
  match ws with
  | a :: t => match t with
              | b :: _ => (a <? b) && ascending t
              | [] => true
              end
  | [] => true
  end.

(** A breakpoint dataset: every key is a width, the keys come in
    ascending order, and every key has a value. *)
Definition dataset (d : JS.object) : Prop :=
  (exists ws, widths d = Some ws /\ ascending ws = true)
  /\ Forall (fun kv => snd kv <> JS.Undefined) d.

(** [d] maps the key [k], which is the width [w], to [v]. *)
Definition entry (d : JS.object) (k : string) (w : Z) (v : JS.value) : Prop :=
  In (k, v) d /\ width_of k = Some w.

(** The width of the window: the inner width, or when that is zero the
    client width of the document element, or of the body, or at last the
    width of the screen. *)
Definition width (win : Window) : Z :=
  default (screen_width win)
    (List.find (fun z => negb (z =? 0))
       [innerWidth win; documentElement_clientWidth win; body_clientWidth win]).

(** The pixel ratio of the device, a double; 1 when the window reports
    none. *)
Definition ratio (win : Window) : Q :=
  if Qeq_bool (JS.double (devicePixelRatio win)) 0 then 1%Q
  else JS.double (devicePixelRatio win).

(** The effective width: window width times pixel ratio, a product of
    doubles. *)
Definition effectiveWidth (win : Window) : Q :=
  JS.double (inject_Z (width win) * ratio win).

(** The test [mw] of [dBlazy.activeWidth] when it is not mobile first and
    the width is [ww]. *)
Definition qualifies (ww : Q) (k : string) : bool := JS.ge (JS.parseInt k) (JS.Num ww).

End Breakpoints.

(** *** Sequences of outcomes reported to an instance *)

Inductive Report :=
| Succeeded (el : ElId) (status : Z)    (* [me.success(el, status)] *)
| Failed (el : ElId) (status : Z).      (* [me.error(el, status)] *)

(** *** What a callback leaves in place *)

(** The callback [cb], when there is one, keeps the property [P] of the
    page whenever it is run on [el]. *)
Definition keeps (cb : option Callback) (el : ElId) (P : Page -> Prop) : Prop :=
  match cb with
  | Some f => forall status p, P p -> P (f el status p)
  | None => True
  end.

(** *** What the loading protocol leaves on an element *)

(** On page [p] the real attributes of the element of the probe [img]
    hold what its data attributes held on page [p0]: [src] and [srcset]
    for an image, the CSS background for a background block. *)
Definition promoted (p0 : Page) (img : Image) (p : Page) : Prop :=
  let el := for_element img in
  if background img
  then forall x, DOM.getAttribute p0 el "data-src" = Some x ->
                 style (DOM.node p el) !! "backgroundImage" = Some (BioMedia.css_url x)
  else (forall x, DOM.getAttribute p0 el "data-src" = Some x ->
                  DOM.getAttribute p el "src" = Some x)
       /\ (forall y, DOM.getAttribute p0 el "data-srcset" = Some y ->
                     DOM.getAttribute p el "srcset" = Some y).

(** A probe as [me.lazyLoad] makes them: for a background block, or else
    for an [img]. *)
Definition well_formed_probe (p : Page) (img : Image) : Prop :=
  background img = false -> dBlazy.equal p (Some (for_element img)) "img" = true.

(** *** Class names as words of the class attribute *)

Module Words.

Fixpoint every (f : ascii -> bool) (s : string) : bool :=
  match s with
  | EmptyString => true
  | String c t => f c && every f t
  end.

(** A class name that is not empty, holds no white space and holds no
    ["loading"]. *)
Definition plain (t : string) : bool :=
  negb (String.eqb t "")
  && every (fun c => negb (JS.is_space c)) t
  && negb (DOM.includes "loading" t).

(** [s] is at its end, or goes on with ASCII white space. *)
Definition delimited (s : string) : Prop :=
  match s with
  | EmptyString => True
  | String c _ => DOM.is_ascii_whitespace c = true
  end.

(** [s] starts with the word [t]. *)
Definition word_at (t s : string) : Prop :=
  exists rest, s = t +:+ rest /\ delimited rest.

(** [t] is a word of [s]; [fresh] tells whether [s] starts where a word
    may start. *)
Fixpoint word_in (t : string) (fresh : bool) (s : string) : Prop :=
  (fresh = true /\ word_at t s)
  \/ match s with
     | EmptyString => False
     | String c s' => word_in t (DOM.is_ascii_whitespace c) s'
     end.

End Words.

(** *** More of the sample page *)

Module Fixture.

(** An instance with one element in error. *)
Definition troubled : Bio.t :=
  {| Bio.options := Bio.defaults; Bio.count := 5; Bio.counted := 2; Bio.erCounted := 1;
     Bio.elms := Some [1; 5; 6; 8; 9]%nat;
     Bio.observer := Some {| targets := [6; 8; 9]%nat |};
     Bio.windowWidth := 900 |}.

(** Another instance, on the same page. *)
Definition other : Bio.t :=
  {| Bio.options := Bio.defaults; Bio.count := 1; Bio.counted := 0; Bio.erCounted := 0;
     Bio.elms := Some [8]%nat;
     Bio.observer := Some {| targets := [8]%nat |};
     Bio.windowWidth := 900 |}.

(** What a call has left, whichever way it ended. *)
Definition reached {A : Type} (c : completion A) : A :=
  match c with
  | Returned a => a
  | Thrown a => a
  end.

(** A loader built with Bio's defaults on the sample page, and the world
    it leaves. *)
Definition plain : Bio.t := fst (reached (BioMedia.new Bio.defaults Sample.world0)).
Definition world_plain : World := snd (reached (BioMedia.new Bio.defaults Sample.world0)).

(** A loader built as the orchestrator does, and the world it leaves. *)
Definition orchestrated : Bio.t := fst (reached (BioMedia.new Blazy.options Sample.world0)).
Definition world_orchestrated : World :=
  snd (reached (BioMedia.new Blazy.options Sample.world0)).

(** The probe [me.lazyLoad] makes for the image 1 of the sample page. *)
Definition probe1 : Image :=
  {| for_element := 1%nat; background := false;
     image_src := Some "a.jpg"; image_srcset := Some "a.jpg 1x, a2.jpg 2x" |}.

(** The world once [me.lazyLoad] has been through image 1, for the
    orchestrated loader. *)
Definition hit_orchestrated : World :=
  snd (BioMedia.lazyLoad orchestrated 1%nat world_orchestrated).

(** The page after the probe of image 1 has failed, under the
    orchestrated loader. *)
Definition failed_orchestrated : Page :=
  page (snd (BioMedia.settle orchestrated probe1 BioMedia.onerror hit_orchestrated)).

(** The page after the probe of image 1 has loaded, under the
    orchestrated loader. *)
Definition loaded_orchestrated : Page :=
  page (snd (BioMedia.settle orchestrated probe1 BioMedia.onload hit_orchestrated)).

End Fixture.

(** ** The rest of the engine *)

(** *** Calls that may throw, one after the other *)

(** Runs [f] on what [c] returned; a throw goes through. *)
Definition and_then {S : Type} (c : completion S) (f : S -> completion S) : completion S :=
  match c with
  | Returned s => f s
  | Thrown s => Thrown s
  end.

(** [dBlazy.forEach] over a NodeList or an array: the callback is run on
    the items in order, and a throw ends the loop. *)
Fixpoint forEach {A S : Type} (collection : list A) (callback : A -> S -> completion S) (s : S)
  : completion S :=
  match collection with
  | [] => Returned s
  | item :: rest => and_then (callback item s) (forEach rest callback)
  end.

(** *** Bio.prototype: what the observer and the callers run *)

Module BioProto.

(** An IntersectionObserverEntry, as far as the engine reads it. *)
Record Entry := {
  target : ElId;
  isIntersecting : bool;
  intersectionRatio : Q
}.

(** The two options [Options.t] leaves out, [false] by default: the
    callbacks [intersecting] and [observing].  Like [success] and [error]
    they are taken to act on the page only. *)
Record Hooks := {
  intersecting_option : option (ElId -> Page -> Page);
  observing_option : option (Entry -> Page -> Page)
}.

(** The prototype chain of the instance: [me.lazyLoad] is Bio's, or the
    one BioMedia puts in its place. *)
Inductive Class := OfBio | OfBioMedia.

Definition lazyLoad (c : Class) : Bio.t -> ElId -> World -> Bio.t * World :=
  match c with
  | OfBio => Bio.lazyLoad
  | OfBioMedia => BioMedia.lazyLoad
  end.

Definition with_counted (n : Z) (me : Bio.t) : Bio.t :=
  {| Bio.options := Bio.options me; Bio.count := Bio.count me; Bio.counted := n;
     Bio.erCounted := Bio.erCounted me; Bio.elms := Bio.elms me;
     Bio.observer := Bio.observer me; Bio.windowWidth := Bio.windowWidth me |}.

Definition with_elms (l : option (list ElId)) (me : Bio.t) : Bio.t :=
  {| Bio.options := Bio.options me; Bio.count := Bio.count me; Bio.counted := Bio.counted me;
     Bio.erCounted := Bio.erCounted me; Bio.elms := l;
     Bio.observer := Bio.observer me; Bio.windowWidth := Bio.windowWidth me |}.

Definition set_revTick (n : Z) (w : World) : World :=
  with_vars {| _bioTick := _bioTick (vars w); _revTick := n;
               _disconnected := _disconnected (vars w); _observed := _observed (vars w) |} w.

(** [observer.unobserve(el)]. *)
Definition io_unobserve (el : ElId) (io : IntersectionObserver) : IntersectionObserver :=
  {| targets := List.filter (fun t => negb (Nat.eqb t el)) (targets io) |}.

(** What [me.load] is given: an element -- of an interface without
    [length], so neither a form nor a select -- or a NodeList or an array
    of such elements. *)
Inductive Elms :=
| One (el : ElId)
| Many (els : list ElId).

(** [me.isValid]: an object without [length] that is not loaded. *)
Definition isValid (me : Bio.t) (p : Page) (el : Elms) : bool :=
  match el with
  | One e => negb (Bio.isLoaded me p e)
  | Many _ => false
  end.

(** What [dBlazy.forEach] goes through when it is given [elms]: an
    element is no plain object and has no [length], so nothing. *)
Definition members (elms : Elms) : list ElId :=
  match elms with
  | One _ => []
  | Many els => els
  end.

(** Whether the entry reports its target in view. *)
Definition in_view (entry : Entry) : bool :=
  isIntersecting entry || negb (Qle_bool (intersectionRatio entry) 0).

Section Instance.

Variable c : Class.
Variable h : Hooks.

(** [me.intersecting]: throws, once the element has been dealt with, when
    [me.observer] is [null] and the module is not disconnected.  The
    callback and [me.lazyLoad] return here; [Exn.intersecting], below,
    follows those that throw. *)
Definition intersecting (me : Bio.t) (el : ElId) (w : World) : completion (Bio.t * World) :=
  let w1 := match intersecting_option h with
            | Some f => on_page (f el) w
            | None => w
            end in
  let w2 := on_page (dBlazy.trigger el "bio.intersecting") w1 in
  let '(me3, w3) := lazyLoad c me el w2 in
  let me4 := with_counted (Bio.counted me3 + 1) me3 in
  if _disconnected (vars w3) then Returned (me4, w3)
  else match Bio.observer me4 with
       | Some io => Returned (Bio.with_observer (Some (io_unobserve el io)) me4, w3)
       | None => Thrown (me4, w3)
       end.

(** [me.load]. *)
Definition load (me : Bio.t) (elms : Elms) (w : World) : completion (Bio.t * World) :=
  and_then
    (if isValid me (page w) elms
     then match elms with
          | One el => intersecting me el w
          | Many _ => Returned (me, w)
          end
     else forEach (members elms)
            (fun el s =>
               if isValid (fst s) (page (snd s)) (One el)
               then intersecting (fst s) el (snd s)
               else Returned s)
            (me, w))
    (fun s =>
       if _disconnected (vars (snd s)) then Returned s
       else Bio.disconnect (fst s) false (snd s)).

(** [me.revalidate]; [force] tells whether the argument is [true]. *)
Definition revalidate (me : Bio.t) (force : bool) (w : World) : completion (Bio.t * World) :=
  if (force || negb (Bio.count me =? Bio.counted me))
     && (_revTick (vars w) <? Bio.counted me)
  then
    let w1 := set_disconnected false w in
    let me1 :=
      with_elms (Some (DOM.querySelectorAll (page w1) (Options.root (Bio.options me))
                         (Options.selector (Bio.options me)))) me in
    and_then (Bio.observe me1 w1)
      (fun s => Returned (fst s, set_revTick (_revTick (vars (snd s)) + 1) (snd s)))
  else Returned (me, w).

(** What [me.observing] does with one entry. *)
Definition observing_entry (entry : Entry) (s : Bio.t * World) : completion (Bio.t * World) :=
  let me := fst s in
  let w1 := match observing_option h with
            | Some f => on_page (f entry) (snd s)
            | None => snd s
            end in
  if in_view entry
  then
    and_then
      (if negb (Bio.isLoaded me (page w1) (target entry))
       then intersecting me (target entry) w1
       else Returned (me, w1))
      (fun s2 => Returned (fst s2, set_bioTick (_bioTick (vars (snd s2)) - 1) (snd s2)))
  else Returned (me, w1).

(** [me.observing], the callback of the IntersectionObserver.  The
    entries are also kept in [me.entries], which nothing reads. *)
Definition observing (me : Bio.t) (entries : list Entry) (w : World)
  : completion (Bio.t * World) :=
  if _disconnected (vars w) then Returned (me, w)
  else and_then (forEach entries observing_entry (me, w))
         (fun s => Bio.disconnect (fst s) false (snd s)).

End Instance.

(** Calls of [me.revalidate], one after the other. *)
Definition revalidations (forces : list bool) (s : Bio.t * World) : completion (Bio.t * World) :=
  forEach forces (fun force s' => revalidate (fst s') force (snd s')) s.

End BioProto.

(** ** dBlazy.extend and the settings of the orchestrator *)

Module Settings.

(** The value of a setting: plain data, or a callback. *)
Inductive Setting :=
| Plain (v : JS.value)
| Function (f : Callback).

(** The loop of [dBlazy.extend] over the own properties of one source:
    each is assigned to [out]. *)
Definition assign {V : Type} (source out : gmap string V) : gmap string V :=
  map_fold (fun key v acc => <[key := v]> acc) out source.

(** [dBlazy.extend(out, ...sources)] for an object [out]; a source that
    is falsy ([None]) is passed over.  What is returned is [out] itself,
    changed in place. *)
Definition extend {V : Type} (out : gmap string V) (sources : list (option (gmap string V)))
  : gmap string V :=
  fold_left (fun acc source => match source with
                               | Some s => assign s acc
                               | None => acc
                               end)
    sources out.

(** [commons] of [Drupal.blazy.globals]. *)
Definition commons : gmap string Setting :=
  list_to_map
    [("isUniform", Plain (JS.Bool false));
     ("success", Function Blazy.clearing);
     ("error", Function Blazy.clearing);
     ("selector", Plain (JS.Str ".b-lazy"));
     ("errorClass", Plain (JS.Str "b-error"));
     ("successClass", Plain (JS.Str "b-loaded"))].

(** [Drupal.blazy.globals]: what it returns, which is also what it leaves
    in [me.blazySettings]. *)
Definition globals (blazySettings ioSettings : gmap string Setting) : gmap string Setting :=
  extend blazySettings [Some ioSettings; Some commons].

End Settings.

(** ** dBlazy.once and dBlazy.throttle *)

Module Closures.

(** How a call ends: with a value or by throwing, and in which state. *)
Inductive Result (R S : Type) :=
| Gave (r : R) (s : S)
| Threw (s : S).
Arguments Gave {R S} r s.
Arguments Threw {R S} s.

Definition state_after {R S : Type} (r : Result R S) : S :=
  match r with
  | Gave _ s => s
  | Threw s => s
  end.

(** The variables [ran] and [result] of the closure [dBlazy.once] makes;
    [None] is [undefined]. *)
Record Cell (R : Type) := { ran : bool; result : option R }.
Arguments ran {R} c.
Arguments result {R} c.

Section Once.

Context {A R S : Type}.

Variable fn : A -> S -> Result R S.

(** The closure as [dBlazy.once(fn)] returns it. *)
Definition once : Cell R := {| ran := false; result := None |}.

(** A call of [proxy] with the arguments [a]. *)
Definition proxy (c : Cell R) (a : A) (s : S) : Cell R * Result (option R) S :=
  if ran c then (c, Gave (result c) s)
  else match fn a s with
       | Gave r s' => ({| ran := true; result := Some r |}, Gave (Some r) s')
       | Threw s' => ({| ran := true; result := None |}, Threw s')
       end.

(** Calls of [proxy], one after the other: how each of them ends. *)
Fixpoint proxies (c : Cell R) (args : list A) (s : S) : list (Result (option R) S) :=
  match args with
  | [] => []
  | a :: rest =>
      let (c', r) := proxy c a s in
      r :: proxies c' rest (state_after r)
  end.

End Once.

Section Throttle.

Variable minDelay : Z.

(** One call, at the time [now], of the function [dBlazy.throttle]
    returns: whether [fn] is run, and the [lastCall] the closure is left
    with. *)
Definition throttled (lastCall now : Z) : bool * Z :=
  if now - lastCall <? minDelay then (false, lastCall) else (true, now).

(** Calls at the times [times], one after the other: the times at which
    [fn] is run. *)
Fixpoint runs (lastCall : Z) (times : list Z) : list Z :=
  match times with
  | [] => []
  | now :: rest =>
      let (run, lastCall') := throttled lastCall now in
      if run then now :: runs lastCall' rest else runs lastCall' rest
  end.

(** Each time of [l] comes at least [minDelay] after the one before it,
    the first after [prev]. *)
Fixpoint spaced (prev : Z) (l : list Z) : Prop :=
  match l with
  | [] => True
  | t :: rest => minDelay <= t - prev /\ spaced t rest
  end.

End Throttle.

End Closures.

(** ** More vocabulary *)

Module Classes.

(** A token as a class list holds them: not empty, without ASCII white
    space. *)
Definition token (t : string) : bool :=
  negb (String.eqb t "") && Words.every (fun c => negb (DOM.is_ascii_whitespace c)) t.

(** The step that dispatches [blazy.native]. *)
Definition is_native (s : Step) : bool :=
  match s with
  | Dispatch _ type => String.eqb type "blazy.native"
  | _ => false
  end.

End Classes.

(** *** The test of [dBlazy.activeWidth], mobile first *)

Module MobileFirst.

(** The test [(MobileFirst.fits ww)] of [dBlazy.activeWidth] when it is mobile first and the
    window is [ww] wide. *)
Definition fits (ww : Z) (k : string) : bool := JS.le (JS.parseInt k) (JS.of_Z ww).

End MobileFirst.

(** *** Steps that leave the orchestrator and [blazy.native] alone *)

Module Quiet.

(** From [p] to [q] steps were added, none of them a dispatch of
    [blazy.native], and the state of the orchestrator was kept. *)
Definition quiet (p q : Page) : Prop :=
  exists added,
    history q = history p ++ added
    /\ List.filter Classes.is_native added = []
    /\ blazy q = blazy p.

End Quiet.

(** ** The paths on which something throws, and the listener of the code's own

    The definitions above follow the calls that return.  Here are the
    same functions with the exceptions the DOM and the callbacks raise --
    an invalid class token, a callback that throws -- and with the one
    listener the code binds itself on an event it dispatches: the
    listener of [blazy.native] bound once by [doNativeLazy]. *)

Module Exn.

(** The state a call has reached, however it ended. *)
Definition reached {A : Type} (c : completion A) : A :=
  match c with
  | Returned a => a
  | Thrown a => a
  end.

Definition with_page (p : Page) (w : World) : World :=
  {| page := p; vars := vars w; images := images w |}.

(** A call on the page made from a world. *)
Definition lift (f : Page -> completion Page) (w : World) : completion World :=
  match f (page w) with
  | Returned p => Returned (with_page p w)
  | Thrown p => Thrown (with_page p w)
  end.

(** *** The DOM *)

(** [el.classList.add(...tokens)]: a SyntaxError on an empty token, an
    InvalidCharacterError on one that holds ASCII white space, before
    anything is added. *)
Definition classList_add (el : ElId) (tokens : list string) (p : Page) : completion Page :=
  if forallb Classes.token tokens
  then Returned (fold_left (fun q t => DOM.classList_add el t q) tokens p)
  else Thrown p.

(** *** dBlazy *)

(** [dBlazy.animate]: [el.classList.add('animated', animation)] throws on
    a name that is no token; [animation] is [None] when the argument is
    left out, and an empty one is falsy. *)
Definition animate (el : ElId) (animation : option string) (p : Page) : completion Page :=
  let name :=
    match animation with
    | Some (String c a) => String c a
    | _ => default "undefined" (DOM.getAttribute p el "data-animation")
    end in
  if forallb Classes.token ["animated"; name]
  then Returned (dBlazy.animate el (Some name) p)
  else Thrown p.

(** *** Drupal.blazy: [clearing], and [doNativeLazy]'s listener *)

Fixpoint remove_first (el : ElId) (l : list ElId) : list ElId :=
  match l with
  | [] => []
  | x :: rest => if Nat.eqb x el then rest else x :: remove_first el rest
  end.

Definition with_listening (l : list ElId) (p : Page) : Page :=
  DOM.set_blazy
    {| init_assigned := init_assigned (blazy p);
       blazy_errorClass := blazy_errorClass (blazy p);
       blazy_successClass := blazy_successClass (blazy p);
       context := context (blazy p);
       isNativeExecuted := isNativeExecuted (blazy p);
       items := items (blazy p);
       listening := l |} p.

Definition with_isNativeExecuted (b : bool) (p : Page) : Page :=
  DOM.set_blazy
    {| init_assigned := init_assigned (blazy p);
       blazy_errorClass := blazy_errorClass (blazy p);
       blazy_successClass := blazy_successClass (blazy p);
       context := context (blazy p);
       isNativeExecuted := b;
       items := items (blazy p);
       listening := listening (blazy p) |} p.

(** [doNative] of [doNativeLazy]; [clearing] is [me.clearing]. *)
Definition doNative (clearing : ElId -> Page -> completion Page) (el : ElId) (p : Page)
  : completion Page :=
  let p1 := dBlazy.setAttrs el ["srcset"; "src"] true p in
  let p2 := dBlazy.setAttrsWithSources el None true p1 in
  and_then (classList_add el [blazy_successClass (blazy p2)] p2) (clearing el).

(** [onNative], the listener: it goes through [me.items] until a
    [doNative] throws.  What a listener throws is reported, not thrown
    to the code that dispatched the event. *)
Definition onNative (clearing : ElId -> Page -> completion Page) (p : Page) : Page :=
  reached (forEach (items (blazy p)) (doNative clearing) p).

(** [dBlazy.trigger(me.context, 'blazy.native')]: the event is dispatched
    on the context and bubbles through its ancestors.  On each of them
    the listeners bound there when its turn comes are run, unless one has
    been run in the meantime; a listener is unbound as it is run
    ([once]). *)
Definition trigger_native (listener : Page -> Page) (p : Page) : Page :=
  let ctx := context (blazy p) in
  let p0 := dBlazy.trigger ctx "blazy.native" p in
  fold_left
    (fun q node =>
       fold_left
         (fun q' _ =>
            if bool_decide (node ∈ listening (blazy q'))
            then listener (with_listening (remove_first node (listening (blazy q'))) q')
            else q')
         (List.filter (Nat.eqb node) (listening (blazy q))) q)
    (ctx :: DOM.ancestors p0 ctx) p0.

(** [me.clearing]; [depth] bounds the listeners that run one inside the
    other, each of them calling [me.clearing] again. *)
Fixpoint clearing_within (depth : nat) (el : ElId) (p : Page) : completion Page :=
  let cn := dBlazy.closest p el (DOM.SelClass "media") in
  let an := dBlazy.closest p el (DOM.SelAttr "data-animation") in
  let p1 := Blazy.clearLoading el p in
  let p2 := Blazy.reevaluate el p1 in
  let p3 := Blazy.updateContainer el cn p2 in
  and_then
    (match an with
     | Some a => animate a None p3
     | None => if Blazy.has p3 (Some el) "data-animation" then animate el None p3
               else Returned p3
     end)
    (fun p4 =>
       let p5 := dBlazy.trigger el "blazy.done" p4 in
       if isNativeExecuted (blazy p5) then Returned p5
       else
         Returned
           (with_isNativeExecuted true
              (match depth with
               | O => trigger_native (fun q => q) p5
               | S depth' => trigger_native (onNative (clearing_within depth')) p5
               end))).

(** [me.clearing] as a callback: no more listeners can run one inside the
    other than there are waiting. *)
Definition clearing (el : ElId) (p : Page) : completion Page :=
  clearing_within (length (listening (blazy p))) el p.

(** [me.doNativeLazy], as far as it binds the listener. *)
Definition doNativeLazy (p : Page) : Page :=
  with_listening (listening (blazy p) ++ [context (blazy p)])
    (dBlazy.bindEvent (context (blazy p)) "blazy.native" p).

(** The element [clearing] animates when it is run on [el]: the nearest
    ancestor with [data-animation], or else [el] itself when it has
    one. *)
Definition animated (p : Page) (el : ElId) : option ElId :=
  match dBlazy.closest p el (DOM.SelAttr "data-animation") with
  | Some a => Some a
  | None => if Blazy.has p (Some el) "data-animation" then Some el else None
  end.

(** No animation is asked for, or its name is a class token. *)
Definition animation_ok (p : Page) (el : ElId) : bool :=
  match animated p el with
  | Some a => Classes.token (default "undefined" (DOM.getAttribute p a "data-animation"))
  | None => true
  end.

(** No listener of [blazy.native] will run: the event has been
    dispatched, or none waits. *)
Definition calm (p : Page) : Prop :=
  isNativeExecuted (blazy p) = true \/ listening (blazy p) = [].

(** The page [clearing] has reached when it comes to the animation. *)
Definition before_animation (el : ElId) (p : Page) : Page :=
  Blazy.updateContainer el (dBlazy.closest p el (DOM.SelClass "media"))
    (Blazy.reevaluate el (Blazy.clearLoading el p)).

(** The page a callback of the chain is run on: the attributes applied,
    the class put on. *)
Definition handed (el : ElId) (isBg : bool) (cls : string) (p : Page) : Page :=
  DOM.classList_add el cls (BioMedia.applyAttrs el isBg p).

(** *** Bio *)

(** What a [success] or [error] callback is told: the status of the
    probe, [me._ok] or [me._er], or -- in the [catch] handler that runs
    after the [then] handler has thrown -- what was thrown. *)
Inductive Status :=
| Code (status : Z)
| Exception.

(** [status === me._ok]. *)
Definition is_ok (status : Status) : bool :=
  match status with
  | Code z => z =? Bio._ok
  | Exception => false
  end.

(** A callback of the options: it may change the page in any way, and it
    may throw.  As above, the instance, the variables of the Bio module
    and the probes are taken to be out of its reach. *)
Definition Handler := ElId -> Status -> Page -> completion Page.

(** The callbacks among the options of a loader.  They stand for
    [options.success], [options.error], [options.intersecting] and
    [options.observing]; the other options are read from the instance. *)
Record Handlers := {
  on_success : option Handler;
  on_error : option Handler;
  on_intersecting : option (ElId -> Page -> completion Page);
  on_observing : option (BioProto.Entry -> Page -> completion Page)
}.

Definition no_handlers : Handlers :=
  {| on_success := None; on_error := None; on_intersecting := None; on_observing := None |}.

(** The loader [Drupal.blazy] builds: [clearing] is both callbacks. *)
Definition orchestrated : Handlers :=
  {| on_success := Some (fun el _ => clearing el);
     on_error := Some (fun el _ => clearing el);
     on_intersecting := None; on_observing := None |}.

Section Loader.

Variable hs : Handlers.

(** [me.success]: the counter is left alone when the callback throws. *)
Definition success (me : Bio.t) (el : ElId) (status : Status) (w : World)
  : completion (Bio.t * World) :=
  match match on_success hs with
        | Some f => lift (f el status) w
        | None => Returned w
        end with
  | Returned w1 =>
      Returned (if 0 <? Bio.erCounted me then Bio.with_erCounted (Bio.erCounted me - 1) me
                else me, w1)
  | Thrown w1 => Thrown (me, w1)
  end.

(** [me.error]. *)
Definition error (me : Bio.t) (el : ElId) (status : Status) (w : World)
  : completion (Bio.t * World) :=
  match match on_error hs with
        | Some f => lift (f el status) w
        | None => Returned w
        end with
  | Returned w1 => Returned (Bio.with_erCounted (Bio.erCounted me + 1) me, w1)
  | Thrown w1 => Thrown (me, w1)
  end.

(** [me.loaded]. *)
Definition loaded (me : Bio.t) (el : ElId) (status : Status) (w : World)
  : completion (Bio.t * World) :=
  match lift (classList_add el [if is_ok status then Options.successClass (Bio.options me)
                                else Options.errorClass (Bio.options me)]) w with
  | Returned w1 => if is_ok status then success me el status w1 else error me el status w1
  | Thrown w1 => Thrown (me, w1)
  end.

(** *** BioMedia *)

(** The cascade of [me.lazyLoad] over the kind of element. *)
Definition lazyLoad_branch (me : Bio.t) (el : ElId) (w : World) : completion (Bio.t * World) :=
  let p := page w in
  let parent := DOM.parentNode p el in
  let isImage := dBlazy.equal p (Some el) "img" in
  let isBg := DOM.src_undefined p el && DOM.contains p el (Options.bgClass (Bio.options me)) in
  let isPicture := dBlazy.equal p parent "picture" in
  let isVideo := dBlazy.equal p (Some el) "video" in
  if isPicture then
    loaded me el (Code Bio._ok)
      (on_page (fun q => dBlazy.setAttr el BioMedia._src true
                           (dBlazy.setAttrsWithSources el (Some BioMedia._srcSet) true q)) w)
  else if isVideo then
    loaded me el (Code Bio._ok)
      (on_page (fun q => DOM.record (MediaLoad el)
                           (dBlazy.setAttrsWithSources el (Some BioMedia._src) true q)) w)
  else if isImage || isBg then Returned (me, BioMedia.setImage me el isBg w)
  else
    match DOM.getAttribute p el BioMedia._dataSrc with
    | Some (String _ _) =>
        if DOM.hasAttribute p el BioMedia._src
        then loaded me el (Code Bio._ok) (on_page (dBlazy.setAttr el BioMedia._src true) w)
        else Returned (me, w)
    | _ => Returned (me, w)
    end.

(** [me.lazyLoad]: the marker is written when the cascade has returned. *)
Definition lazyLoad (me : Bio.t) (el : ElId) (w : World) : completion (Bio.t * World) :=
  if DOM.hasAttribute (page w) el "data-bio-hit" then Returned (me, w)
  else
    match lazyLoad_branch me el w with
    | Returned (me1, w1) =>
        Returned (Bio.lazyLoad me1 el (on_page (DOM.setAttribute el "data-bio-hit" "1") w1))
    | Thrown s => Thrown s
    end.

(** The [then] handler of [me.setImage]. *)
Definition setImage_then (me : Bio.t) (el : ElId) (isBg : bool) (status : Status) (w : World)
  : completion (Bio.t * World) :=
  match loaded me el status w with
  | Returned (me1, w1) =>
      Returned (me1, on_page (dBlazy.removeAttrs el (if isBg then BioMedia._bgSources
                                                     else BioMedia._imgSources)) w1)
  | Thrown s => Thrown s
  end.

(** The [catch] handler of [me.setImage]. *)
Definition setImage_catch (me : Bio.t) (el : ElId) (status : Status) (w : World)
  : completion (Bio.t * World) :=
  match loaded me el status w with
  | Returned (me1, w1) => Returned (me1, on_page (DOM.removeAttribute el "data-bio-hit") w1)
  | Thrown s => Thrown s
  end.

(** The probe [img] reports [outcome]: its handler applies the
    attributes and settles the promise, and the chain of [me.setImage]
    runs to its end.  When the [then] handler throws, the [catch] handler
    is run on what it threw; the [finally] handler is run in any case, and
    [Thrown] tells that the chain ends rejected. *)
Definition settle (me : Bio.t) (img : Image) (outcome : BioMedia.Outcome) (w : World)
  : completion (Bio.t * World) :=
  let el := for_element img in
  let isBg := background img in
  let w1 := on_page (BioMedia.applyAttrs el isBg) w in
  let handled :=
    match outcome with
    | BioMedia.onload =>
        match setImage_then me el isBg (Code Bio._ok) w1 with
        | Returned s => Returned s
        | Thrown (me2, w2) => setImage_catch me2 el Exception w2
        end
    | BioMedia.onerror => setImage_catch me el (Code Bio._er) w1
    end in
  match handled with
  | Returned (me3, w3) => Returned (me3, BioMedia.setImage_finally el w3)
  | Thrown (me3, w3) => Thrown (me3, BioMedia.setImage_finally el w3)
  end.

(** *** Bio.prototype: what the observer and the callers run *)

(** [me.lazyLoad] along the prototype chain. *)
Definition lazyLoad_of (c : BioProto.Class) (me : Bio.t) (el : ElId) (w : World)
  : completion (Bio.t * World) :=
  match c with
  | BioProto.OfBio => Returned (Bio.lazyLoad me el w)
  | BioProto.OfBioMedia => lazyLoad me el w
  end.

Variable c : BioProto.Class.

(** [me.intersecting]: what the callback or [me.lazyLoad] throws goes
    through, and then the element is neither counted nor unobserved. *)
Definition intersecting (me : Bio.t) (el : ElId) (w : World) : completion (Bio.t * World) :=
  match match on_intersecting hs with
        | Some f => lift (f el) w
        | None => Returned w
        end with
  | Thrown w1 => Thrown (me, w1)
  | Returned w1 =>
      let w2 := on_page (dBlazy.trigger el "bio.intersecting") w1 in
      match lazyLoad_of c me el w2 with
      | Thrown s => Thrown s
      | Returned (me3, w3) =>
          let me4 := BioProto.with_counted (Bio.counted me3 + 1) me3 in
          if _disconnected (vars w3) then Returned (me4, w3)
          else match Bio.observer me4 with
               | Some io =>
                   Returned (Bio.with_observer (Some (BioProto.io_unobserve el io)) me4, w3)
               | None => Thrown (me4, w3)
               end
      end
  end.

(** [me.load]. *)
Definition load (me : Bio.t) (elms : BioProto.Elms) (w : World) : completion (Bio.t * World) :=
  and_then
    (if BioProto.isValid me (page w) elms
     then match elms with
          | BioProto.One el => intersecting me el w
          | BioProto.Many _ => Returned (me, w)
          end
     else forEach (BioProto.members elms)
            (fun el s =>
               if BioProto.isValid (fst s) (page (snd s)) (BioProto.One el)
               then intersecting (fst s) el (snd s)
               else Returned s)
            (me, w))
    (fun s =>
       if _disconnected (vars (snd s)) then Returned s
       else Bio.disconnect (fst s) false (snd s)).

(** What [me.observing] does with one entry. *)
Definition observing_entry (entry : BioProto.Entry) (s : Bio.t * World)
  : completion (Bio.t * World) :=
  let me := fst s in
  match match on_observing hs with
        | Some f => lift (f entry) (snd s)
        | None => Returned (snd s)
        end with
  | Thrown w1 => Thrown (me, w1)
  | Returned w1 =>
      if BioProto.in_view entry
      then
        and_then
          (if negb (Bio.isLoaded me (page w1) (BioProto.target entry))
           then intersecting me (BioProto.target entry) w1
           else Returned (me, w1))
          (fun s2 => Returned (fst s2, set_bioTick (_bioTick (vars (snd s2)) - 1) (snd s2)))
      else Returned (me, w1)
  end.

(** [me.observing], the callback of the IntersectionObserver. *)
Definition observing (me : Bio.t) (entries : list BioProto.Entry) (w : World)
  : completion (Bio.t * World) :=
  if _disconnected (vars w) then Returned (me, w)
  else and_then (forEach entries observing_entry (me, w))
         (fun s => Bio.disconnect (fst s) false (snd s)).

End Loader.

(** *** Sequences of outcomes reported to an instance *)

Definition report (hs : Handlers) (r : Report) (s : Bio.t * World) : completion (Bio.t * World) :=
  match r with
  | Succeeded el status => success hs (fst s) el (Code status) (snd s)
  | Failed el status => error hs (fst s) el (Code status) (snd s)
  end.

(** One call after the other; a call that throws does not keep the next
    from being made. *)
Definition reports (hs : Handlers) (rs : list Report) (s : Bio.t * World) : Bio.t * World :=
  fold_left (fun acc r => reached (report hs r acc)) rs s.

(** *** Bio: [init], with what the platform refuses *)

(** What the platform makes of the texts [init] hands it: whether
    [querySelectorAll] can parse the selector followed by
    [":not(." + successClass + ")"], and whether the constructor of the
    observer can parse the root margin. *)
Record Platform := {
  selector_parses : DOM.Selector -> string -> bool;
  rootMargin_parses : string -> bool
}.

(** The thresholds the constructor of an IntersectionObserver accepts:
    each of them from 0 to 1. *)
Definition threshold_ok (ts : list Q) : bool :=
  forallb (fun t => Qle_bool 0 t && Qle_bool t 1) ts.

(** The private [init]: [querySelectorAll] throws a SyntaxError on a
    selector that does not parse, before anything is assigned; [new
    IntersectionObserver] throws on a root margin that does not parse
    and on a threshold outside 0..1, once [me.elms], [me.count] and
    [me.windowWidth] are assigned. *)
Definition init (pf : Platform) (me : Bio.t) (w : World) : completion (Bio.t * World) :=
  let o := Bio.options me in
  if negb (selector_parses pf (Options.selector o) (Options.successClass o))
  then Thrown (me, w)
  else
    let found :=
      DOM.querySelectorAll (page w) (Options.root o)
        (DOM.SelAnd (Options.selector o) (DOM.SelNot (DOM.SelClass (Options.successClass o)))) in
    if negb (rootMargin_parses pf (Options.rootMargin o) && threshold_ok (Options.threshold o))
    then Thrown ({| Bio.options := o; Bio.count := Z.of_nat (length found);
                    Bio.counted := Bio.counted me; Bio.erCounted := Bio.erCounted me;
                    Bio.elms := Some found; Bio.observer := Bio.observer me;
                    Bio.windowWidth := dBlazy.windowWidth (window (page w)) |}, w)
    else Bio.init me w.

(** [new Bio(options)]; [o] is the options merged over [defaults]. *)
Definition new (pf : Platform) (o : Options.t) (w : World) : completion (Bio.t * World) :=
  init pf (Bio.prototype o) (set_observed false (set_disconnected false w)).

End Exn.

(** ** The sample page with an animation *)

Module Animated.

(** The sample page, with [data-animation="zoom in"] on its first image:
    two words, which no class token can hold. *)
Definition page0 : Page :=
  {| window := window Sample.page0; tree := tree Sample.page0;
     nodes := <[1%nat := Sample.element "IMG" ["b-lazy"]
                           [("data-src", "a.jpg"); ("data-srcset", "a.jpg 1x, a2.jpg 2x");
                            ("data-animation", "zoom in")]]> (nodes Sample.page0);
     history := []; blazy := blazy Sample.page0 |}.

Definition world0 : World :=
  {| page := page0; vars := vars Sample.world0; images := [] |}.

(** The loader the orchestrator builds on it, and the world that
    leaves. *)
Definition loader : Bio.t := fst (Exn.reached (BioMedia.new Blazy.options world0)).
Definition world : World := snd (Exn.reached (BioMedia.new Blazy.options world0)).

(** The world once [me.lazyLoad] has been through the image. *)
Definition hit : World :=
  snd (Exn.reached (Exn.lazyLoad Exn.orchestrated loader 1%nat world)).

(** What the probe of the image leaves when it loads, and when it
    fails. *)
Definition loaded : Bio.t * World :=
  Exn.reached (Exn.settle Exn.orchestrated loader Fixture.probe1 BioMedia.onload hit).
Definition failed : Bio.t * World :=
  Exn.reached (Exn.settle Exn.orchestrated loader Fixture.probe1 BioMedia.onerror hit).

End Animated.

(** The sample page once [doNativeLazy] has bound its listener, the
    images 1 and 5 being the items of the orchestrator. *)
Module Waiting.

Definition page0 : Page :=
  Exn.doNativeLazy
    (DOM.set_blazy
       {| init_assigned := true; blazy_errorClass := "b-error";
          blazy_successClass := "b-loaded"; context := 0%nat; isNativeExecuted := false;
          items := [1; 5]%nat; listening := [] |} Sample.page0).

End Waiting.

(** * Properties *)

(** ** Numerals as property names *)

Module NumeralFacts.

Import JS Breakpoints.

Lemma digit_cases (c : ascii) :
  is_digit c = true ->
  In c ["0"; "1"; "2"; "3"; "4"; "5"; "6"; "7"; "8"; "9"]%char.
Proof.
  destruct c as [[] [] [] [] [] [] [] []]; intros H; vm_compute in H;
    try discriminate H; simpl; tauto.
Qed.

(** A digit is no white space, no sign, no letter, no dot. *)
Lemma digit_neq (a c : ascii) :
  is_digit c = true -> is_digit a = false -> Ascii.eqb a c = false.
Proof.
  intros Hc Ha. destruct (Ascii.eqb_spec a c) as [->|]; [congruence | reflexivity].
Qed.

Lemma digit_not_space (c : ascii) : is_digit c = true -> is_space c = false.
Proof.
  intros H. apply digit_cases in H. simpl in H.
  repeat (destruct H as [<- | H]; [reflexivity |]). destruct H.
Qed.

Lemma digit_in_10 (c : ascii) :
  is_digit c = true -> digit_in 10 c = Some (code c - 48).
Proof.
  intros H. apply digit_cases in H. simpl in H.
  repeat (destruct H as [<- | H]; [reflexivity |]). destruct H.
Qed.

(** A string of digits is read to its end. *)
Lemma read_digits_numeral (s : string) : forall acc n v,
  numeral acc s = Some v ->
  read_digits 10 acc n s = (v, (n + String.length s)%nat, EmptyString).
Proof.
  induction s as [|c t IH]; intros acc n v H; simpl in *.
  - injection H as <-. rewrite Nat.add_0_r. reflexivity.
  - destruct (is_digit c) eqn:Hc; [|discriminate].
    rewrite (digit_in_10 c Hc).
    rewrite (IH _ (S n) v).
    + do 2 f_equal. lia.
    + rewrite <- H. f_equal. lia.
Qed.

Lemma strip_cons (a c : ascii) (p t : string) :
  strip (String a p) (String c t) = if Ascii.eqb a c then strip p t else None.
Proof. reflexivity. Qed.

Lemma strip_nondigit (a : ascii) (p t : string) acc v :
  is_digit a = false -> numeral acc t = Some v -> strip (String a p) t = None.
Proof.
  intros Ha H. destruct t as [|c t']; simpl in *; [reflexivity|].
  destruct (is_digit c) eqn:Hc; [|discriminate].
  now rewrite (digit_neq a c Hc Ha).
Qed.

Lemma trim_end_numeral (s : string) : forall acc v,
  numeral acc s = Some v -> trim_end s = s.
Proof.
  induction s as [|c t IH]; intros acc v H; simpl in *; [reflexivity|].
  destruct (is_digit c) eqn:Hc; [|discriminate].
  rewrite (IH _ _ H). destruct t; [|reflexivity].
  now rewrite (digit_not_space c Hc).
Qed.

(** The shape of a key that is a width. *)
Lemma width_of_inv (k : string) (w : Z) :
  width_of k = Some w ->
  exists c t, k = String c t /\ is_digit c = true /\ numeral 0 k = Some w
              /\ (c = "0"%char -> t = EmptyString).
Proof.
  destruct k as [|c t]; [discriminate|]. unfold width_of.
  destruct (Ascii.eqb_spec c "0") as [->|Hne]; simpl.
  - destruct (String.eqb_spec t "") as [->|]; simpl; [|discriminate].
    intros H. exists "0"%char, EmptyString. auto.
  - intros H. exists c, t. repeat split; auto; [|congruence].
    simpl in H. destruct (is_digit c); [reflexivity | discriminate].
Qed.

(** [parseInt] reads a width key as its width. *)
Lemma parseInt_width (k : string) (w : Z) :
  width_of k = Some w -> parseInt k = of_Z w.
Proof.
  intros H. destruct (width_of_inv k w H) as (c & t & -> & Hc & Hn & H0).
  unfold parseInt. simpl trim_start. rewrite (digit_not_space c Hc).
  assert (Hs : forall a p, is_digit a = false -> strip (String a p) (String c t) = None).
  { intros a p Ha. eapply strip_nondigit; eauto. }
  rewrite !Hs by reflexivity.
  assert (Hx : strip_any ["0x"; "0X"] (String c t) = None).
  { unfold strip_any. rewrite !strip_cons.
    destruct (Ascii.eqb_spec "0" c) as [<-|]; [|reflexivity].
    rewrite (H0 eq_refl). reflexivity. }
  rewrite Hx. rewrite (read_digits_numeral _ 0 0%nat w Hn).
  simpl. unfold of_Z. now rewrite Z.mul_1_l.
Qed.

(** So does the conversion to Number. *)
Lemma StringToNumber_width (k : string) (w : Z) :
  width_of k = Some w -> StringToNumber k = of_Z w.
Proof.
  intros H. destruct (width_of_inv k w H) as (c & t & -> & Hc & Hn & H0).
  unfold StringToNumber. simpl trim_start. rewrite (digit_not_space c Hc).
  rewrite (trim_end_numeral _ 0 w Hn).
  assert (Hs : forall a p, is_digit a = false -> strip (String a p) (String c t) = None).
  { intros a p Ha. eapply strip_nondigit; eauto. }
  assert (Hp : forall a b, is_digit a = false -> is_digit b = false ->
                 strip_any [String "0" (String a ""); String "0" (String b "")] (String c t) = None).
  { intros a b Ha Hb. unfold strip_any. rewrite !strip_cons.
    destruct (Ascii.eqb_spec "0" c) as [<-|]; [|reflexivity].
    rewrite (H0 eq_refl). reflexivity. }
  rewrite !Hp by reflexivity. rewrite !Hs by reflexivity.
  unfold unsigned_decimal.
  assert (Hi : String.eqb (String c t) "Infinity" = false).
  { destruct (String.eqb_spec (String c t) "Infinity") as [E|]; [|reflexivity].
    injection E as -> _. vm_compute in Hc. discriminate Hc. }
  rewrite Hi. rewrite (read_digits_numeral _ 0 0%nat w Hn).
  simpl. unfold scale10, of_Z. simpl. now rewrite Z.mul_1_r.
Qed.

End NumeralFacts.

(** ** Doubles *)

Module DoubleFacts.

Import JS.

(** Equal rationals have the same double. *)
Lemma double_comp (q q' : Q) : (q == q')%Q -> double q = double q'.
Proof. intros H. unfold double. now rewrite (Qred_complete q q' H). Qed.

Lemma Qred_inject_Z (z : Z) : Qred (inject_Z z) = inject_Z z.
Proof. apply Qred_identity. simpl. apply Z.gcd_1_r. Qed.

Lemma nearest_even_Z (q : Q) (n : Z) : (q == inject_Z n)%Q -> nearest_even q = n.
Proof.
  intros H. unfold nearest_even.
  assert (Hf : Qfloor q = n) by (rewrite H; apply Qfloor_Z).
  rewrite Hf.
  assert (Hc : Qcompare (q - inject_Z n)%Q (1 # 2) = Lt).
  { rewrite H. apply Qlt_alt.
    assert (E : (inject_Z n - inject_Z n == 0)%Q) by ring.
    rewrite E. reflexivity. }
  now rewrite Hc.
Qed.

Lemma pow2_nonneg (e : Z) : 0 <= e -> pow2 e = inject_Z (2 ^ e).
Proof. intros H. unfold pow2. apply Z.leb_le in H. now rewrite H. Qed.

Lemma ilog2_inject_Z (w : Z) : 0 < w -> ilog2 (inject_Z w) = Z.log2 w.
Proof.
  intros H. unfold ilog2. simpl Qnum. simpl Qden.
  change (Z.log2 1) with 0. rewrite Z.sub_0_r.
  rewrite pow2_nonneg by apply Z.log2_nonneg.
  assert (Hle : Qle_bool (inject_Z (2 ^ Z.log2 w)) (inject_Z w) = true).
  { apply Qle_bool_iff. rewrite <- Zle_Qle. apply Z.log2_spec. exact H. }
  now rewrite Hle.
Qed.

(** A whole number of fewer than 54 bits is a double. *)
Lemma round_positive_Z (w : Z) :
  0 < w < 2 ^ 53 -> (round_positive (inject_Z w) == inject_Z w)%Q.
Proof.
  intros [H0 H1]. unfold round_positive. rewrite (ilog2_inject_Z w H0).
  assert (Ha : 0 <= Z.log2 w < 53).
  { split; [apply Z.log2_nonneg|]. apply Z.log2_lt_pow2; [exact H0 | exact H1]. }
  set (k := 52 - Z.log2 w).
  assert (Hk : 0 <= k) by (subst k; lia).
  replace (Z.max (Z.log2 w - 52) (-1074)) with (- k) by (subst k; lia).
  assert (Hp : (pow2 (- k) * inject_Z (2 ^ k) == 1)%Q).
  { unfold pow2. destruct (0 <=? - k) eqn:E.
    - apply Z.leb_le in E. assert (k = 0) as -> by lia. reflexivity.
    - rewrite Z.opp_involutive.
      assert (0 < 2 ^ k) by (apply Z.pow_pos_nonneg; lia).
      unfold Qeq, Qmult, inject_Z. cbn [Qnum Qden]. rewrite Pos.mul_1_r, Z.mul_1_l, Z.mul_1_r.
      rewrite Z2Pos.id by assumption. lia. }
  assert (Hn : ~ (pow2 (- k) == 0)%Q).
  { intros E. rewrite E in Hp. discriminate Hp. }
  assert (Hs : (inject_Z w / pow2 (- k) == inject_Z (w * 2 ^ k))%Q).
  { assert (Hw : (inject_Z w == inject_Z (w * 2 ^ k) * pow2 (- k))%Q).
    { rewrite inject_Z_mult, <- Qmult_assoc, (Qmult_comm (inject_Z (2 ^ k))), Hp.
      symmetry. apply Qmult_1_r. }
    rewrite Hw at 1. apply Qdiv_mult_l. exact Hn. }
  rewrite (nearest_even_Z _ _ Hs). rewrite inject_Z_mult, <- Qmult_assoc.
  rewrite (Qmult_comm (inject_Z (2 ^ k))), Hp. apply Qmult_1_r.
Qed.

(** Every whole number is left as it is. *)
Lemma double_inject_Z (w : Z) : (double (inject_Z w) == inject_Z w)%Q.
Proof.
  unfold double. rewrite Qred_inject_Z.
  destruct (Qle_bool (pow2 53) (Qabs (inject_Z w))) eqn:E; [reflexivity|].
  assert (Hlt : Z.abs w < 2 ^ 53).
  { apply Z.nle_gt. intros H.
    assert (Hb : Qle_bool (pow2 53) (Qabs (inject_Z w)) = true).
    { apply Qle_bool_iff. change (pow2 53) with (inject_Z (2 ^ 53)).
      change (Qabs (inject_Z w)) with (inject_Z (Z.abs w)). now rewrite <- Zle_Qle. }
    congruence. }
  destruct (Qcompare (inject_Z w) 0) eqn:C.
  - apply Qeq_alt in C. now rewrite C.
  - apply Qlt_alt in C. change 0%Q with (inject_Z 0) in C. rewrite <- Zlt_Qlt in C.
    change (- inject_Z w)%Q with (inject_Z (- w)).
    rewrite round_positive_Z by lia. rewrite inject_Z_opp. apply Qopp_involutive.
  - apply Qgt_alt in C. change 0%Q with (inject_Z 0) in C. rewrite <- Zlt_Qlt in C.
    apply round_positive_Z. lia.
Qed.

End DoubleFacts.

(** ** dBlazy.activeWidth *)

Module ActiveWidthFacts.

Import JS Breakpoints.

(** The width and the ratio the code reads are those of the window. *)
Lemma windowWidth_width (win : Window) : dBlazy.windowWidth win = width win.
Proof.
  unfold dBlazy.windowWidth, dBlazy.or_else, width. cbn [List.find].
  destruct (innerWidth win =? 0); [|reflexivity].
  destruct (documentElement_clientWidth win =? 0); [|reflexivity].
  destruct (body_clientWidth win =? 0); reflexivity.
Qed.

Lemma pixelRatio_ratio (win : Window) : dBlazy.pixelRatio win = ratio win.
Proof. reflexivity. Qed.

(** The product [pr] of [dBlazy.activeWidth] is the effective width. *)
Lemma product_effectiveWidth (win : Window) :
  JS.mul (of_Z (dBlazy.windowWidth win)) (Num (dBlazy.pixelRatio win))
  = Num (effectiveWidth win).
Proof. unfold effectiveWidth. now rewrite windowWidth_width, pixelRatio_ratio. Qed.

(** With a ratio of 1 the effective width is the width of the window. *)
Lemma effectiveWidth_ratio_1 (win : Window) :
  (dBlazy.pixelRatio win == 1)%Q ->
  (effectiveWidth win == inject_Z (dBlazy.windowWidth win))%Q.
Proof.
  intros Hr. unfold effectiveWidth. rewrite <- windowWidth_width, <- pixelRatio_ratio.
  rewrite (DoubleFacts.double_comp _ (inject_Z (dBlazy.windowWidth win)))
    by (rewrite Hr; apply Qmult_1_r).
  apply DoubleFacts.double_inject_Z.
Qed.

Lemma ascending_cons (a : Z) (l : list Z) :
  ascending (a :: l) = true -> Forall (Z.lt a) l /\ ascending l = true.
Proof.
  revert a. induction l as [|b l IH]; intros a H.
  - split; [constructor | reflexivity].
  - simpl in H. apply andb_prop in H as [Hab Hl].
    apply Z.ltb_lt in Hab. split; [|exact Hl].
    constructor; [exact Hab|].
    destruct (IH b Hl) as [Hb _].
    eapply Forall_impl; [exact Hb|]. intros x Hx. simpl in *. lia.
Qed.

Lemma widths_cons (k : string) (v : value) (d : object) (ws : list Z) :
  widths ((k, v) :: d) = Some ws ->
  exists w ws', ws = w :: ws' /\ width_of k = Some w /\ widths d = Some ws'.
Proof.
  simpl. destruct (width_of k) as [w|]; [|discriminate].
  destruct (widths d) as [ws'|]; [|discriminate].
  intros [= <-]. eauto.
Qed.

Lemma widths_In (d : object) : forall ws k v,
  widths d = Some ws -> In (k, v) d -> exists w, width_of k = Some w /\ In w ws.
Proof.
  induction d as [|[k0 v0] d IH]; intros ws k v Hw Hin; [destruct Hin|].
  apply widths_cons in Hw as (w0 & ws' & -> & Hk0 & Hw').
  destruct Hin as [[= <- <-] | Hin].
  - exists w0. split; [exact Hk0 | now left].
  - destruct (IH _ _ _ Hw' Hin) as (w & Hk & Hi). exists w. split; [exact Hk | now right].
Qed.

(** In a dataset a key leads to the value listed with it. *)
Lemma get_entry (d : object) : forall ws k v,
  widths d = Some ws -> ascending ws = true -> In (k, v) d -> get d k = v.
Proof.
  induction d as [|[k0 v0] d IH]; intros ws k v Hw Ha Hin; [destruct Hin|].
  apply widths_cons in Hw as (w0 & ws' & -> & Hk0 & Hw').
  apply ascending_cons in Ha as [Hlt Ha'].
  simpl. destruct Hin as [[= <- <-] | Hin].
  - now rewrite String.eqb_refl.
  - destruct (String.eqb_spec k0 k) as [->|_]; [|eauto].
    destruct (widths_In _ _ _ _ Hw' Hin) as (w & Hk & Hi).
    rewrite Hk0 in Hk. injection Hk as <-.
    rewrite List.Forall_forall in Hlt. apply Hlt in Hi. simpl in Hi. lia.
Qed.

Section Desktop_first.

Variable ww : Q.

Lemma qualifies_width (k : string) (w : Z) :
  width_of k = Some w -> qualifies ww k = Qle_bool ww (inject_Z w).
Proof. intros H. unfold qualifies. now rewrite (NumeralFacts.parseInt_width k w H). Qed.

(** When no key reaches the width, none passes the filter. *)
Lemma filter_none (d : object) : forall ws,
  widths d = Some ws ->
  (forall k w v, entry d k w v -> ~ (ww <= inject_Z w)%Q) ->
  List.filter (qualifies ww) (Object_keys d) = [].
Proof.
  induction d as [|[k0 v0] d IH]; intros ws Hw Hno; [reflexivity|].
  apply widths_cons in Hw as (w0 & ws' & -> & Hk0 & Hw').
  simpl. rewrite (qualifies_width _ _ Hk0).
  destruct (Qle_bool ww (inject_Z w0)) eqn:E.
  - apply Qle_bool_iff in E. exfalso. apply (Hno k0 w0 v0); [|exact E].
    split; [now left | exact Hk0].
  - apply (IH ws' Hw'). intros k w v [Hin Hk]. apply (Hno k w v).
    split; [now right | exact Hk].
Qed.

(** The smallest key that reaches the width is the first to pass. *)
Lemma filter_first (d : object) : forall ws k w v,
  widths d = Some ws -> ascending ws = true ->
  entry d k w v -> (ww <= inject_Z w)%Q ->
  (forall k' w' v', entry d k' w' v' -> (ww <= inject_Z w')%Q -> w <= w') ->
  exists rest, List.filter (qualifies ww) (Object_keys d) = k :: rest.
Proof.
  induction d as [|[k0 v0] d IH]; intros ws k w v Hw Ha [Hin Hk] Hq Hmin;
    [destruct Hin|].
  apply widths_cons in Hw as (w0 & ws' & -> & Hk0 & Hw').
  apply ascending_cons in Ha as [Hlt Ha'].
  simpl. rewrite (qualifies_width _ _ Hk0).
  destruct Hin as [[= <- <-] | Hin].
  - rewrite Hk0 in Hk. injection Hk as <-.
    apply Qle_bool_iff in Hq. rewrite Hq. eauto.
  - destruct (Qle_bool ww (inject_Z w0)) eqn:E.
    + apply Qle_bool_iff in E. exfalso.
      assert (w <= w0) by (apply (Hmin k0 w0 v0); [split; [now left | exact Hk0] | exact E]).
      destruct (widths_In _ _ _ _ Hw' Hin) as (w' & Hk' & Hi).
      rewrite Hk in Hk'. injection Hk' as <-.
      rewrite List.Forall_forall in Hlt. apply Hlt in Hi. simpl in Hi. lia.
    + apply (IH ws' k w v Hw' Ha'); [split; assumption | exact Hq |].
      intros k' w' v' [Hin' Hk'] Hq'. apply (Hmin k' w' v'); [|exact Hq'].
      split; [now right | exact Hk'].
Qed.

End Desktop_first.

Lemma last_keys (d : object) :
  last (Object_keys d) = option_map fst (last d).
Proof.
  unfold Object_keys. induction d as [|kv d IH]; [reflexivity|].
  destruct d as [|kv' d']; [reflexivity|]. exact IH.
Qed.

Lemma last_In {A : Type} (l : list A) (x : A) : last l = Some x -> In x l.
Proof.
  induction l as [|y l IH]; [discriminate|].
  destruct l as [|z l']; [intros [= ->]; now left|].
  intros H. right. exact (IH H).
Qed.

Lemma keep_defined (v alt : value) :
  v <> Undefined -> match v with Undefined => alt | _ => v end = v.
Proof. destruct v; congruence. Qed.

(** The value of the smallest key that reaches the effective width. *)
Lemma pick_smallest (win : Window) (D : object) (k : string) (w : Z) (v : value) :
  dataset D ->
  entry D k w v -> (effectiveWidth win <= inject_Z w)%Q ->
  (forall k' w' v', entry D k' w' v' -> (effectiveWidth win <= inject_Z w')%Q -> w <= w') ->
  dBlazy.activeWidth win D false = v.
Proof.
  intros [(ws & Hw & Ha) Hdef] He Hq Hmin.
  unfold dBlazy.activeWidth. rewrite product_effectiveWidth.
  fold (qualifies (effectiveWidth win)).
  destruct (filter_first (effectiveWidth win) D ws k w v Hw Ha He Hq Hmin) as [rest ->].
  simpl. destruct He as [Hin _].
  rewrite (get_entry D ws k v Hw Ha Hin).
  apply keep_defined.
  rewrite List.Forall_forall in Hdef. exact (Hdef _ Hin).
Qed.

(** What is returned when no key reaches the effective width. *)
Lemma fall_back (win : Window) (D : object) :
  dataset D ->
  (forall k w v, entry D k w v -> ~ (effectiveWidth win <= inject_Z w)%Q) ->
  dBlazy.activeWidth win D false =
    match last D with
    | Some (k, v) => v
    | None => Undefined
    end.
Proof.
  intros [(ws & Hw & Ha) Hdef] Hno.
  unfold dBlazy.activeWidth. rewrite product_effectiveWidth.
  fold (qualifies (effectiveWidth win)).
  rewrite (filter_none (effectiveWidth win) D ws Hw Hno). simpl.
  rewrite last_keys.
  destruct (last D) as [[k v]|] eqn:Hl; simpl.
  - pose proof (last_In _ _ Hl) as Hin.
    destruct (widths_In _ _ _ _ Hw Hin) as (w & Hk & _).
    rewrite (NumeralFacts.StringToNumber_width k w Hk). simpl.
    assert (Hq : Qle_bool (inject_Z w) (effectiveWidth win) = true).
    { apply Qle_bool_iff, Qlt_le_weak, Qnot_le_lt. apply (Hno k w v). split; assumption. }
    rewrite Hq. simpl. exact (get_entry D ws k v Hw Ha Hin).
  - destruct D as [|kv D']; [reflexivity|]. exfalso.
    clear - Hl. revert kv Hl. induction D' as [|x D' IH]; intros kv Hl;
      [discriminate | exact (IH x Hl)].
Qed.

End ActiveWidthFacts.

(** C1.  When it is not mobile first, [dBlazy.activeWidth] returns, for a
    breakpoint dataset [D] (keys that are widths, in ascending order), the
    value of the smallest key that is at least the effective width (window
    width times pixel ratio).  When no key is, it returns the value of the
    last (largest) key if the effective width is at least that key, and
    otherwise the value of the first key ([undefined] when there is
    none). *)
Theorem activeWidth_desktop_first (win : Window) (D : JS.object) :
  Breakpoints.dataset D ->
  let ww := Breakpoints.effectiveWidth win in
  let result := dBlazy.activeWidth win D false in
  (forall k w v,
      Breakpoints.entry D k w v -> (ww <= inject_Z w)%Q ->
      (forall k' w' v', Breakpoints.entry D k' w' v' -> (ww <= inject_Z w')%Q -> w <= w') ->
      result = v)
  /\ ((forall k w v, Breakpoints.entry D k w v -> ~ (ww <= inject_Z w)%Q) ->
      (forall k w v,
          last D = Some (k, v) -> Breakpoints.width_of k = Some w ->
          (inject_Z w <= ww)%Q -> result = v)
      /\ ((forall k w v,
              last D = Some (k, v) -> Breakpoints.width_of k = Some w ->
              ~ (inject_Z w <= ww)%Q) ->
          result = match head D with
                   | Some (_, v) => v
                   | None => JS.Undefined
                   end)).
Proof.
  intros Hd ww result. subst ww result. split.
  - intros k w v He Hq Hmin. exact (ActiveWidthFacts.pick_smallest win D k w v Hd He Hq Hmin).
  - intros Hno. rewrite (ActiveWidthFacts.fall_back win D Hd Hno). split.
    + intros k w v -> _ _. reflexivity.
    + intros Hnl. destruct (last D) as [[k v]|] eqn:Hl.
      * exfalso. destruct Hd as [(ws & Hw & _) _].
        pose proof (ActiveWidthFacts.last_In _ _ Hl) as Hin.
        destruct (ActiveWidthFacts.widths_In _ _ _ _ Hw Hin) as (w & Hk & _).
        apply (Hnl k w v eq_refl Hk). apply Qlt_le_weak, Qnot_le_lt.
        apply (Hno k w v). split; assumption.
      * destruct D as [|kv D']; [reflexivity|]. exfalso.
        clear - Hl. revert kv Hl. induction D' as [|x D' IH]; intros kv Hl;
          [discriminate | exact (IH x Hl)].
Qed.

(** A dataset at hand: [Sample.abc] is one. *)
Lemma abc_dataset : Breakpoints.dataset Sample.abc.
Proof.
  split.
  - exists [0; 768; 1200]. split; reflexivity.
  - repeat constructor; discriminate.
Qed.

Lemma activeWidth_desktop_first_witness :
  Breakpoints.dataset Sample.abc
  /\ dBlazy.activeWidth Sample.win900 Sample.abc false = JS.Str "c.jpg".
Proof.
  split; [exact abc_dataset|].
  apply (proj1 (activeWidth_desktop_first Sample.win900 Sample.abc abc_dataset)
           "1200" 1200 (JS.Str "c.jpg")).
  - split; [simpl; tauto | reflexivity].
  - vm_compute. discriminate.
  - intros k' w' v' [Hin Hk] Hq. simpl in Hin.
    destruct Hin as [[= <- <-]|[[= <- <-]|[[= <- <-]|[]]]].
    all: vm_compute in Hk; injection Hk as <-; vm_compute in Hq.
    all: try (exfalso; apply Hq; reflexivity).
    lia.
Defined.

(** C2, as the code has it.  For the dataset
    [{0: "a.jpg", 768: "b.jpg", 1200: "c.jpg"}], not mobile first, a window
    900 wide and a pixel ratio of 1, [dBlazy.activeWidth] returns
    ["c.jpg"]: 1200 is the smallest key that is at least 900. *)
Theorem activeWidth_900_desktop_first (win : Window) :
  dBlazy.windowWidth win = 900 -> (dBlazy.pixelRatio win == 1)%Q ->
  dBlazy.activeWidth win Sample.abc false = JS.Str "c.jpg".
Proof.
  intros Hw Hr.
  assert (He : (Breakpoints.effectiveWidth win == 900)%Q).
  { rewrite (ActiveWidthFacts.effectiveWidth_ratio_1 win Hr), Hw. reflexivity. }
  apply (ActiveWidthFacts.pick_smallest win Sample.abc "1200" 1200 (JS.Str "c.jpg")).
  - exact abc_dataset.
  - split; [simpl; tauto | reflexivity].
  - rewrite He. vm_compute. discriminate.
  - intros k' w' v' [Hin Hk] Hq. rewrite He in Hq. simpl in Hin.
    destruct Hin as [[= <- <-]|[[= <- <-]|[[= <- <-]|[]]]].
    all: vm_compute in Hk; injection Hk as <-; vm_compute in Hq.
    all: try (exfalso; apply Hq; reflexivity).
    lia.
Qed.

Lemma activeWidth_900_desktop_first_witness :
  dBlazy.activeWidth Sample.win900 Sample.abc false = JS.Str "c.jpg".
Proof.
  apply (activeWidth_900_desktop_first Sample.win900); reflexivity.
Defined.

(** C2, as the specification has it, fails: the result is not ["b.jpg"]. *)
Lemma activeWidth_900_is_not_b :
  dBlazy.activeWidth Sample.win900 Sample.abc false <> JS.Str "b.jpg".
Proof. vm_compute. discriminate. Qed.

(** ** The element store *)

Module DOMFacts.

Import DOM.

Lemma node_mutate_eq (el : ElId) f s p : node (mutate el f s p) el = f (node p el).
Proof. unfold node, mutate. simpl. now rewrite lookup_insert_eq. Qed.

Lemma node_mutate_ne (el el' : ElId) f s p :
  el <> el' -> node (mutate el f s p) el' = node p el'.
Proof. intros H. unfold node, mutate. simpl. now rewrite lookup_insert_ne. Qed.

Lemma node_record (s : Step) p el : node (record s p) el = node p el.
Proof. reflexivity. Qed.

(** A change that leaves a field of every element alone leaves it alone
    in the store. *)
Lemma mutate_frame {A : Type} (field : Element -> A) (el el' : ElId) f s p :
  (forall e, field (f e) = field e) ->
  field (node (mutate el f s p) el') = field (node p el').
Proof.
  intros H. destruct (decide (el = el')) as [<-|Hne].
  - now rewrite node_mutate_eq.
  - now rewrite node_mutate_ne.
Qed.

Lemma history_mutate (el : ElId) f s p : history (mutate el f s p) = history p ++ [s].
Proof. reflexivity. Qed.

(** Closes the goals that say a change leaves a field alone. *)
Ltac frame :=
  apply mutate_frame; intros e; try destruct (reflects_src e); reflexivity.

(** *** Classes *)

Lemma ordered_set_from (l : list string) : forall (acc : list string) (x : string),
  x ∈ fold_left (fun acc t => if bool_decide (t ∈ acc) then acc else acc ++ [t]) l acc
  <-> x ∈ acc \/ x ∈ l.
Proof.
  induction l as [|t l IH]; intros acc x; simpl.
  - rewrite elem_of_nil. tauto.
  - rewrite IH. rewrite elem_of_cons. case_bool_decide as Ht.
    + split; [tauto|]. intros [?|[->|?]]; tauto.
    + rewrite elem_of_app, list_elem_of_singleton. tauto.
Qed.

Lemma elem_of_ordered_set (l : list string) (x : string) : x ∈ ordered_set l <-> x ∈ l.
Proof. unfold ordered_set. rewrite ordered_set_from, elem_of_nil. tauto. Qed.

Lemma contains_classList_add (el : ElId) (t : string) p :
  contains (classList_add el t p) el t = true.
Proof.
  unfold contains, classList_add. rewrite node_mutate_eq. simpl.
  apply bool_decide_eq_true. rewrite elem_of_ordered_set, elem_of_app, list_elem_of_singleton.
  now right.
Qed.

Lemma contains_classList_add_keep (el el' : ElId) (t t' : string) p :
  contains p el' t' = true -> contains (classList_add el t p) el' t' = true.
Proof.
  unfold contains, classList_add. intros H. apply bool_decide_eq_true in H.
  apply bool_decide_eq_true. destruct (decide (el = el')) as [<-|Hne].
  - rewrite node_mutate_eq. simpl. rewrite elem_of_ordered_set, elem_of_app. now left.
  - now rewrite node_mutate_ne.
Qed.

(** *** What the changes leave alone *)

Lemma attributes_classList_add el t p el' :
  attributes (node (classList_add el t p) el') = attributes (node p el').
Proof. frame. Qed.

Lemma attributes_set_style el k v p el' :
  attributes (node (set_style el k v p) el') = attributes (node p el').
Proof. frame. Qed.

Lemma classList_setAttribute el n v p el' :
  classList (node (setAttribute el n v p) el') = classList (node p el').
Proof. frame. Qed.

Lemma classList_removeAttribute el n p el' :
  classList (node (removeAttribute el n p) el') = classList (node p el').
Proof. frame. Qed.

Lemma classList_set_src el v p el' :
  classList (node (set_src el v p) el') = classList (node p el').
Proof. frame. Qed.

Lemma classList_set_style el k v p el' :
  classList (node (set_style el k v p) el') = classList (node p el').
Proof. frame. Qed.

Lemma style_setAttribute el n v p el' :
  style (node (setAttribute el n v p) el') = style (node p el').
Proof. frame. Qed.

Lemma style_removeAttribute el n p el' :
  style (node (removeAttribute el n p) el') = style (node p el').
Proof. frame. Qed.

Lemma style_classList_add el t p el' :
  style (node (classList_add el t p) el') = style (node p el').
Proof. frame. Qed.

Lemma nodeName_setAttribute el n v p el' :
  nodeName (node (setAttribute el n v p) el') = nodeName (node p el').
Proof. frame. Qed.

(** *** Attributes *)

Lemma getAttribute_setAttribute_eq el n v p :
  getAttribute (setAttribute el n v p) el n = Some v.
Proof.
  unfold getAttribute, setAttribute. rewrite node_mutate_eq. simpl.
  apply lookup_insert_eq.
Qed.

Lemma getAttribute_setAttribute_ne el n v p el' n' :
  n <> n' -> getAttribute (setAttribute el n v p) el' n' = getAttribute p el' n'.
Proof.
  intros H. unfold getAttribute, setAttribute. destruct (decide (el = el')) as [<-|Hne].
  - rewrite node_mutate_eq. simpl. now apply lookup_insert_ne.
  - now rewrite node_mutate_ne.
Qed.

Lemma getAttribute_removeAttribute_eq el n p :
  getAttribute (removeAttribute el n p) el n = None.
Proof.
  unfold getAttribute, removeAttribute. rewrite node_mutate_eq. simpl.
  apply lookup_delete_eq.
Qed.

Lemma getAttribute_removeAttribute_ne el n p el' n' :
  n <> n' -> getAttribute (removeAttribute el n p) el' n' = getAttribute p el' n'.
Proof.
  intros H. unfold getAttribute, removeAttribute. destruct (decide (el = el')) as [<-|Hne].
  - rewrite node_mutate_eq. simpl. now apply lookup_delete_ne.
  - now rewrite node_mutate_ne.
Qed.

Lemma getAttribute_set_src_eq el v p :
  reflects_src (node p el) = true -> getAttribute (set_src el v p) el "src" = Some v.
Proof.
  intros H. unfold getAttribute, set_src. rewrite node_mutate_eq, H. simpl.
  apply lookup_insert_eq.
Qed.

Lemma getAttribute_set_src_ne el v p el' n' :
  n' <> "src" -> getAttribute (set_src el v p) el' n' = getAttribute p el' n'.
Proof.
  intros H. unfold getAttribute, set_src. destruct (decide (el = el')) as [<-|Hne].
  - rewrite node_mutate_eq. destruct (reflects_src (node p el)); simpl; [|reflexivity].
    apply lookup_insert_ne. congruence.
  - now rewrite node_mutate_ne.
Qed.

Lemma getAttribute_classList_add el t p el' n :
  getAttribute (classList_add el t p) el' n = getAttribute p el' n.
Proof. unfold getAttribute. now rewrite attributes_classList_add. Qed.

Lemma getAttribute_set_style el k v p el' n :
  getAttribute (set_style el k v p) el' n = getAttribute p el' n.
Proof. unfold getAttribute. now rewrite attributes_set_style. Qed.

Lemma contains_setAttribute el n v p el' t :
  contains (setAttribute el n v p) el' t = contains p el' t.
Proof. unfold contains. now rewrite classList_setAttribute. Qed.

Lemma contains_removeAttribute el n p el' t :
  contains (removeAttribute el n p) el' t = contains p el' t.
Proof. unfold contains. now rewrite classList_removeAttribute. Qed.

Lemma contains_set_src el v p el' t :
  contains (set_src el v p) el' t = contains p el' t.
Proof. unfold contains. now rewrite classList_set_src. Qed.

Lemma contains_set_style el k v p el' t :
  contains (set_style el k v p) el' t = contains p el' t.
Proof. unfold contains. now rewrite classList_set_style. Qed.

Lemma reflects_src_setAttribute el n v p el' :
  reflects_src (node (setAttribute el n v p) el') = reflects_src (node p el').
Proof. unfold reflects_src. now rewrite nodeName_setAttribute. Qed.

Lemma hasAttribute_getAttribute p el n :
  hasAttribute p el n = bool_decide (is_Some (getAttribute p el n)).
Proof. reflexivity. Qed.

Lemma hasAttribute_true p el n v : getAttribute p el n = Some v -> hasAttribute p el n = true.
Proof. unfold hasAttribute, getAttribute. intros ->. now apply bool_decide_eq_true. Qed.

Lemma hasAttribute_false p el n : getAttribute p el n = None -> hasAttribute p el n = false.
Proof.
  unfold hasAttribute, getAttribute. intros ->. apply bool_decide_eq_false.
  intros [x Hx]. discriminate Hx.
Qed.

Lemma style_set_style_eq el k v p : style (node (set_style el k v p) el) !! k = Some v.
Proof. unfold set_style. rewrite node_mutate_eq. simpl. apply lookup_insert_eq. Qed.

End DOMFacts.

(** ** Bio *)

Module BioFacts.

Lemma loaded_images me el status w : images (snd (Bio.loaded me el status w)) = images w.
Proof.
  unfold Bio.loaded, Bio.success, Bio.error.
  destruct (status =? Bio._ok); simpl.
  - now destruct (Options.success (Bio.options me)).
  - now destruct (Options.error (Bio.options me)).
Qed.

(** The constructor returns, with both flags of the module set anew. *)
Lemma new_returns (o : Options.t) (w : World) :
  exists me w',
    Bio.new o w = Returned (me, w')
    /\ _disconnected (vars w') = false /\ _observed (vars w') = true
    /\ Bio.erCounted me = 0.
Proof.
  unfold Bio.new, Bio.init. simpl. unfold Bio.observe. simpl.
  match goal with
  | |- context [List.filter ?f ?l] => destruct (List.filter f l) as [|x pending]
  end; simpl; eauto 10.
Qed.

(** Once [destroy] has let the observer go, a forced [disconnect] throws:
    [me.observer] is [null]. *)
Lemma disconnect_after_destroy me force w me1 w1 :
  Bio.destroy me force w = Returned (me1, w1) ->
  Bio.disconnect me1 true w1 = Thrown (me1, w1).
Proof.
  unfold Bio.destroy. destruct (Bio.disconnect me force w) as [[me0 w0]|]; [|discriminate].
  intros [= <- <-]. unfold Bio.disconnect. simpl.
  now rewrite andb_false_r, orb_true_r.
Qed.

End BioFacts.

(** C4.  While [erCounted] is above zero, [disconnect()] without [force]
    changes nothing: the observer keeps its targets, and [count], [elms]
    and the disconnected flag stay as they are.  [disconnect(true)], on an
    instance that holds its observer, lets go of all the observer's
    targets, sets [count] to zero and sets the disconnected flag, whatever
    [erCounted] is. *)
Theorem disconnect_guard (me : Bio.t) (w : World) :
  (0 < Bio.erCounted me -> Bio.disconnect me false w = Returned (me, w))
  /\ (forall io, Bio.observer me = Some io ->
        exists me' w',
          Bio.disconnect me true w = Returned (me', w')
          /\ Bio.observer me' = Some {| targets := [] |}
          /\ Bio.count me' = 0
          /\ Bio.elms me' = None
          /\ Bio.disconnected me' w' = true
          /\ Bio.erCounted me' = Bio.erCounted me).
Proof.
  split.
  - intros H. unfold Bio.disconnect. apply Z.ltb_lt in H. now rewrite H.
  - intros io Hio. unfold Bio.disconnect. rewrite Hio.
    rewrite andb_false_r, orb_true_r. simpl. eauto 10.
Qed.

Lemma disconnect_guard_witness :
  Bio.disconnect Fixture.troubled false Sample.world0
    = Returned (Fixture.troubled, Sample.world0)
  /\ exists me' w',
       Bio.disconnect Fixture.troubled true Sample.world0 = Returned (me', w')
       /\ Bio.observer me' = Some {| targets := [] |}
       /\ Bio.count me' = 0
       /\ Bio.elms me' = None
       /\ Bio.disconnected me' w' = true
       /\ Bio.erCounted me' = 1.
Proof.
  destruct (disconnect_guard Fixture.troubled Sample.world0) as [H1 H2]. split.
  - apply H1. reflexivity.
  - exact (H2 _ eq_refl).
Defined.

(** C9.  The disconnected flag (like the observed flag) belongs to the
    module, not to an instance: once [disconnect(true)] has returned on one
    instance, [disconnected()] is true on every instance, and building a
    new instance makes it false again for all of them. *)
Theorem disconnected_is_shared (a b : Bio.t) (w : World) (a' : Bio.t) (w' : World) :
  Bio.disconnect a true w = Returned (a', w') ->
  Bio.disconnected a' w' = true
  /\ Bio.disconnected b w' = true
  /\ forall o, exists c w'',
       Bio.new o w' = Returned (c, w'')
       /\ Bio.disconnected a' w'' = false
       /\ Bio.disconnected b w'' = false
       /\ Bio.disconnected c w'' = false
       /\ _observed (vars w'') = true.
Proof.
  intros H. unfold Bio.disconnect in H. rewrite andb_false_r, orb_true_r in H.
  destruct (Bio.observer a) as [io|]; [|discriminate H].
  injection H as <- <-. repeat split.
  intros o. destruct (BioFacts.new_returns o (set_disconnected true w))
    as (c & w'' & Hn & Hd & Ho & _).
  exists c, w''. unfold Bio.disconnected. auto.
Qed.

Lemma disconnected_is_shared_witness :
  exists a' w',
    Bio.disconnect Fixture.troubled true Sample.world0 = Returned (a', w')
    /\ Bio.disconnected Fixture.other w' = true
    /\ exists c w'',
         Bio.new Bio.defaults w' = Returned (c, w'')
         /\ Bio.disconnected a' w'' = false
         /\ Bio.disconnected Fixture.other w'' = false.
Proof.
  eexists _, _. split; [reflexivity|].
  destruct (disconnected_is_shared Fixture.troubled Fixture.other Sample.world0 _ _ eq_refl)
    as (_ & Hb & Hnew).
  split; [exact Hb|].
  destruct (Hnew Bio.defaults) as (c & w'' & Hn & Ha & Hb' & _).
  exists c, w''. auto.
Defined.

(** ** BioMedia *)

Module BioMediaFacts.

Import DOM DOMFacts.


(** The probe the cascade makes is for the element it was run on, holds
    the sources read from its data attributes, and is for a background
    block or else for an [img]; the page is not touched. *)
Lemma branch_probe me el w img :
  images (snd (BioMedia.lazyLoad_branch me el w)) = images w ++ [img] ->
  for_element img = el
  /\ image_src img = getAttribute (page w) el "data-src"
  /\ image_srcset img = getAttribute (page w) el "data-srcset"
  /\ well_formed_probe (page w) img
  /\ page (snd (BioMedia.lazyLoad_branch me el w)) = page w.
Proof.
  assert (Hno : images w = images w ++ [img] -> False).
  { intros H. apply (f_equal length) in H. rewrite length_app in H. simpl in H. lia. }
  unfold BioMedia.lazyLoad_branch.
  destruct (dBlazy.equal (page w) (parentNode (page w) el) "picture").
  { rewrite BioFacts.loaded_images. simpl. intros H. destruct (Hno H). }
  destruct (dBlazy.equal (page w) (Some el) "video").
  { rewrite BioFacts.loaded_images. simpl. intros H. destruct (Hno H). }
  destruct (dBlazy.equal (page w) (Some el) "img") eqn:Himg; simpl.
  - intros H. apply app_inv_head in H. injection H as <-. simpl.
    repeat split; try reflexivity.
    + destruct (src_undefined (page w) el && contains (page w) el _); reflexivity.
    + intros _. exact Himg.
  - destruct (src_undefined (page w) el && contains (page w) el _) eqn:Hbg; simpl.
    + intros H. apply app_inv_head in H. injection H as <-. simpl.
      repeat split; try reflexivity. intros Hf. discriminate Hf.
    + destruct (getAttribute (page w) el BioMedia._dataSrc) as [[|c t]|];
        try (intros H; destruct (Hno H)).
      destruct (hasAttribute (page w) el BioMedia._src).
      * rewrite BioFacts.loaded_images. simpl. intros H. destruct (Hno H).
      * intros H. destruct (Hno H).
Qed.


(** What [applyAttrs] does for an image. *)
Lemma applyAttrs_image el p :
  reflects_src (node p el) = true ->
  let q := BioMedia.applyAttrs el false p in
  (forall x, getAttribute p el "data-src" = Some x -> getAttribute q el "src" = Some x)
  /\ (forall y, getAttribute p el "data-srcset" = Some y -> getAttribute q el "srcset" = Some y)
  /\ getAttribute q el "data-src" = getAttribute p el "data-src"
  /\ getAttribute q el "data-bio-hit" = getAttribute p el "data-bio-hit".
Proof.
  intros Hr. unfold BioMedia.applyAttrs, dBlazy.setAttrs, BioMedia._imgSources. simpl fold_left.
  unfold dBlazy.setAttr.
  change ("data-" +:+ BioMedia._srcSet) with "data-srcset".
  change ("data-" +:+ BioMedia._src) with "data-src".
  change (String.eqb BioMedia._srcSet "src") with false.
  change (String.eqb BioMedia._src "src") with true.
  change BioMedia._srcSet with "srcset". cbv iota.
  destruct (getAttribute p el "data-srcset") as [y|] eqn:Hy.
  - rewrite getAttribute_setAttribute_ne by discriminate.
    destruct (getAttribute p el "data-src") as [x|] eqn:Hx.
    + repeat split.
      * intros x' [= <-]. apply getAttribute_set_src_eq.
        now rewrite reflects_src_setAttribute.
      * intros y' [= <-]. rewrite getAttribute_set_src_ne by discriminate.
        apply getAttribute_setAttribute_eq.
      * rewrite getAttribute_set_src_ne, getAttribute_setAttribute_ne by discriminate.
        exact Hx.
      * now rewrite getAttribute_set_src_ne, getAttribute_setAttribute_ne by discriminate.
    + repeat split; try discriminate.
      * intros y' [= <-]. apply getAttribute_setAttribute_eq.
      * rewrite getAttribute_setAttribute_ne by discriminate. exact Hx.
      * now rewrite getAttribute_setAttribute_ne by discriminate.
  - destruct (getAttribute p el "data-src") as [x|] eqn:Hx.
    + repeat split; try discriminate.
      * intros x' [= <-]. now apply getAttribute_set_src_eq.
      * rewrite getAttribute_set_src_ne by discriminate. exact Hx.
      * now rewrite getAttribute_set_src_ne by discriminate.
    + repeat split; try discriminate; assumption.
Qed.

(** What [applyAttrs] does for a background block. *)
Lemma applyAttrs_background el p x :
  getAttribute p el "data-src" = Some x ->
  style (node (BioMedia.applyAttrs el true p) el) !! "backgroundImage"
    = Some (BioMedia.css_url x).
Proof.
  intros Hx. unfold BioMedia.applyAttrs, BioMedia.setBg.
  change BioMedia._bgSrc with "data-src". rewrite Hx.
  rewrite style_removeAttribute. apply style_set_style_eq.
Qed.

Lemma equal_img_reflects p el :
  dBlazy.equal p (Some el) "img" = true -> reflects_src (node p el) = true.
Proof.
  unfold dBlazy.equal, reflects_src. intros H. apply String.eqb_eq in H. now rewrite H.
Qed.

(** After [applyAttrs] the real attributes are in place. *)
Lemma applyAttrs_promoted (img : Image) (p : Page) :
  well_formed_probe p img ->
  promoted p img (BioMedia.applyAttrs (for_element img) (background img) p).
Proof.
  intros Hwf. unfold promoted. destruct (background img) eqn:Hb.
  - intros x Hx. now apply applyAttrs_background.
  - pose proof (applyAttrs_image (for_element img) p (equal_img_reflects _ _ (Hwf Hb))) as H.
    simpl in H. tauto.
Qed.

(** Adding a class, taking an attribute named otherwise off, or recording
    a step leaves the real attributes in place. *)
Lemma promoted_classList_add p0 img el t p :
  promoted p0 img p -> promoted p0 img (classList_add el t p).
Proof.
  unfold promoted. destruct (background img).
  - intros H x Hx. rewrite style_classList_add. auto.
  - intros [H1 H2]. split; intros v Hv; rewrite getAttribute_classList_add; auto.
Qed.

Lemma promoted_removeAttribute p0 img el n p :
  n <> "src" -> n <> "srcset" ->
  promoted p0 img p -> promoted p0 img (removeAttribute el n p).
Proof.
  intros N1 N2. unfold promoted. destruct (background img).
  - intros H x Hx. rewrite style_removeAttribute. auto.
  - intros [H1 H2]. split; intros v Hv;
      rewrite getAttribute_removeAttribute_ne by assumption; auto.
Qed.

End BioMediaFacts.


(** C7.  However the probe of an image or of a background block ends,
    load or error, the last thing the protocol does is to dispatch
    [bio.finally] on the element. *)
Theorem finally_on_both_paths (me : Bio.t) (img : Image) (outcome : BioMedia.Outcome) (w : World) :
  last (history (page (snd (BioMedia.settle me img outcome w))))
    = Some (Dispatch (for_element img) "bio.finally").
Proof.
  unfold BioMedia.settle.
  match goal with
  | |- context [let '(me2, w2) := ?x in _] => destruct x as [me2 w2]
  end.
  simpl. apply last_snoc.
Qed.

Module ProtocolFacts.

Import DOM DOMFacts.

Lemma getAttribute_record s p el n : getAttribute (record s p) el n = getAttribute p el n.
Proof. reflexivity. Qed.

Lemma contains_record s p el t : contains (record s p) el t = contains p el t.
Proof. reflexivity. Qed.

Lemma promoted_record p0 img s p : promoted p0 img p -> promoted p0 img (record s p).
Proof. exact (fun H => H). Qed.

End ProtocolFacts.

(** On the sample page, with the loader the orchestrator builds, whose
    success callback is [Blazy.clearing]: the image whose probe loads
    ends with its [src], with the success class and without
    [data-src]. *)
Example success_roundtrip_orchestrated :
  images Fixture.hit_orchestrated = [Fixture.probe1]
  /\ DOM.getAttribute Fixture.loaded_orchestrated 1%nat "src" = Some "a.jpg"
  /\ DOM.contains Fixture.loaded_orchestrated 1%nat "b-loaded" = true
  /\ DOM.hasAttribute Fixture.loaded_orchestrated 1%nat "data-src" = false.
Proof. vm_compute. repeat split. Qed.

(** C6, as the specification has it, fails under the loader the
    orchestrator builds: its error callback [Blazy.clearing] takes the
    error class off again and sets a timer to load the element anew. *)
Lemma error_class_removed_by_orchestrator :
  images Fixture.hit_orchestrated = [Fixture.probe1]
  /\ DOM.contains Fixture.failed_orchestrated 1%nat "b-error" = false
  /\ In (ClassAdd 1%nat "b-error") (history Fixture.failed_orchestrated)
  /\ In (ClassRemove 1%nat "b-error") (history Fixture.failed_orchestrated)
  /\ In (SetTimeout (Reload 1%nat) 10) (history Fixture.failed_orchestrated).
Proof. vm_compute. repeat split; tauto. Qed.

(** C8, as the specification has it, fails: on the image of the sample
    picture, which is not marked, the hook first promotes the sources and
    the image and adds the class, and writes the marker last. *)
Lemma hit_marker_is_not_set_first :
  DOM.hasAttribute (page Fixture.world_plain) 5%nat "data-bio-hit" = false
  /\ history (page Fixture.world_plain) = []
  /\ history (page (snd (BioMedia.lazyLoad Fixture.plain 5%nat Fixture.world_plain)))
     = [SetAttribute 3%nat "srcset" "s.webp"; RemoveAttribute 3%nat "data-srcset";
        SetAttribute 4%nat "srcset" "s.jpg"; RemoveAttribute 4%nat "data-srcset";
        SetSrc 5%nat "p.jpg"; RemoveAttribute 5%nat "data-src";
        ClassAdd 5%nat "b-loaded";
        SetAttribute 5%nat "data-bio-hit" "1"].
Proof. vm_compute. repeat split. Qed.

(** ** The orchestrator's callback *)

Module BlazyFacts.

Import DOM DOMFacts.

Lemma contains_classList_remove el t p : contains (classList_remove el t p) el t = false.
Proof.
  unfold contains, classList_remove. rewrite node_mutate_eq. simpl.
  apply bool_decide_eq_false. rewrite list_elem_of_In, filter_In.
  intros [_ H]. now rewrite String.eqb_refl in H.
Qed.

(** Once [Drupal.blazy.init] is assigned, [reevaluate] leaves the element
    without the error class. *)
Lemma reevaluate_removes_error_class el p :
  init_assigned (blazy p) = true ->
  contains (Blazy.reevaluate el p) el (blazy_errorClass (blazy p)) = false.
Proof.
  intros Hi. unfold Blazy.reevaluate. rewrite Hi. unfold dBlazy.hasClass. simpl.
  destruct (contains p el (blazy_errorClass (blazy p))) eqn:Hc.
  - match goal with |- context [if ?c then _ else _] => destruct c end;
      apply contains_classList_remove.
  - match goal with |- context [if ?c then _ else _] => destruct c end; exact Hc.
Qed.

(** What [clearing] leaves alone: any reading of an element that neither
    its classes nor the animation styles enter. *)
Section Frame.

Context {A : Type} (reading : Element -> A).

Hypothesis reading_classList : forall l e, reading (with_classList l e) = reading e.

Hypothesis reading_style : forall k v e,
  In k ["animationDuration"; "animationDelay"; "animationIterationCount"] ->
  reading (with_style (<[k := v]> (style e)) e) = reading e.

Lemma clearLoading_frame el p el' :
  reading (node (Blazy.clearLoading el p) el') = reading (node p el').
Proof.
  unfold Blazy.clearLoading.
  generalize [Some el; dBlazy.closest p el (SelClass "is-loading");
              dBlazy.closest p el (SelClassIncludes "loading")].
  intros loaders. revert p. induction loaders as [|[l|] loaders IH]; intros p; simpl.
  - reflexivity.
  - rewrite IH. unfold set_className. now apply mutate_frame.
  - apply IH.
Qed.

Lemma reevaluate_frame el p el' :
  reading (node (Blazy.reevaluate el p) el') = reading (node p el').
Proof.
  unfold Blazy.reevaluate.
  repeat match goal with |- context [if ?c then _ else _] => destruct c end;
    rewrite ?node_record; try reflexivity;
    unfold classList_remove; now apply mutate_frame.
Qed.

Lemma animate_frame el animation p el' :
  reading (node (dBlazy.animate el animation p) el') = reading (node p el').
Proof.
  unfold dBlazy.animate, dBlazy.bindEvent. rewrite node_record. simpl fold_left.
  repeat match goal with
         | |- context [match ?o with Some _ => _ | None => _ end] =>
             match o with
             | getAttribute _ _ _ => destruct o
             end
         end;
    repeat (unfold set_style at 1; rewrite (mutate_frame reading);
            [|intros e; apply reading_style; simpl; tauto]);
    unfold classList_add; rewrite !(mutate_frame reading) by (intros; apply reading_classList);
    reflexivity.
Qed.

Lemma clearing_frame el status p el' :
  reading (node (Blazy.clearing el status p) el') = reading (node p el').
Proof.
  unfold Blazy.clearing.
  set (p3 := Blazy.updateContainer el _ _).
  assert (H3 : reading (node p3 el') = reading (node p el')).
  { subst p3. unfold Blazy.updateContainer. rewrite node_record.
    now rewrite reevaluate_frame, clearLoading_frame. }
  match goal with
  | |- context [dBlazy.trigger el "blazy.done" ?q] =>
      assert (H4 : reading (node q el') = reading (node p el'))
  end.
  { destruct (dBlazy.closest p el (SelAttr "data-animation")).
    - now rewrite animate_frame.
    - destruct (Blazy.has p3 (Some el) "data-animation"); [now rewrite animate_frame | exact H3]. }
  match goal with |- context [if ?c then _ else _] => destruct c end; exact H4.
Qed.

End Frame.

(** [clearing] writes no content attribute. *)
Lemma clearing_getAttribute el status p el' n :
  getAttribute (Blazy.clearing el status p) el' n = getAttribute p el' n.
Proof.
  unfold getAttribute.
  now rewrite (clearing_frame attributes (fun _ _ => eq_refl) (fun _ _ _ _ => eq_refl)).
Qed.

(** Nor the background image. *)
Lemma clearing_backgroundImage el status p el' :
  style (node (Blazy.clearing el status p) el') !! "backgroundImage"
    = style (node p el') !! "backgroundImage".
Proof.
  apply (clearing_frame (fun e => style e !! "backgroundImage")).
  - reflexivity.
  - intros k v e Hk. simpl. apply lookup_insert_ne.
    simpl in Hk. destruct Hk as [<-|[<-|[<-|[]]]]; discriminate.
Qed.

(** So it leaves the promoted attributes in place. *)
Lemma clearing_keeps_promoted p0 img el :
  keeps (Some Blazy.clearing) el (promoted p0 img).
Proof.
  intros status p. unfold promoted. destruct (background img).
  - intros H x Hx. rewrite clearing_backgroundImage. auto.
  - intros [H1 H2]. split; intros v Hv; rewrite clearing_getAttribute; auto.
Qed.

End BlazyFacts.

(** ** The failure path under the orchestrated loader *)

Module OrchestratedFacts.

Import DOM DOMFacts.

(** The changes the loader makes to elements leave the tree and the
    orchestrator's state as they are. *)
Lemma applyAttrs_static el isBg p :
  tree (BioMedia.applyAttrs el isBg p) = tree p
  /\ blazy (BioMedia.applyAttrs el isBg p) = blazy p.
Proof.
  unfold BioMedia.applyAttrs, BioMedia.setBg, dBlazy.setAttrs, dBlazy.setAttr.
  simpl fold_left. repeat case_match; split; reflexivity.
Qed.

Lemma applyAttrs_other_attribute el isBg p el' n :
  n <> "src" -> n <> "srcset" ->
  getAttribute (BioMedia.applyAttrs el isBg p) el' n = getAttribute p el' n.
Proof.
  intros N1 N2.
  unfold BioMedia.applyAttrs, BioMedia.setBg, dBlazy.setAttrs, dBlazy.setAttr,
    BioMedia._imgSources, BioMedia._src, BioMedia._srcSet, BioMedia._bgSrc.
  simpl fold_left.
  repeat case_match;
    rewrite ?getAttribute_set_src_ne, ?getAttribute_setAttribute_ne,
      ?getAttribute_removeAttribute_ne, ?getAttribute_set_style by congruence;
    reflexivity.
Qed.

Lemma find_pointwise {A : Type} (f g : A -> bool) (l : list A) :
  (forall a, f a = g a) -> List.find f l = List.find g l.
Proof.
  intros H. induction l as [|a l IH]; [reflexivity|].
  simpl. rewrite H, IH. reflexivity.
Qed.

Lemma clearLoading_blazy el p : blazy (Blazy.clearLoading el p) = blazy p.
Proof.
  unfold Blazy.clearLoading.
  generalize [Some el; dBlazy.closest p el (SelClass "is-loading");
              dBlazy.closest p el (SelClassIncludes "loading")].
  intros loaders. revert p. induction loaders as [|[l|] loaders IH]; intros p; simpl;
    [reflexivity | now rewrite IH | apply IH].
Qed.

(** Without an animation on the element or above it, [clearing] leaves
    the element without the error class once [Drupal.blazy.init] is
    assigned. *)
Lemma clearing_removes_error_class el status p :
  init_assigned (blazy p) = true ->
  dBlazy.closest p el (SelAttr "data-animation") = None ->
  hasAttribute p el "data-animation" = false ->
  contains (Blazy.clearing el status p) el (blazy_errorClass (blazy p)) = false.
Proof.
  intros Hi Han Hda. unfold Blazy.clearing. rewrite Han.
  set (p1 := Blazy.clearLoading el p).
  assert (Hb : blazy p1 = blazy p) by apply clearLoading_blazy.
  assert (H2 : contains (Blazy.reevaluate el p1) el (blazy_errorClass (blazy p)) = false).
  { rewrite <- Hb. apply BlazyFacts.reevaluate_removes_error_class. now rewrite Hb. }
  assert (Hno : Blazy.has (Blazy.updateContainer el (dBlazy.closest p el (SelClass "media"))
                             (Blazy.reevaluate el p1)) (Some el) "data-animation" = false).
  { unfold Blazy.has, hasAttribute, getAttribute, Blazy.updateContainer.
    rewrite node_record.
    rewrite (BlazyFacts.reevaluate_frame attributes (fun _ _ => eq_refl)).
    subst p1. rewrite (BlazyFacts.clearLoading_frame attributes (fun _ _ => eq_refl)).
    exact Hda. }
  rewrite Hno.
  match goal with |- context [if ?c then _ else _] => destruct c end; exact H2.
Qed.

End OrchestratedFacts.

(** ** The model at work *)

Module Examples.

Import Sample.

Example parseInt_examples :
  map JS.parseInt ["768"; " 12px"; "-0x1f"; "abc"; ""; "007"]
  = [JS.of_Z 768; JS.of_Z 12; JS.of_Z (-31); JS.NaN; JS.NaN; JS.of_Z 7].
Proof. vm_compute. reflexivity. Qed.

Example StringToNumber_examples :
  map JS.StringToNumber ["768"; " 12px"; "-0x1f"; ""; "1e3"; " 1.5 "; "0x1F"; "-Infinity"]
  = [JS.of_Z 768; JS.NaN; JS.NaN; JS.of_Z 0; JS.of_Z 1000; JS.Num (15 # 10);
     JS.of_Z 31; JS.Infinity true].
Proof. vm_compute. reflexivity. Qed.

Example replace_loading_examples :
  map Blazy.replace_loading
    ["media--loading"; "b-lazy is-loading x"; "loading"; "b-lazy b-loaded";
     "is-loadingloadingx y"]
  = [""; "b-lazy  x"; "loading"; "b-lazy b-loaded"; "x y"].
Proof. vm_compute. reflexivity. Qed.

(** Mobile first, the same window and dataset give ["b.jpg"]: 768 is the
    largest key that is at most 900. *)
Example activeWidth_900_mobile_first :
  dBlazy.activeWidth win900 abc true = JS.Str "b.jpg".
Proof. vm_compute. reflexivity. Qed.

(** Past the largest key the last value is returned. *)
Example activeWidth_beyond_largest :
  dBlazy.activeWidth
    {| innerWidth := 1400; documentElement_clientWidth := 1400; body_clientWidth := 1400;
       screen_width := 1920; devicePixelRatio := 2; picturefill := false |}
    abc false
  = JS.Str "c.jpg".
Proof. vm_compute. reflexivity. Qed.

(** Keys that are not numerals: [parseInt] reads the width, the
    conversion to Number gives NaN, and the first key is fallen back
    to. *)
Example activeWidth_falls_back_to_first :
  dBlazy.activeWidth win900 [("320px", JS.Str "s.jpg"); ("640px", JS.Str "m.jpg")] false
  = JS.Str "s.jpg".
Proof. vm_compute. reflexivity. Qed.

(** The constructor on the sample page: five elements found and
    observed. *)
Example new_on_sample :
  Bio.count Fixture.plain = 5
  /\ Bio.elms Fixture.plain = Some [1; 5; 6; 8; 9]%nat
  /\ Bio.observer Fixture.plain = Some {| targets := [1; 5; 6; 8; 9]%nat |}
  /\ vars Fixture.world_plain
     = {| _bioTick := 5; _revTick := 0; _disconnected := false; _observed := true |}.
Proof. vm_compute. repeat split. Qed.

(** The hook on the background block and on the video of the sample
    page. *)
Example lazyLoad_background :
  images (snd (BioMedia.lazyLoad Fixture.plain 8%nat Fixture.world_plain))
  = [{| for_element := 8%nat; background := true;
        image_src := Some "bg.jpg"; image_srcset := None |}]
  /\ history (page (snd (BioMedia.lazyLoad Fixture.plain 8%nat Fixture.world_plain)))
     = [SetAttribute 8%nat "data-bio-hit" "1"].
Proof. vm_compute. repeat split. Qed.

Example lazyLoad_video :
  images (snd (BioMedia.lazyLoad Fixture.plain 6%nat Fixture.world_plain)) = []
  /\ history (page (snd (BioMedia.lazyLoad Fixture.plain 6%nat Fixture.world_plain)))
     = [SetSrc 7%nat "v.mp4"; RemoveAttribute 7%nat "data-src"; MediaLoad 6%nat;
        ClassAdd 6%nat "b-loaded"; SetAttribute 6%nat "data-bio-hit" "1"].
Proof. vm_compute. repeat split. Qed.

(** The steps of the failure path under the orchestrated loader. *)
Example failure_steps_orchestrated :
  history Fixture.failed_orchestrated
  = [SetAttribute 1%nat "data-bio-hit" "1";
     SetAttribute 1%nat "srcset" "a.jpg 1x, a2.jpg 2x";
     SetSrc 1%nat "a.jpg";
     ClassAdd 1%nat "b-error";
     SetClassName 1%nat "b-lazy b-error";
     ClassRemove 1%nat "b-error";
     SetTimeout (Reload 1%nat) 10;
     SetTimeout (UpdateContainer 1%nat None false) 0;
     Dispatch 1%nat "blazy.done";
     Dispatch 0%nat "blazy.native";
     RemoveAttribute 1%nat "data-bio-hit";
     Dispatch 1%nat "bio.finally"].
Proof. vm_compute. reflexivity. Qed.

End Examples.

(** ** Class names under [clearLoading] *)

Module WordFacts.

Import Words.

Lemma whitespace_is_space (c : ascii) :
  DOM.is_ascii_whitespace c = true -> JS.is_space c = true.
Proof.
  destruct c as [[] [] [] [] [] [] [] []]; intros H; vm_compute in H;
    try discriminate H; reflexivity.
Qed.

Lemma not_space_not_whitespace (c : ascii) :
  JS.is_space c = false -> DOM.is_ascii_whitespace c = false.
Proof.
  intros H. destruct (DOM.is_ascii_whitespace c) eqn:E; [|reflexivity].
  apply whitespace_is_space in E. congruence.
Qed.

Lemma every_cons f c t : every f (String c t) = f c && every f t.
Proof. reflexivity. Qed.

Lemma includes_cons sub c t :
  DOM.includes sub (String c t) = false ->
  String.prefix sub (String c t) = false /\ DOM.includes sub t = false.
Proof.
  intros H. cbn [DOM.includes] in H.
  destruct (String.prefix sub (String c t)); [discriminate H|].
  split; [reflexivity | exact H].
Qed.

(** A prefix without white space does not reach over the end of a
    word. *)
Lemma prefix_within (p : string) : forall u B,
  every (fun c => negb (JS.is_space c)) p = true ->
  delimited B ->
  String.prefix p (u +:+ B) = true -> String.prefix p u = true.
Proof.
  induction p as [|a p IH]; intros u B Hp HB H.
  - now destruct u.
  - rewrite every_cons in Hp. apply andb_prop in Hp as [Ha Hp].
    destruct u as [|c u].
    + exfalso. change ("" +:+ B) with B in H. destruct B as [|b B]; [discriminate H|].
      cbn [String.prefix] in H.
      destruct (ascii_dec a b) as [->|]; [|discriminate H].
      simpl in HB. apply whitespace_is_space in HB. rewrite HB in Ha. discriminate Ha.
    + change (String c u +:+ B) with (String c (u +:+ B)) in H.
      cbn [String.prefix] in *.
      destruct (ascii_dec a c); [|discriminate H]. eapply IH; eauto.
Qed.

Lemma prefix_split (p : string) : forall s,
  String.prefix p s = true -> exists rest, s = p +:+ rest.
Proof.
  induction p as [|a p IH]; intros s H.
  - exists s. reflexivity.
  - destruct s as [|c s]; simpl in H; [discriminate H|].
    destruct (ascii_dec a c) as [->|]; [|discriminate H].
    destruct (IH s H) as [rest ->]. exists rest. reflexivity.
Qed.

Lemma prefix_cons a p b s :
  String.prefix (String a p) (String b s)
    = if ascii_dec a b then String.prefix p s else false.
Proof. reflexivity. Qed.

Lemma longest_unfold c t :
  Blazy.longest_before_loading (String c t) =
    if JS.is_space c
    then (if String.prefix "loading" (String c t) then Some O else None)
    else match Blazy.longest_before_loading t with
         | Some k => Some (S k)
         | None => if String.prefix "loading" (String c t) then Some O else None
         end.
Proof. reflexivity. Qed.

Lemma match_unfold c t :
  Blazy.match_loading (String c t) =
    if JS.is_space c then None
    else match Blazy.longest_before_loading t with
         | Some k => Some (S k + 7)%nat
         | None => None
         end.
Proof. reflexivity. Qed.

(** ["loading"] does not start with white space. *)
Lemma prefix_loading_space b B :
  JS.is_space b = true -> String.prefix "loading" (String b B) = false.
Proof.
  intros HB. rewrite prefix_cons.
  destruct (ascii_dec "l" b) as [<-|]; [vm_compute in HB; discriminate HB | reflexivity].
Qed.

Lemma longest_delimited (B : string) :
  delimited B -> Blazy.longest_before_loading B = None.
Proof.
  destruct B as [|b B]; [reflexivity|]. simpl delimited. intros HB.
  apply whitespace_is_space in HB.
  now rewrite longest_unfold, HB, prefix_loading_space.
Qed.

(** Inside a word without ["loading"] the expression finds nothing. *)
Lemma longest_none (u : string) : forall B,
  every (fun c => negb (JS.is_space c)) u = true ->
  DOM.includes "loading" u = false ->
  delimited B ->
  Blazy.longest_before_loading (u +:+ B) = None.
Proof.
  induction u as [|c u IH]; intros B Hu Hi HB.
  - now apply longest_delimited.
  - rewrite every_cons in Hu. apply andb_prop in Hu as [Hc Hu].
    apply includes_cons in Hi as [Hp Hi].
    change (String c u +:+ B) with (String c (u +:+ B)).
    rewrite longest_unfold.
    rewrite (IH B Hu Hi HB).
    destruct (JS.is_space c); [discriminate Hc|].
    destruct (String.prefix "loading" (String c (u +:+ B))) eqn:E; [|reflexivity].
    change (String c (u +:+ B)) with (String c u +:+ B) in E.
    apply prefix_within in E; [congruence | reflexivity | exact HB].
Qed.

Lemma match_none (u B : string) :
  every (fun c => negb (JS.is_space c)) u = true ->
  DOM.includes "loading" u = false ->
  delimited B ->
  Blazy.match_loading (u +:+ B) = None.
Proof.
  intros Hu Hi HB. destruct u as [|c u].
  - change ("" +:+ B) with B. destruct B as [|b B]; [reflexivity|]. simpl in HB.
    apply whitespace_is_space in HB. now rewrite match_unfold, HB.
  - rewrite every_cons in Hu. apply andb_prop in Hu as [Hc Hu].
    apply includes_cons in Hi as [_ Hi].
    change (String c u +:+ B) with (String c (u +:+ B)).
    rewrite match_unfold, (longest_none u B Hu Hi HB).
    now destruct (JS.is_space c).
Qed.

Lemma replace_unfold (s : string) :
  Blazy.replace_loading s =
    match Blazy.match_loading s with
    | Some len => Blazy.skip len s
    | None => match s with
              | String c t => String c (Blazy.replace_loading t)
              | EmptyString => EmptyString
              end
    end.
Proof. destruct s; reflexivity. Qed.

(** The replacement passes over such a word. *)
Lemma replace_word (u : string) : forall B,
  every (fun c => negb (JS.is_space c)) u = true ->
  DOM.includes "loading" u = false ->
  delimited B ->
  Blazy.replace_loading (u +:+ B) = u +:+ Blazy.replace_loading B.
Proof.
  induction u as [|c u IH]; intros B Hu Hi HB; [reflexivity|].
  rewrite replace_unfold, (match_none _ B Hu Hi HB).
  change (String c u +:+ B) with (String c (u +:+ B)).
  rewrite every_cons in Hu. apply andb_prop in Hu as [Hc Hu].
  apply includes_cons in Hi as [_ Hi].
  rewrite (IH B Hu Hi HB). reflexivity.
Qed.

Lemma replace_delimited (B : string) : delimited B -> delimited (Blazy.replace_loading B).
Proof.
  destruct B as [|b B]; [intros _; exact I|]. intros HB.
  assert (Hm : Blazy.match_loading (String b B) = None).
  { now rewrite match_unfold, (whitespace_is_space b HB). }
  rewrite replace_unfold, Hm. exact HB.
Qed.

Lemma word_in_here t fresh s : fresh = true /\ word_at t s -> word_in t fresh s.
Proof. intros H. destruct s; now left. Qed.

Lemma word_in_weaken t fresh s : word_in t false s -> word_in t fresh s.
Proof.
  destruct s as [|c s]; simpl; intros [[H _]|H]; try discriminate H; try destruct H.
  now right.
Qed.

Lemma word_in_peel t c s :
  JS.is_space c = false -> word_in t false (String c s) -> word_in t false s.
Proof.
  intros Hc [[H _]|H]; [discriminate H|]. simpl in H.
  now rewrite (not_space_not_whitespace c Hc) in H.
Qed.

(** What a match takes out holds no word boundary. *)
Lemma word_in_skip t : forall s k,
  Blazy.longest_before_loading s = Some k ->
  word_in t false s -> word_in t false (Blazy.skip (k + 7) s).
Proof.
  induction s as [|c s IH]; intros k Hk Hw; [discriminate Hk|].
  rewrite longest_unfold in Hk.
  destruct (JS.is_space c) eqn:Hc.
  - now rewrite (prefix_loading_space c s Hc) in Hk.
  - destruct (Blazy.longest_before_loading s) as [k'|] eqn:Hs.
    + injection Hk as <-. change (S k' + 7)%nat with (S (k' + 7)). cbn [Blazy.skip].
      apply (IH k' eq_refl). eapply word_in_peel; eauto.
    + destruct (String.prefix "loading" (String c s)) eqn:E; [|discriminate Hk].
      injection Hk as <-. apply prefix_split in E as [rest E]. rewrite E in *.
      change (Blazy.skip (0 + 7) ("loading" +:+ rest)) with rest.
      change ("loading" +:+ rest)
        with (String "l" (String "o" (String "a" (String "d" (String "i"
                (String "n" (String "g" rest))))))) in Hw.
      repeat (apply word_in_peel in Hw; [|reflexivity]). exact Hw.
Qed.

(** A plain word of a string is a word of what the replacement makes of
    it. *)
Lemma replace_word_in (t : string) :
  plain t = true ->
  forall s fresh, word_in t fresh s -> word_in t fresh (Blazy.replace_loading s).
Proof.
  intros Ht. unfold plain in Ht.
  apply andb_prop in Ht as [Ht Hi]. apply andb_prop in Ht as [_ Hu].
  apply negb_true_iff in Hi.
  induction s as [|c s IH]; intros fresh Hw.
  - exact Hw.
  - destruct Hw as [[Hf (B & HsB & HB)] | Hw].
    + rewrite HsB, (replace_word t B Hu Hi HB).
      apply (word_in_here t fresh). split; [exact Hf|].
      exists (Blazy.replace_loading B). split; [reflexivity | now apply replace_delimited].
    + rewrite replace_unfold. simpl in Hw.
      destruct (Blazy.match_loading (String c s)) as [len|] eqn:Hm.
      * apply word_in_weaken. rewrite match_unfold in Hm.
        destruct (JS.is_space c) eqn:Hc; [discriminate Hm|].
        destruct (Blazy.longest_before_loading s) as [k|] eqn:Hk; [|discriminate Hm].
        injection Hm as <-. change (S k + 7)%nat with (S (k + 7)). cbn [Blazy.skip].
        apply (word_in_skip t s k Hk).
        now rewrite (not_space_not_whitespace c Hc) in Hw.
      * right. simpl. now apply IH.
Qed.

(** Reading a word into the token being read. *)
Lemma split_word (u : string) : forall cur B,
  every (fun c => negb (JS.is_space c)) u = true ->
  DOM.split_tokens cur (u +:+ B)
    = DOM.split_tokens (rev (list_ascii_of_string u) ++ cur) B.
Proof.
  induction u as [|c u IH]; intros cur B Hu; [reflexivity|].
  rewrite every_cons in Hu. apply andb_prop in Hu as [Hc Hu].
  apply negb_true_iff in Hc.
  change (String c u +:+ B) with (String c (u +:+ B)).
  cbn [DOM.split_tokens]. rewrite (not_space_not_whitespace c Hc).
  rewrite (IH (c :: cur) B Hu). simpl. now rewrite <- app_assoc.
Qed.

(** A word of a string is one of its tokens. *)
Lemma word_in_tokens (t : string) :
  t <> "" -> every (fun c => negb (JS.is_space c)) t = true ->
  forall s fresh cur,
    word_in t fresh s -> (fresh = true -> cur = []) ->
    t ∈ DOM.split_tokens cur s.
Proof.
  intros Hne Hu. induction s as [|c s IH]; intros fresh cur Hw Hcur.
  - destruct Hw as [[Hf (B & HsB & HB)] | []].
    destruct t; [congruence | discriminate HsB].
  - destruct Hw as [[Hf (B & HsB & HB)] | Hw].
    + rewrite (Hcur Hf), HsB, (split_word t [] B Hu). rewrite app_nil_r.
      assert (Hflush : match rev (list_ascii_of_string t) with
                       | [] => []
                       | _ :: _ => [string_of_list_ascii (rev (rev (list_ascii_of_string t)))]
                       end = [t]).
      { rewrite rev_involutive, string_of_list_ascii_of_string.
        destruct t as [|a t]; [congruence|]. simpl.
        destruct (rev (list_ascii_of_string t) ++ [a]) eqn:E; [|reflexivity].
        apply app_eq_nil in E as [_ E]. discriminate E. }
      destruct B as [|b B]; cbn [DOM.split_tokens].
      * rewrite Hflush. apply list_elem_of_singleton. reflexivity.
      * simpl in HB. rewrite HB, Hflush. apply elem_of_app. left.
        apply list_elem_of_singleton. reflexivity.
    + simpl in Hw. cbn [DOM.split_tokens].
      destruct (DOM.is_ascii_whitespace c).
      * apply elem_of_app. right. apply (IH true []); auto.
      * apply (IH false (c :: cur)); [exact Hw | discriminate].
Qed.

Lemma word_in_after (t x : string) : forall fresh s,
  word_in t true s -> word_in t fresh (x +:+ String " " s).
Proof.
  induction x as [|c x IH]; intros fresh s Hw.
  - right. exact Hw.
  - right. simpl. apply IH. exact Hw.
Qed.

(** A class name of the list is a word of the attribute. *)
Lemma word_in_serialize (t : string) (l : list string) :
  t ∈ l -> word_in t true (DOM.serialize l).
Proof.
  unfold DOM.serialize. induction l as [|x l IH]; intros Hin.
  - apply elem_of_nil in Hin. destruct Hin.
  - apply elem_of_cons in Hin. destruct l as [|y l].
    + destruct Hin as [->|Hin]; [|apply elem_of_nil in Hin; destruct Hin].
      apply word_in_here. split; [reflexivity|]. exists "". split; [|exact I].
      cbn [String.concat]. clear. induction x as [|c x IHx]; [reflexivity|].
      change (String c x = String c (x +:+ "")). f_equal. exact IHx.
    + change (String.concat " " (x :: y :: l))
        with (x +:+ String " " (String.concat " " (y :: l))).
      destruct Hin as [->|Hin].
      * apply word_in_here. split; [reflexivity|].
        eexists. split; [reflexivity|]. reflexivity.
      * apply word_in_after. now apply IH.
Qed.

(** So a plain class name outlives [className.replace(/(\S+)loading/, '')]. *)
Lemma replace_keeps_class (t : string) (l : list string) :
  plain t = true -> t ∈ l ->
  t ∈ DOM.tokens (Blazy.replace_loading (DOM.serialize l)).
Proof.
  intros Ht Hin. pose proof Ht as Ht'. unfold plain in Ht'.
  apply andb_prop in Ht' as [Ht' _]. apply andb_prop in Ht' as [Hne Hu].
  apply negb_true_iff in Hne. unfold DOM.tokens.
  apply (word_in_tokens t) with (fresh := true); auto.
  - intros ->. discriminate Hne.
  - apply replace_word_in; [exact Ht|]. now apply word_in_serialize.
Qed.

End WordFacts.

(** ** The success path under the orchestrated loader *)

Module ClearingFacts.

Import DOM DOMFacts Words.

(** What [clearing] does to the classes: a plain class name other than
    the orchestrator's error class stays on every element. *)
Section Kept.

Variable t : string.

Hypothesis t_plain : plain t = true.

Lemma set_className_keeps l q el' :
  t ∈ classList (node q el') ->
  t ∈ classList (node (set_className l (Blazy.replace_loading (className q l)) q) el').
Proof.
  intros H. unfold set_className. destruct (decide (l = el')) as [->|Hne].
  - rewrite node_mutate_eq. simpl. unfold className.
    now apply WordFacts.replace_keeps_class.
  - now rewrite node_mutate_ne.
Qed.

Lemma clearLoading_keeps el p el' :
  t ∈ classList (node p el') -> t ∈ classList (node (Blazy.clearLoading el p) el').
Proof.
  unfold Blazy.clearLoading.
  generalize [Some el; dBlazy.closest p el (SelClass "is-loading");
              dBlazy.closest p el (SelClassIncludes "loading")].
  intros loaders. revert p. induction loaders as [|[l|] loaders IH]; intros p H; simpl.
  - exact H.
  - apply IH. now apply set_className_keeps.
  - now apply IH.
Qed.

Lemma classList_remove_keeps el tok q el' :
  t <> tok ->
  t ∈ classList (node q el') -> t ∈ classList (node (classList_remove el tok q) el').
Proof.
  intros Hne H. unfold classList_remove. destruct (decide (el = el')) as [->|Hd].
  - rewrite node_mutate_eq. simpl. rewrite list_elem_of_In. apply List.filter_In. split.
    + apply list_elem_of_In, elem_of_ordered_set, H.
    + apply negb_true_iff, String.eqb_neq, Hne.
  - now rewrite node_mutate_ne.
Qed.

Lemma reevaluate_keeps el p el' :
  t <> blazy_errorClass (blazy p) ->
  t ∈ classList (node p el') -> t ∈ classList (node (Blazy.reevaluate el p) el').
Proof.
  intros Hne H. unfold Blazy.reevaluate.
  repeat match goal with |- context [if ?c then _ else _] => destruct c end;
    rewrite ?node_record; try exact H; now apply classList_remove_keeps.
Qed.

Lemma classList_add_keeps el tok q el' :
  t ∈ classList (node q el') -> t ∈ classList (node (classList_add el tok q) el').
Proof.
  intros H. unfold classList_add. destruct (decide (el = el')) as [->|Hd].
  - rewrite node_mutate_eq. simpl. rewrite elem_of_ordered_set, elem_of_app. now left.
  - now rewrite node_mutate_ne.
Qed.

Lemma animate_keeps el animation p el' :
  t ∈ classList (node p el') -> t ∈ classList (node (dBlazy.animate el animation p) el').
Proof.
  intros H. unfold dBlazy.animate, dBlazy.bindEvent. rewrite node_record. simpl fold_left.
  repeat match goal with
         | |- context [match ?o with Some _ => _ | None => _ end] =>
             match o with
             | getAttribute _ _ _ => destruct o
             end
         end;
    rewrite ?classList_set_style; now do 2 apply classList_add_keeps.
Qed.

Lemma clearing_keeps_class el status p el' :
  t <> blazy_errorClass (blazy p) ->
  contains p el' t = true -> contains (Blazy.clearing el status p) el' t = true.
Proof.
  intros Hne H. apply bool_decide_eq_true in H. apply bool_decide_eq_true.
  unfold Blazy.clearing.
  set (p3 := Blazy.updateContainer el _ _).
  assert (H3 : t ∈ classList (node p3 el')).
  { subst p3. unfold Blazy.updateContainer. rewrite node_record.
    apply reevaluate_keeps.
    - now rewrite OrchestratedFacts.clearLoading_blazy.
    - now apply clearLoading_keeps. }
  match goal with
  | |- context [dBlazy.trigger el "blazy.done" ?q] =>
      assert (H4 : t ∈ classList (node q el'))
  end.
  { destruct (dBlazy.closest p el (SelAttr "data-animation")).
    - now apply animate_keeps.
    - destruct (Blazy.has p3 (Some el) "data-animation"); [now apply animate_keeps | exact H3]. }
  match goal with |- context [if ?c then _ else _] => destruct c end; exact H4.
Qed.

End Kept.

End ClearingFacts.

(** ** The engine at work *)

Module EngineFacts.

Import BioProto.

Lemma with_erCounted_self me : Bio.with_erCounted (Bio.erCounted me) me = me.
Proof. now destruct me. Qed.

(** Apart from [erCounted], [me.loaded] leaves the instance as it is, and
    so the variables of the module. *)
Lemma loaded_instance me el status w :
  (exists n, fst (Bio.loaded me el status w) = Bio.with_erCounted n me)
  /\ vars (snd (Bio.loaded me el status w)) = vars w.
Proof.
  unfold Bio.loaded, Bio.success, Bio.error.
  destruct (status =? Bio._ok); simpl.
  - split.
    + destruct (0 <? Bio.erCounted me); eauto.
      exists (Bio.erCounted me). now rewrite with_erCounted_self.
    + now destruct (Options.success (Bio.options me)).
  - split; [eauto|]. now destruct (Options.error (Bio.options me)).
Qed.

Lemma branch_instance me el w :
  (exists n, fst (BioMedia.lazyLoad_branch me el w) = Bio.with_erCounted n me)
  /\ vars (snd (BioMedia.lazyLoad_branch me el w)) = vars w.
Proof.
  assert (Hme : (exists n, me = Bio.with_erCounted n me) /\ vars w = vars w).
  { split; [|reflexivity]. exists (Bio.erCounted me). now rewrite with_erCounted_self. }
  unfold BioMedia.lazyLoad_branch.
  repeat match goal with
         | |- context [if ?b then _ else _] => destruct b
         | |- context [match DOM.getAttribute ?p ?e ?n with _ => _ end] =>
             destruct (DOM.getAttribute p e n) as [[|? ?]|]
         end;
    try exact Hme;
    try match goal with
        | |- context [Bio.loaded ?m ?e ?s ?x] => exact (loaded_instance m e s x)
        end;
    (split; [exact (proj1 Hme) | reflexivity]).
Qed.

(** So does [me.lazyLoad], whichever the prototype. *)
Lemma lazyLoad_instance c me el w :
  (exists n, fst (lazyLoad c me el w) = Bio.with_erCounted n me)
  /\ vars (snd (lazyLoad c me el w)) = vars w.
Proof.
  assert (Hme : (exists n, me = Bio.with_erCounted n me) /\ vars w = vars w).
  { split; [|reflexivity]. exists (Bio.erCounted me). now rewrite with_erCounted_self. }
  destruct c; simpl; [exact Hme|].
  unfold BioMedia.lazyLoad.
  destruct (DOM.hasAttribute (page w) el "data-bio-hit"); [exact Hme|].
  pose proof (branch_instance me el w) as H.
  destruct (BioMedia.lazyLoad_branch me el w) as [me1 w1]. exact H.
Qed.

Lemma not_in_unobserve el io : el ∉ targets (io_unobserve el io).
Proof.
  unfold io_unobserve. simpl. rewrite list_elem_of_In, List.filter_In.
  intros [_ H]. now rewrite Nat.eqb_refl in H.
Qed.

End EngineFacts.

(** ** Bio: [disconnect] with an observer at hand *)

Module LoopFacts.

Import BioProto.

(** With an observer at hand [me.disconnect] returns; it leaves the
    counters and the ticks as they are. *)
Lemma disconnect_returns me force w :
  is_Some (Bio.observer me) ->
  exists me' w',
    Bio.disconnect me force w = Returned (me', w')
    /\ is_Some (Bio.observer me')
    /\ Bio.counted me' = Bio.counted me
    /\ Bio.erCounted me' = Bio.erCounted me
    /\ Bio.options me' = Bio.options me
    /\ _bioTick (vars w') = _bioTick (vars w)
    /\ _revTick (vars w') = _revTick (vars w)
    /\ page w' = page w /\ images w' = images w.
Proof.
  intros [io Hio]. unfold Bio.disconnect. rewrite Hio.
  repeat match goal with |- context [if ?b then _ else _] => destruct b end;
    eexists _, _; (split; [reflexivity|]); simpl; rewrite ?Hio; repeat split; eauto.
Qed.

End LoopFacts.

(** ** Bio: construction, revalidation, reinit *)

Module InitFacts.

Import BioProto.

(** With its elements and an observer at hand [me.observe] returns: it
    sets [_bioTick] and has the observer watch. *)
Lemma observe_returns me w entries :
  Bio.elms me = Some entries ->
  is_Some (Bio.observer me) ->
  exists me' w',
    Bio.observe me w = Returned (me', w')
    /\ is_Some (Bio.observer me')
    /\ Bio.counted me' = Bio.counted me
    /\ Bio.count me' = Bio.count me
    /\ Bio.erCounted me' = Bio.erCounted me
    /\ Bio.options me' = Bio.options me
    /\ Bio.elms me' = Bio.elms me
    /\ w' = set_bioTick (Z.of_nat (length entries)) w.
Proof.
  intros He [io Hio]. unfold Bio.observe. rewrite He, Hio.
  destruct (List.filter _ entries); eexists _, _; (split; [reflexivity|]);
    simpl; rewrite ?Hio; repeat split; eauto.
Qed.

(** One call of [me.revalidate]. *)
Lemma revalidate_step me force w :
  is_Some (Bio.observer me) ->
  exists me' w',
    revalidate me force w = Returned (me', w')
    /\ is_Some (Bio.observer me')
    /\ Bio.counted me' = Bio.counted me
    /\ _revTick (vars w) <= _revTick (vars w') <= Z.max (_revTick (vars w)) (Bio.counted me)
    /\ (Bio.counted me <= _revTick (vars w) -> me' = me /\ w' = w).
Proof.
  intros Hio. unfold revalidate.
  destruct (_revTick (vars w) <? Bio.counted me) eqn:Hlt.
  - apply Z.ltb_lt in Hlt.
    destruct ((force || negb (Bio.count me =? Bio.counted me))); cbn [andb].
    + match goal with
      | |- context [Bio.observe ?m ?x] =>
          destruct (observe_returns m x _ eq_refl Hio)
            as (me1 & w1 & -> & Hio1 & Hc & _ & _ & _ & _ & ->)
      end.
      cbn [and_then fst snd]. eexists _, _. split; [reflexivity|].
      simpl in *. repeat split; auto; lia.
    + exists me, w. repeat split; auto; lia.
  - rewrite andb_false_r. exists me, w. repeat split; auto; lia.
Qed.

(** The observer comes to watch what it is given, each element once. *)
Lemma observe_all (pending : list ElId) : forall io,
  NoDup (targets io) ->
  NoDup (targets (fold_left (fun o entry => Bio.io_observe entry o) pending io))
  /\ forall el,
       el ∈ targets (fold_left (fun o entry => Bio.io_observe entry o) pending io)
       <-> el ∈ targets io \/ el ∈ pending.
Proof.
  induction pending as [|x pending IH]; intros io Hnd; simpl.
  - split; [exact Hnd|]. intros el. rewrite elem_of_nil. tauto.
  - assert (Hx : NoDup (targets (Bio.io_observe x io))
                 /\ forall el, el ∈ targets (Bio.io_observe x io) <-> el ∈ targets io \/ el = x).
    { unfold Bio.io_observe. simpl. case_bool_decide as Hin.
      - split; [exact Hnd|]. intros el. split; [tauto|]. intros [H| ->]; assumption.
      - split.
        + apply NoDup_app. repeat split; auto.
          * intros y Hy Hy'. apply list_elem_of_singleton in Hy'. now subst.
          * apply NoDup_singleton.
        + intros el. now rewrite elem_of_app, list_elem_of_singleton. }
    destruct Hx as [Hnd' Hx]. destruct (IH _ Hnd') as [H1 H2]. split; [exact H1|].
    intros el. rewrite H2, Hx, elem_of_cons. tauto.
Qed.

(** None of the elements [init] finds is loaded. *)
Lemma found_not_loaded p root s sc el :
  In el (DOM.querySelectorAll p root (DOM.SelAnd s (DOM.SelNot (DOM.SelClass sc)))) ->
  DOM.contains p el sc = false.
Proof.
  unfold DOM.querySelectorAll. rewrite List.filter_In. intros [_ H]. simpl in H.
  apply andb_prop in H as [_ H]. now apply negb_true_iff in H.
Qed.

Lemma filter_all {A : Type} (f : A -> bool) (l : list A) :
  (forall x, In x l -> f x = true) -> List.filter f l = l.
Proof.
  induction l as [|x l IH]; intros H; [reflexivity|]. simpl.
  rewrite (H x (or_introl eq_refl)). f_equal. apply IH. intros y Hy. apply H. now right.
Qed.

(** [init] on a module that has not observed yet. *)
Lemma init_fresh me w :
  _observed (vars w) = false ->
  let found :=
    DOM.querySelectorAll (page w) (Options.root (Bio.options me))
      (DOM.SelAnd (Options.selector (Bio.options me))
         (DOM.SelNot (DOM.SelClass (Options.successClass (Bio.options me))))) in
  exists me' io w',
    Bio.init me w = Returned (me', w')
    /\ Bio.options me' = Bio.options me
    /\ Bio.elms me' = Some found
    /\ Bio.count me' = Z.of_nat (length found)
    /\ Bio.counted me' = Bio.counted me
    /\ Bio.erCounted me' = Bio.erCounted me
    /\ Bio.observer me' = Some io
    /\ NoDup (targets io)
    /\ (forall el, el ∈ targets io <-> el ∈ found)
    /\ vars w' = {| _bioTick := Z.of_nat (length found); _revTick := _revTick (vars w);
                    _disconnected := _disconnected (vars w); _observed := true |}
    /\ page w' = page w /\ images w' = images w.
Proof.
  intros Ho found. unfold Bio.init. rewrite Ho. fold found.
  unfold Bio.observe. cbn [Bio.elms Bio.observer].
  assert (Hp : List.filter
                 (fun entry => negb (Bio.isLoaded
                    {| Bio.options := Bio.options me; Bio.count := Z.of_nat (length found);
                       Bio.counted := Bio.counted me; Bio.erCounted := Bio.erCounted me;
                       Bio.elms := Some found; Bio.observer := Some {| targets := [] |};
                       Bio.windowWidth := dBlazy.windowWidth (window (page w)) |}
                    (page w) entry)) found = found).
  { apply filter_all. intros el Hel. unfold Bio.isLoaded. cbn [Bio.options].
    now rewrite (found_not_loaded _ _ _ _ _ Hel). }
  rewrite Hp.
  destruct (observe_all found {| targets := [] |} (NoDup_nil_2 (A:=ElId))) as [Hnd Hiff].
  assert (Hmem : forall el,
             el ∈ targets (fold_left (fun o entry => Bio.io_observe entry o) found
                             {| targets := [] |}) <-> el ∈ found).
  { intros el. rewrite Hiff. simpl. rewrite elem_of_nil. tauto. }
  destruct found as [|x found'] eqn:Hf.
  - eexists _, _, _. split; [reflexivity|]. simpl. repeat split; auto using NoDup_nil_2.
  - eexists _, _, _. split; [reflexivity|]. cbn [Bio.with_observer Bio.options Bio.elms
      Bio.count Bio.counted Bio.erCounted Bio.observer].
    repeat split; auto; apply Hmem.
Qed.

End InitFacts.

(** X3.  However often [me.revalidate] is called on an instance that holds
    its observer, it returns, leaves [counted] alone and never takes
    [_revTick] past [counted]: the calls that take effect are at most
    [counted - _revTick], and none does when [counted] is not above
    [_revTick] -- as on a new instance, whose [counted] is -1. *)
Theorem revalidate_bounded (me : Bio.t) (forces : list bool) (w : World) :
  is_Some (Bio.observer me) ->
  exists me' w',
    BioProto.revalidations forces (me, w) = Returned (me', w')
    /\ Bio.counted me' = Bio.counted me
    /\ _revTick (vars w) <= _revTick (vars w') <= Z.max (_revTick (vars w)) (Bio.counted me)
    /\ (Bio.counted me <= _revTick (vars w) -> me' = me /\ w' = w).
Proof.
  unfold BioProto.revalidations. revert me w.
  induction forces as [|force forces IH]; intros me w Hio.
  - exists me, w. repeat split; auto; lia.
  - cbn [forEach fst snd].
    destruct (InitFacts.revalidate_step me force w Hio)
      as (me1 & w1 & -> & Hio1 & Hc1 & Hr1 & Hsame1).
    cbn [and_then].
    destruct (IH me1 w1 Hio1) as (me' & w' & -> & Hc' & Hr' & Hsame').
    exists me', w'. split; [reflexivity|]. split; [congruence|]. split; [lia|].
    intros Hle. destruct (Hsame1 Hle) as [-> ->]. apply Hsame'. exact Hle.
Qed.

Lemma revalidate_bounded_witness :
  exists me' w',
    BioProto.revalidations [true; false; true] (Fixture.troubled, Sample.world0)
      = Returned (me', w')
    /\ Bio.counted me' = Bio.counted Fixture.troubled
    /\ _revTick (vars Sample.world0) <= _revTick (vars w')
       <= Z.max (_revTick (vars Sample.world0)) (Bio.counted Fixture.troubled)
    /\ (Bio.counted Fixture.troubled <= _revTick (vars Sample.world0) ->
        me' = Fixture.troubled /\ w' = Sample.world0).
Proof.
  apply (revalidate_bounded Fixture.troubled [true; false; true] Sample.world0).
  vm_compute. eauto.
Defined.

(** X5.  After a forced [disconnect], [me.observe()] throws ([me.elms] is
    [null]) while [me.reinit()] returns: the module is no longer
    disconnected, the elements are found anew and a new observer watches
    each of them; the counters [counted] and [erCounted] are kept. *)
Theorem reinit_after_disconnect (me : Bio.t) (w : World) (me1 : Bio.t) (w1 : World) :
  Bio.disconnect me true w = Returned (me1, w1) ->
  let found :=
    DOM.querySelectorAll (page w) (Options.root (Bio.options me))
      (DOM.SelAnd (Options.selector (Bio.options me))
         (DOM.SelNot (DOM.SelClass (Options.successClass (Bio.options me))))) in
  Bio.disconnected me1 w1 = true
  /\ Bio.observe me1 w1 = Thrown (me1, w1)
  /\ exists me2 io w2,
       Bio.reinit me1 w1 = Returned (me2, w2)
       /\ Bio.disconnected me2 w2 = false
       /\ Bio.elms me2 = Some found
       /\ Bio.count me2 = Z.of_nat (length found)
       /\ Bio.observer me2 = Some io
       /\ (forall el, el ∈ targets io <-> el ∈ found)
       /\ Bio.counted me2 = Bio.counted me
       /\ Bio.erCounted me2 = Bio.erCounted me.
Proof.
  intros Hd found. unfold Bio.disconnect in Hd.
  rewrite andb_false_r, orb_true_r in Hd.
  destruct (Bio.observer me) as [io0|] eqn:Hio; [|discriminate Hd].
  injection Hd as <- <-.
  split; [reflexivity|]. split; [reflexivity|].
  unfold Bio.reinit.
  match goal with
  | |- context [Bio.init ?m ?x] =>
      destruct (InitFacts.init_fresh m x eq_refl)
        as (me2 & io & w2 & -> & Ho & He & Hn & Hc & Hec & Hob & _ & Hmem & Hv & _)
  end.
  exists me2, io, w2. split; [reflexivity|].
  unfold Bio.disconnected. rewrite Hv. simpl in *.
  repeat split; auto; apply Hmem.
Qed.

Lemma reinit_after_disconnect_witness :
  Bio.disconnected (fst (Fixture.reached (Bio.disconnect Fixture.plain true Fixture.world_plain)))
    (snd (Fixture.reached (Bio.disconnect Fixture.plain true Fixture.world_plain))) = true
  /\ Bio.observe (fst (Fixture.reached (Bio.disconnect Fixture.plain true Fixture.world_plain)))
       (snd (Fixture.reached (Bio.disconnect Fixture.plain true Fixture.world_plain)))
     = Thrown (fst (Fixture.reached (Bio.disconnect Fixture.plain true Fixture.world_plain)),
               snd (Fixture.reached (Bio.disconnect Fixture.plain true Fixture.world_plain))).
Proof.
  destruct (reinit_after_disconnect Fixture.plain Fixture.world_plain
              (fst (Fixture.reached (Bio.disconnect Fixture.plain true Fixture.world_plain)))
              (snd (Fixture.reached (Bio.disconnect Fixture.plain true Fixture.world_plain))))
    as (H1 & H2 & _).
  - vm_compute. reflexivity.
  - split; [exact H1 | exact H2].
Defined.

Module RevalidateFacts.

(** What the observer watches once it has been given [pending]. *)
Lemma observe_members (pending : list ElId) : forall io el,
  el ∈ targets (fold_left (fun o entry => Bio.io_observe entry o) pending io)
  <-> el ∈ targets io \/ el ∈ pending.
Proof.
  induction pending as [|x pending IH]; intros io el; simpl.
  - rewrite elem_of_nil. tauto.
  - rewrite IH, elem_of_cons. unfold Bio.io_observe. simpl. case_bool_decide as Hin.
    + split; [tauto|]. intros [H|[->|H]]; auto.
    + rewrite elem_of_app, list_elem_of_singleton. tauto.
Qed.

End RevalidateFacts.

(** X6.  A call of [me.revalidate] that takes effect -- forced, or with
    [count] and [counted] apart, and [_revTick] below [counted] -- takes
    the module out of the disconnected state, finds anew every element
    that matches the selector, loaded or not, sets [_bioTick] to their
    number and has the observer watch, besides what it watched, those of
    them that are not loaded; [_revTick] goes up by one, and [count] is
    left as it was. *)
Theorem revalidate_reobserves (me : Bio.t) (force : bool) (w : World)
    (io : IntersectionObserver) :
  Bio.observer me = Some io ->
  force = true \/ Bio.count me <> Bio.counted me ->
  _revTick (vars w) < Bio.counted me ->
  let matching :=
    DOM.querySelectorAll (page w) (Options.root (Bio.options me))
      (Options.selector (Bio.options me)) in
  exists me' io' w',
    BioProto.revalidate me force w = Returned (me', w')
    /\ Bio.elms me' = Some matching
    /\ Bio.count me' = Bio.count me
    /\ Bio.observer me' = Some io'
    /\ (forall el, el ∈ targets io'
                   <-> el ∈ targets io
                       \/ (el ∈ matching /\ Bio.isLoaded me (page w) el = false))
    /\ vars w' = {| _bioTick := Z.of_nat (length matching);
                    _revTick := _revTick (vars w) + 1;
                    _disconnected := false;
                    _observed := _observed (vars w) |}
    /\ page w' = page w.
Proof.
  intros Hio Hf Hlt matching. unfold BioProto.revalidate.
  assert (Hcond : (force || negb (Bio.count me =? Bio.counted me))
                  && (_revTick (vars w) <? Bio.counted me) = true).
  { apply andb_true_intro. split; [|now apply Z.ltb_lt].
    destruct Hf as [->|Hne]; [reflexivity|].
    apply orb_true_intro. right. apply negb_true_iff. now apply Z.eqb_neq. }
  rewrite Hcond. cbn [set_disconnected with_vars page]. fold matching.
  unfold Bio.observe. cbn [BioProto.with_elms Bio.elms Bio.observer]. rewrite Hio.
  set (pending := List.filter _ matching).
  assert (Hpend : forall el, el ∈ pending
                             <-> el ∈ matching /\ Bio.isLoaded me (page w) el = false).
  { intros el. subst pending. rewrite !list_elem_of_In, List.filter_In.
    unfold Bio.isLoaded. cbn [Bio.options]. now rewrite negb_true_iff. }
  destruct pending as [|x pending'] eqn:Ep; cbn [and_then fst snd].
  - exists (BioProto.with_elms (Some matching) me), io. eexists. split; [reflexivity|].
    cbn [BioProto.with_elms Bio.elms Bio.count Bio.observer].
    split; [reflexivity|]. split; [reflexivity|]. split; [exact Hio|].
    split; [|split; reflexivity].
    intros el. rewrite <- Hpend, elem_of_nil. tauto.
  - eexists _, _, _. split; [reflexivity|].
    cbn [Bio.with_observer BioProto.with_elms Bio.elms Bio.count Bio.observer].
    split; [reflexivity|]. split; [reflexivity|]. split; [reflexivity|].
    split; [|split; reflexivity].
    intros el. rewrite (RevalidateFacts.observe_members (x :: pending') io el).
    now rewrite Hpend.
Qed.

Lemma revalidate_reobserves_witness :
  exists me' io' w',
    BioProto.revalidate Fixture.troubled true Sample.world0 = Returned (me', w')
    /\ Bio.elms me' = Some [1; 5; 6; 8; 9]%nat
    /\ Bio.count me' = Bio.count Fixture.troubled
    /\ Bio.observer me' = Some io'.
Proof.
  destruct (revalidate_reobserves Fixture.troubled true Sample.world0
              {| targets := [6; 8; 9]%nat |})
    as (me' & io' & w' & H1 & H2 & H3 & H4 & _).
  - reflexivity.
  - left. reflexivity.
  - vm_compute. reflexivity.
  - exists me', io', w'. repeat split; assumption.
Defined.

(** ** Bio: destroy *)

(** X7.  [me.destroy] lets go of the observer whether or not it has
    disconnected it: without force and with an error pending the observer
    is not disconnected at all.  Afterwards a forced [disconnect] throws,
    and so does [me.intersecting] -- once it has loaded the element --
    unless the module is disconnected; [me.reinit] gives the instance an
    observer again. *)
Theorem destroy_leaves_unusable (me : Bio.t) (force : bool) (w : World)
    (me1 : Bio.t) (w1 : World) :
  Bio.destroy me force w = Returned (me1, w1) ->
  Bio.observer me1 = None
  /\ Bio.disconnect me1 true w1 = Thrown (me1, w1)
  /\ (_disconnected (vars w1) = false ->
      forall c h el, exists s, BioProto.intersecting c h me1 el w1 = Thrown s)
  /\ (force = false -> 0 < Bio.erCounted me -> me1 = Bio.with_observer None me /\ w1 = w)
  /\ exists me2 w2 io, Bio.reinit me1 w1 = Returned (me2, w2) /\ Bio.observer me2 = Some io.
Proof.
  intros Hd. unfold Bio.destroy in Hd.
  destruct (Bio.disconnect me force w) as [[me0 w0]|] eqn:E; [|discriminate Hd].
  injection Hd as <- <-.
  split; [reflexivity|]. split.
  { unfold Bio.disconnect. cbn [Bio.with_observer Bio.observer negb].
    now rewrite andb_false_r, orb_true_r. }
  split.
  { intros Hdis c h el. unfold BioProto.intersecting.
    set (w2 := on_page (dBlazy.trigger el "bio.intersecting") _).
    assert (Hv2 : vars w2 = vars w0).
    { subst w2. now destruct (BioProto.intersecting_option h). }
    destruct (EngineFacts.lazyLoad_instance c (Bio.with_observer None me0) el w2)
      as [[n Hme] Hv].
    destruct (BioProto.lazyLoad c (Bio.with_observer None me0) el w2) as [me3 w3].
    cbn [fst snd] in Hme, Hv. subst me3. rewrite Hv2 in Hv. rewrite Hv, Hdis.
    cbn [BioProto.with_counted Bio.with_erCounted Bio.with_observer Bio.observer].
    eauto. }
  split.
  { intros -> Hpos. unfold Bio.disconnect in E. apply Z.ltb_lt in Hpos.
    rewrite Hpos in E. cbn [negb andb] in E. injection E as <- <-. auto. }
  unfold Bio.reinit.
  match goal with
  | |- context [Bio.init ?m ?x] =>
      destruct (InitFacts.init_fresh m x eq_refl)
        as (me2 & io & w2 & -> & _ & _ & _ & _ & _ & Hob & _)
  end.
  eauto.
Qed.

Lemma destroy_leaves_unusable_witness :
  Bio.observer (Bio.with_observer None Fixture.troubled) = None
  /\ Bio.disconnect (Bio.with_observer None Fixture.troubled) true Sample.world0
     = Thrown (Bio.with_observer None Fixture.troubled, Sample.world0).
Proof.
  destruct (destroy_leaves_unusable Fixture.troubled false Sample.world0
              (Bio.with_observer None Fixture.troubled) Sample.world0)
    as (H1 & H2 & _).
  - vm_compute. reflexivity.
  - split; [exact H1 | exact H2].
Defined.

(** ** dBlazy.activeWidth, mobile first *)


Module MobileFirstFacts.

Import JS Breakpoints.

Lemma le_widths (w ww : Z) : JS.le (of_Z w) (of_Z ww) = (w <=? ww).
Proof.
  unfold JS.le, JS.ge, of_Z.
  destruct (Qle_bool (inject_Z w) (inject_Z ww)) eqn:E.
  - apply Qle_bool_iff in E. rewrite <- Zle_Qle in E. symmetry. now apply Z.leb_le.
  - symmetry. apply Z.leb_gt. apply Z.nle_gt. intros H. rewrite Zle_Qle in H.
    apply Qle_bool_iff in H. congruence.
Qed.

Section Mobile_first.

Variable ww : Z.


Lemma fits_width (k : string) (w : Z) : width_of k = Some w -> (MobileFirst.fits ww) k = (w <=? ww).
Proof.
  intros H. unfold MobileFirst.fits. rewrite (NumeralFacts.parseInt_width k w H). apply le_widths.
Qed.

(** When every key is above the width, none passes the filter. *)
Lemma filter_above (d : object) : forall ws,
  widths d = Some ws ->
  (forall k w v, entry d k w v -> ww < w) ->
  List.filter (MobileFirst.fits ww) (Object_keys d) = [].
Proof.
  induction d as [|[k0 v0] d IH]; intros ws Hw Hno; [reflexivity|].
  apply ActiveWidthFacts.widths_cons in Hw as (w0 & ws' & -> & Hk0 & Hw').
  simpl. rewrite (fits_width _ _ Hk0).
  assert (H0 : ww < w0) by (apply (Hno k0 w0 v0); split; [now left | exact Hk0]).
  apply Z.leb_gt in H0. rewrite H0.
  apply (IH ws' Hw'). intros k w v [Hin Hk]. apply (Hno k w v).
  split; [now right | exact Hk].
Qed.

(** The largest key that is at most the width is the last to pass. *)
Lemma filter_last (d : object) : forall ws k w v,
  widths d = Some ws -> ascending ws = true ->
  entry d k w v -> w <= ww ->
  (forall k' w' v', entry d k' w' v' -> w' <= ww -> w' <= w) ->
  exists before, List.filter (MobileFirst.fits ww) (Object_keys d) = before ++ [k].
Proof.
  induction d as [|[k0 v0] d IH]; intros ws k w v Hw Ha [Hin Hk] Hq Hmax;
    [destruct Hin|].
  apply ActiveWidthFacts.widths_cons in Hw as (w0 & ws' & -> & Hk0 & Hw').
  apply ActiveWidthFacts.ascending_cons in Ha as [Hlt Ha'].
  simpl. rewrite (fits_width _ _ Hk0).
  destruct Hin as [[= <- <-] | Hin].
  - rewrite Hk0 in Hk. injection Hk as <-.
    apply Z.leb_le in Hq. rewrite Hq. exists [].
    simpl. f_equal. apply (filter_above d ws' Hw').
    intros k' w' v' [Hin' Hk'].
    destruct (Z.lt_ge_cases ww w') as [|Hle]; [assumption|]. exfalso.
    assert (w' <= w0) by (apply (Hmax k' w' v'); [split; [now right | exact Hk'] | exact Hle]).
    destruct (ActiveWidthFacts.widths_In _ _ _ _ Hw' Hin') as (w'' & Hk'' & Hi).
    rewrite Hk' in Hk''. injection Hk'' as <-.
    rewrite List.Forall_forall in Hlt. apply Hlt in Hi. lia.
  - destruct (IH ws' k w v Hw' Ha') as [before Hb].
    + split; assumption.
    + exact Hq.
    + intros k' w' v' [Hin' Hk'] Hq'. apply (Hmax k' w' v'); [|exact Hq'].
      split; [now right | exact Hk'].
    + rewrite Hb. destruct (w0 <=? ww); eauto. exists (k0 :: before). reflexivity.
Qed.

End Mobile_first.

(** The value of the largest key that is at most the window width. *)
Lemma pick_largest (win : Window) (D : object) (k : string) (w : Z) (v : value) :
  dataset D ->
  entry D k w v -> w <= dBlazy.windowWidth win ->
  (forall k' w' v', entry D k' w' v' -> w' <= dBlazy.windowWidth win -> w' <= w) ->
  dBlazy.activeWidth win D true = v.
Proof.
  intros [(ws & Hw & Ha) Hdef] He Hq Hmax. unfold dBlazy.activeWidth.
  fold (MobileFirst.fits (dBlazy.windowWidth win)).
  destruct (filter_last (dBlazy.windowWidth win) D ws k w v Hw Ha He Hq Hmax) as [before ->].
  rewrite map_app. simpl map. unfold JS.pop. rewrite last_last.
  destruct He as [Hin _].
  rewrite (ActiveWidthFacts.get_entry D ws k v Hw Ha Hin).
  apply ActiveWidthFacts.keep_defined.
  rewrite List.Forall_forall in Hdef. exact (Hdef _ Hin).
Qed.

End MobileFirstFacts.

(** X8.  Mobile first, [dBlazy.activeWidth] returns, for a breakpoint
    dataset [D] (keys that are widths, in ascending order), the value of
    the largest key that is at most the window width -- the pixel ratio
    plays no part.  When every key is above the window width it returns
    the value of the first key ([undefined] when there is none). *)
Theorem activeWidth_mobile_first (win : Window) (D : JS.object) :
  Breakpoints.dataset D ->
  let ww := dBlazy.windowWidth win in
  let result := dBlazy.activeWidth win D true in
  (forall k w v,
      Breakpoints.entry D k w v -> w <= ww ->
      (forall k' w' v', Breakpoints.entry D k' w' v' -> w' <= ww -> w' <= w) ->
      result = v)
  /\ ((forall k w v, Breakpoints.entry D k w v -> ww < w) ->
      result = match head D with
               | Some (_, v) => v
               | None => JS.Undefined
               end).
Proof.
  intros Hd ww result. subst result. split.
  { intros k w v He Hq Hmax. exact (MobileFirstFacts.pick_largest win D k w v Hd He Hq Hmax). }
  destruct Hd as [(ws & Hw & Ha) Hdef]. unfold dBlazy.activeWidth.
  fold ww. fold (MobileFirst.fits ww).
  - intros Hno. rewrite (MobileFirstFacts.filter_above ww D ws Hw Hno).
    cbn [map]. unfold JS.pop. cbn [List.last].
    rewrite ActiveWidthFacts.last_keys.
    destruct D as [|[k0 v0] D']; [reflexivity|].
    destruct (last ((k0, v0) :: D')) as [[k v]|] eqn:Hl.
    + pose proof (ActiveWidthFacts.last_In _ _ Hl) as Hin.
      destruct (ActiveWidthFacts.widths_In _ _ _ _ Hw Hin) as (w & Hk & _).
      cbn [option_map fst]. unfold JS.ToNumber.
      rewrite (NumeralFacts.StringToNumber_width k w Hk).
      assert (Hlt : ww < w) by (apply (Hno k w v); split; assumption).
      change (JS.ge (JS.of_Z ww) (JS.of_Z w)) with (JS.le (JS.of_Z w) (JS.of_Z ww)).
      rewrite MobileFirstFacts.le_widths. apply Z.leb_gt in Hlt. rewrite Hlt.
      simpl. now rewrite String.eqb_refl.
    + exfalso. clear - Hl. revert k0 v0 Hl.
      induction D' as [|x D' IH]; intros k0 v0 Hl; [discriminate|].
      destruct x as [k1 v1]. exact (IH k1 v1 Hl).
Qed.

Lemma activeWidth_mobile_first_witness :
  Breakpoints.dataset Sample.abc
  /\ dBlazy.activeWidth Sample.win900 Sample.abc true = JS.Str "b.jpg".
Proof.
  split; [exact abc_dataset|].
  apply (proj1 (activeWidth_mobile_first Sample.win900 Sample.abc abc_dataset)
           "768" 768 (JS.Str "b.jpg")).
  - split; [simpl; tauto | reflexivity].
  - vm_compute. discriminate.
  - intros k' w' v' [Hin Hk] Hq. simpl in Hin.
    destruct Hin as [[= <- <-]|[[= <- <-]|[[= <- <-]|[]]]].
    all: vm_compute in Hk; injection Hk as <-; vm_compute in Hq.
    all: try (exfalso; apply Hq; reflexivity).
    all: lia.
Defined.

(** X9.  At a breakpoint the two modes agree: when the window is as wide
    as a key of the dataset and the pixel ratio is 1, [dBlazy.activeWidth]
    returns the value of that key, mobile first or not. *)
Theorem activeWidth_at_breakpoint (win : Window) (D : JS.object)
    (k : string) (w : Z) (v : JS.value) :
  Breakpoints.dataset D ->
  Breakpoints.entry D k w v ->
  dBlazy.windowWidth win = w ->
  (dBlazy.pixelRatio win == 1)%Q ->
  dBlazy.activeWidth win D true = v /\ dBlazy.activeWidth win D false = v.
Proof.
  intros Hd He Hw Hr. split.
  - apply (MobileFirstFacts.pick_largest win D k w v Hd He); [lia|].
    intros k' w' v' _ H. lia.
  - assert (Heff : (Breakpoints.effectiveWidth win == inject_Z w)%Q).
    { rewrite (ActiveWidthFacts.effectiveWidth_ratio_1 win Hr), Hw. reflexivity. }
    apply (ActiveWidthFacts.pick_smallest win D k w v Hd He).
    + rewrite Heff. apply Qle_refl.
    + intros k' w' v' _ H. rewrite Heff in H. rewrite Zle_Qle. exact H.
Qed.

Lemma activeWidth_at_breakpoint_witness :
  dBlazy.activeWidth
    {| innerWidth := 768; documentElement_clientWidth := 0; body_clientWidth := 0;
       screen_width := 1920; devicePixelRatio := 1; picturefill := false |}
    Sample.abc true = JS.Str "b.jpg"
  /\ dBlazy.activeWidth
       {| innerWidth := 768; documentElement_clientWidth := 0; body_clientWidth := 0;
          screen_width := 1920; devicePixelRatio := 1; picturefill := false |}
       Sample.abc false = JS.Str "b.jpg".
Proof.
  apply (activeWidth_at_breakpoint _ Sample.abc "768" 768 (JS.Str "b.jpg")).
  - exact abc_dataset.
  - split; [simpl; tauto | reflexivity].
  - reflexivity.
  - reflexivity.
Defined.

(** ** dBlazy.closest *)

Module TreeFacts.

Import DOM.

(** Induction on a tree, the children being trees in turn. *)
Lemma Tree_induction (P : Tree -> Prop) :
  (forall i cs, Forall P cs -> P (Node i cs)) -> forall t, P t.
Proof.
  intros H. fix IH 1. intros [i cs]. apply H.
  induction cs as [|c cs IHcs]; constructor; [apply IH | exact IHcs].
Qed.

(** An element is none of its ancestors. *)
Lemma ancestors_in_proper (el : ElId) (t : Tree) :
  forall up, ancestors_in el t = Some up -> ~ In el up.
Proof.
  induction t as [i cs IH] using Tree_induction. intros up. simpl.
  destruct (Nat.eqb_spec i el) as [->|Hne].
  - intros [= <-] [].
  - revert up. induction cs as [|c cs IHcs]; intros up; simpl; [discriminate|].
    apply Forall_cons in IH as [Hc Hcs].
    destruct (ancestors_in el c) as [up'|] eqn:E.
    + intros [= <-]. rewrite in_app_iff. intros [H|[H|[]]].
      * exact (Hc up' eq_refl H).
      * congruence.
    + apply IHcs. exact Hcs.
Qed.

Lemma not_own_ancestor p el : ~ In el (ancestors p el).
Proof.
  unfold ancestors. destruct (ancestors_in el (tree p)) as [up|] eqn:E; simpl.
  - now apply (ancestors_in_proper el (tree p)).
  - intros [].
Qed.

(** What [find] finds is the first that passes. *)
Lemma find_first {A : Type} (f : A -> bool) (l : list A) :
  match List.find f l with
  | Some a =>
      f a = true
      /\ exists before after, l = before ++ a :: after /\ forall b, In b before -> f b = false
  | None => forall a, In a l -> f a = false
  end.
Proof.
  induction l as [|x l IH]; simpl; [intros a []|].
  destruct (f x) eqn:Hx.
  - split; [exact Hx|]. exists [], l. split; [reflexivity | intros b []].
  - destruct (List.find f l) as [a|].
    + destruct IH as (Ha & before & after & -> & Hb). split; [exact Ha|].
      exists (x :: before), after. split; [reflexivity|].
      intros b [<-|Hin]; auto.
    + intros a [<-|Hin]; auto.
Qed.

End TreeFacts.

(** X10.  [dBlazy.closest] gives the nearest ancestor of the element that
    matches the selector: an element other than the one it starts from
    -- even when that one matches, unlike [Element.closest] --, with no
    match between the two; it gives [null] exactly when no ancestor
    matches. *)
Theorem closest_nearest_ancestor (p : Page) (el : ElId) (s : DOM.Selector) :
  match dBlazy.closest p el s with
  | Some a =>
      a <> el
      /\ DOM.matches p a s = true
      /\ exists nearer farther,
           DOM.ancestors p el = nearer ++ a :: farther
           /\ forall b, In b nearer -> DOM.matches p b s = false
  | None => forall a, In a (DOM.ancestors p el) -> DOM.matches p a s = false
  end.
Proof.
  unfold dBlazy.closest.
  pose proof (TreeFacts.find_first (fun a => DOM.matches p a s) (DOM.ancestors p el)) as H.
  destruct (List.find _ (DOM.ancestors p el)) as [a|]; [|exact H].
  destruct H as (Hm & nearer & farther & Hl & Hn).
  split; [|split; [exact Hm | eauto]].
  intros ->. apply (TreeFacts.not_own_ancestor p el).
  rewrite Hl, in_app_iff. right. now left.
Qed.

(** ** dBlazy.extend *)

Module SettingsFacts.

Import Settings.

(** Assigning every property of a source amounts to laying the source
    over the object. *)
Lemma assign_union {V : Type} (source out : gmap string V) : assign source out = source ∪ out.
Proof.
  unfold assign.
  apply (map_fold_weak_ind (fun r (m : gmap string V) => r = m ∪ out)).
  - now rewrite (left_id_L ∅ (∪)).
  - intros i x m r _ ->. now rewrite insert_union_l.
Qed.

Lemma extend_snoc {V : Type} (out : gmap string V) sources source :
  extend out (sources ++ [source]) =
    match source with
    | Some s => s ∪ extend out sources
    | None => extend out sources
    end.
Proof.
  unfold extend. rewrite fold_left_app. simpl.
  destruct source; [apply assign_union | reflexivity].
Qed.

Lemma lookup_over {V : Type} (a b : gmap string V) k :
  (a ∪ b) !! k = match a !! k with
                 | Some v => Some v
                 | None => b !! k
                 end.
Proof. rewrite lookup_union. destruct (a !! k), (b !! k); reflexivity. Qed.

Lemma globals_union bs io : globals bs io = commons ∪ (io ∪ bs).
Proof.
  unfold globals. change [Some io; Some commons] with ([Some io] ++ [Some commons]).
  rewrite extend_snoc. change [Some io] with ([] ++ [Some io]).
  now rewrite extend_snoc.
Qed.

End SettingsFacts.

(** X11.  [dBlazy.extend] merges the sources into [out] in their order: a
    property of a later source wins over the same property of an earlier
    one and over that of [out]; a property no source has keeps the value
    [out] had; a falsy source is passed over; without sources [out] is
    returned as it is. *)
Theorem extend_later_wins {V : Type} (out : gmap string V)
    (sources : list (option (gmap string V))) :
  Settings.extend out [] = out
  /\ Settings.extend out (sources ++ [None]) = Settings.extend out sources
  /\ (forall s k,
        Settings.extend out (sources ++ [Some s]) !! k =
          match s !! k with
          | Some v => Some v
          | None => Settings.extend out sources !! k
          end)
  /\ (forall k,
        Forall (fun source => match source with
                              | Some s => s !! k = None
                              | None => True
                              end) sources ->
        Settings.extend out sources !! k = out !! k).
Proof.
  split; [reflexivity|]. split; [apply (SettingsFacts.extend_snoc out sources None)|].
  split.
  - intros s k. rewrite (SettingsFacts.extend_snoc out sources (Some s)).
    apply SettingsFacts.lookup_over.
  - intros k. induction sources as [|source sources IH] using rev_ind; [reflexivity|].
    intros H. apply Forall_app in H as [H1 H2]. inversion_clear H2 as [|? ? H2' _].
    rewrite SettingsFacts.extend_snoc. destruct source as [s|]; [|auto].
    rewrite SettingsFacts.lookup_over, H2'. auto.
Qed.

(** X12.  Whatever the site settings hold, what [Drupal.blazy.globals]
    returns has the properties of [commons] -- [success] and [error] are
    [clearing], the selector is [.b-lazy], the classes are [b-error] and
    [b-loaded] --; any other property comes from [ioSettings] or else from
    [blazySettings].  As the result is left in [blazySettings], a second
    call gives the same again. *)
Theorem globals_commons_win (blazySettings ioSettings : gmap string Settings.Setting) :
  let result := Settings.globals blazySettings ioSettings in
  (forall k v, Settings.commons !! k = Some v -> result !! k = Some v)
  /\ result !! "success" = Some (Settings.Function Blazy.clearing)
  /\ result !! "error" = Some (Settings.Function Blazy.clearing)
  /\ result !! "errorClass" = Some (Settings.Plain (JS.Str "b-error"))
  /\ result !! "successClass" = Some (Settings.Plain (JS.Str "b-loaded"))
  /\ (forall k, Settings.commons !! k = None ->
        result !! k = match ioSettings !! k with
                      | Some v => Some v
                      | None => blazySettings !! k
                      end)
  /\ Settings.globals result ioSettings = result.
Proof.
  intros result. subst result.
  assert (Hc : forall k v, Settings.commons !! k = Some v ->
                 Settings.globals blazySettings ioSettings !! k = Some v).
  { intros k v H. now rewrite SettingsFacts.globals_union, SettingsFacts.lookup_over, H. }
  split; [exact Hc|].
  repeat (split; [apply Hc; reflexivity|]).
  split.
  - intros k H.
    now rewrite SettingsFacts.globals_union, !SettingsFacts.lookup_over, H.
  - rewrite !SettingsFacts.globals_union. apply map_eq. intros k.
    rewrite !SettingsFacts.lookup_over.
    destruct (Settings.commons !! k), (ioSettings !! k); reflexivity.
Qed.

(** ** dBlazy.once and dBlazy.throttle *)

Module ClosureFacts.

Import Closures.

(** Once it has run, the proxy gives its result back and does nothing
    else. *)
Lemma proxies_ran {A R S : Type} (fn : A -> S -> Result R S) (c : Cell R) (args : list A) :
  ran c = true ->
  forall s, proxies fn c args s = map (fun _ => Gave (result c) s) args.
Proof.
  intros Hc. induction args as [|a args IH]; intros s; [reflexivity|].
  cbn [proxies map]. unfold proxy. rewrite Hc. cbn [state_after]. now rewrite IH.
Qed.

(** From [lastCall] on, the runs keep their distance. *)
Lemma runs_spaced (minDelay : Z) (times : list Z) : forall lastCall,
  spaced minDelay lastCall (runs minDelay lastCall times).
Proof.
  induction times as [|now times IH]; intros lastCall; [exact I|].
  cbn [runs]. unfold throttled.
  destruct (now - lastCall <? minDelay) eqn:E.
  - apply IH.
  - apply Z.ltb_ge in E. cbn [spaced]. split; [exact E | apply IH].
Qed.

End ClosureFacts.

(** X13.  The function [dBlazy.once(fn)] returns runs [fn] on its first
    call only: every later call, whatever its arguments, returns what the
    first call returned -- [undefined] when [fn] threw -- and leaves the
    state as the first call left it. *)
Theorem once_runs_once {A R S : Type} (fn : A -> S -> Closures.Result R S)
    (a : A) (later : list A) (s : S) :
  let first := snd (Closures.proxy fn Closures.once a s) in
  let value := match first with
               | Closures.Gave r _ => r
               | Closures.Threw _ => None
               end in
  first = match fn a s with
          | Closures.Gave r s' => Closures.Gave (Some r) s'
          | Closures.Threw s' => Closures.Threw s'
          end
  /\ Closures.proxies fn Closures.once (a :: later) s
     = first :: map (fun _ => Closures.Gave value (Closures.state_after first)) later.
Proof.
  cbn [Closures.proxies]. unfold Closures.proxy. cbn [Closures.once Closures.ran].
  destruct (fn a s) as [r s'|s']; cbn [snd Closures.state_after].
  - split; [reflexivity|]. f_equal.
    exact (ClosureFacts.proxies_ran fn {| Closures.ran := true; Closures.result := Some r |}
             later eq_refl s').
  - split; [reflexivity|]. f_equal.
    exact (ClosureFacts.proxies_ran fn {| Closures.ran := true; Closures.result := None |}
             later eq_refl s').
Qed.

(** X14.  However the calls of a throttled function come, [fn] is run at
    times that lie at least [minDelay] apart, the first of them at least
    [minDelay] after time 0; a call that comes [minDelay] or more after
    the last run is not dropped. *)
Theorem throttle_spaces_runs (minDelay : Z) (times : list Z) :
  Closures.spaced minDelay 0 (Closures.runs minDelay 0 times)
  /\ (forall t, In t (Closures.runs minDelay 0 times) -> In t times)
  /\ (forall lastCall now,
        fst (Closures.throttled minDelay lastCall now) = true <-> minDelay <= now - lastCall).
Proof.
  split; [apply ClosureFacts.runs_spaced|]. split.
  - generalize 0. induction times as [|now times IH]; intros lastCall t; [intros []|].
    cbn [Closures.runs]. unfold Closures.throttled.
    destruct (now - lastCall <? minDelay).
    + intros H. right. exact (IH _ _ H).
    + intros [<-|H]; [now left | right; exact (IH _ _ H)].
  - intros lastCall now. unfold Closures.throttled.
    destruct (now - lastCall <? minDelay) eqn:E; simpl.
    + apply Z.ltb_lt in E. split; [discriminate | lia].
    + apply Z.ltb_ge in E. tauto.
Qed.

(** ** BioMedia: when a probe is made *)

(** X15.  [me.lazyLoad] of BioMedia preloads -- makes one image probe, with
    the sources read from [data-src] and [data-srcset] -- exactly for an
    element that is not marked [data-bio-hit], is not inside a [picture],
    is no [video], and is an [img] or a background block (no [src]
    property, and the background class).  Then it writes nothing but the
    marker: classes and real attributes wait for the probe to report.
    For any other element no probe is made. *)
Theorem lazyLoad_probes (me : Bio.t) (el : ElId) (w : World) :
  let p := page w in
  let isBg := DOM.src_undefined p el && DOM.contains p el (Options.bgClass (Bio.options me)) in
  let preloads :=
    negb (DOM.hasAttribute p el "data-bio-hit")
    && negb (dBlazy.equal p (DOM.parentNode p el) "picture")
    && negb (dBlazy.equal p (Some el) "video")
    && (dBlazy.equal p (Some el) "img" || isBg) in
  let probe :=
    {| for_element := el; background := isBg;
       image_src := DOM.getAttribute p el "data-src";
       image_srcset := DOM.getAttribute p el "data-srcset" |} in
  let done := BioMedia.lazyLoad me el w in
  if preloads
  then images (snd done) = images w ++ [probe]
       /\ fst done = me
       /\ page (snd done) = DOM.setAttribute el "data-bio-hit" "1" p
  else images (snd done) = images w.
Proof.
  intros p isBg preloads probe done. subst preloads done.
  unfold BioMedia.lazyLoad. fold p.
  destruct (DOM.hasAttribute p el "data-bio-hit"); [reflexivity|]. cbn [negb andb].
  unfold BioMedia.lazyLoad_branch. fold p. fold isBg.
  destruct (dBlazy.equal p (DOM.parentNode p el) "picture"); cbn [negb andb].
  { destruct (Bio.loaded _ _ _ _) as [me1 w1] eqn:E. cbn [Bio.lazyLoad snd on_page images].
    change w1 with (snd (me1, w1)). rewrite <- E. now rewrite BioFacts.loaded_images. }
  destruct (dBlazy.equal p (Some el) "video"); cbn [negb andb].
  { destruct (Bio.loaded _ _ _ _) as [me1 w1] eqn:E. cbn [Bio.lazyLoad snd on_page images].
    change w1 with (snd (me1, w1)). rewrite <- E. now rewrite BioFacts.loaded_images. }
  destruct (dBlazy.equal p (Some el) "img" || isBg).
  { cbn [Bio.lazyLoad fst snd on_page images page BioMedia.setImage BioMedia.promise].
    subst probe. fold p.
    destruct isBg; repeat split. }
  destruct (DOM.getAttribute p el BioMedia._dataSrc) as [[|c t]|]; try reflexivity.
  destruct (DOM.hasAttribute p el BioMedia._src); [|reflexivity].
  destruct (Bio.loaded _ _ _ _) as [me1 w1] eqn:E. cbn [Bio.lazyLoad snd on_page images].
  change w1 with (snd (me1, w1)). rewrite <- E. now rewrite BioFacts.loaded_images.
Qed.

(** ** dBlazy.setAttr over the sources of a picture or a video *)

Module SourcesFacts.

Import DOM DOMFacts.

Lemma data_name_differs (attr : string) : "data-" +:+ attr <> attr.
Proof.
  intros H. apply (f_equal String.length) in H.
  change ("data-" +:+ attr) with
    (String "d" (String "a" (String "t" (String "a" (String "-" attr))))) in H.
  simpl in H. lia.
Qed.

(** [dBlazy.setAttr] changes no other element. *)
Lemma setAttr_other el attr remove p e :
  e <> el -> node (dBlazy.setAttr el attr remove p) e = node p e.
Proof.
  intros Hne. unfold dBlazy.setAttr.
  destruct (getAttribute p el ("data-" +:+ attr)); [|reflexivity].
  destruct (String.eqb attr "src"), remove;
    unfold removeAttribute, set_src, setAttribute;
    rewrite ?node_mutate_ne by congruence; reflexivity.
Qed.

(** Without the data attribute it changes nothing. *)
Lemma setAttr_absent el attr remove p :
  getAttribute p el ("data-" +:+ attr) = None -> dBlazy.setAttr el attr remove p = p.
Proof. intros H. unfold dBlazy.setAttr. now rewrite H. Qed.

(** With it, and asked to remove, it moves the value to the real
    attribute -- for [src], on an element whose interface has it. *)
Lemma setAttr_moves el attr p v :
  getAttribute p el ("data-" +:+ attr) = Some v ->
  (attr = "src" -> reflects_src (node p el) = true) ->
  getAttribute (dBlazy.setAttr el attr true p) el attr = Some v
  /\ getAttribute (dBlazy.setAttr el attr true p) el ("data-" +:+ attr) = None.
Proof.
  intros Hv Hr. unfold dBlazy.setAttr. rewrite Hv.
  pose proof (data_name_differs attr) as Hd.
  destruct (String.eqb_spec attr "src") as [->|Hne].
  - split.
    + rewrite getAttribute_removeAttribute_ne by discriminate.
      apply getAttribute_set_src_eq. now apply Hr.
    + apply getAttribute_removeAttribute_eq.
  - split.
    + rewrite getAttribute_removeAttribute_ne by congruence.
      apply getAttribute_setAttribute_eq.
    + apply getAttribute_removeAttribute_eq.
Qed.

Section Fold.

Variable attr : string.

Lemma fold_other (l : list ElId) : forall p e,
  ~ In e l -> node (fold_left (fun q source => dBlazy.setAttr source attr true q) l p) e = node p e.
Proof.
  induction l as [|x l IH]; intros p e Hn; [reflexivity|]. simpl.
  rewrite IH by (intros H; apply Hn; now right).
  apply setAttr_other. intros ->. apply Hn. now left.
Qed.

Lemma fold_done (l : list ElId) : forall p e,
  getAttribute p e ("data-" +:+ attr) = None -> node (fold_left (fun q source => dBlazy.setAttr source attr true q) l p) e = node p e.
Proof.
  induction l as [|x l IH]; intros p e Hd; [reflexivity|]. simpl.
  destruct (Nat.eq_dec e x) as [->|Hne].
  - rewrite setAttr_absent by exact Hd. now apply IH.
  - rewrite IH.
    + now apply setAttr_other.
    + unfold getAttribute. now rewrite setAttr_other.
Qed.

Lemma fold_moves (l : list ElId) : forall p s v,
  In s l ->
  getAttribute p s ("data-" +:+ attr) = Some v ->
  (attr = "src" -> reflects_src (node p s) = true) ->
  getAttribute (fold_left (fun q source => dBlazy.setAttr source attr true q) l p) s attr = Some v
  /\ getAttribute (fold_left (fun q source => dBlazy.setAttr source attr true q) l p) s ("data-" +:+ attr) = None.
Proof.
  induction l as [|x l IH]; intros p s v Hin Hv Hr; [destruct Hin|]. simpl.
  destruct (Nat.eq_dec s x) as [->|Hne].
  - destruct (setAttr_moves x attr p v Hv Hr) as [H1 H2].
    unfold getAttribute. rewrite fold_done by exact H2. split; [exact H1 | exact H2].
  - destruct Hin as [->|Hin]; [congruence|].
    apply IH; [exact Hin | |].
    + unfold getAttribute. now rewrite setAttr_other.
    + now rewrite setAttr_other.
Qed.

End Fold.

Lemma source_reflects p s root :
  In s (getElementsByTagName p root "source") -> reflects_src (node p s) = true.
Proof.
  unfold getElementsByTagName. rewrite List.filter_In. intros [_ H].
  apply String.eqb_eq in H. unfold reflects_src. now rewrite H.
Qed.

End SourcesFacts.

(** X16.  Asked to remove, [dBlazy.setAttrsWithSources] moves the data
    attribute to the real one on every [source] element in its scope --
    those of the [picture] the element is in, or else those inside the
    element; [srcset] within a picture and [src] otherwise when no name is
    given ([None]; the empty string counts as none, so a name that is
    given is not empty) -- and changes no other element. *)
Theorem setAttrsWithSources_moves (el : ElId) (attr : option string) (p : Page) :
  attr <> Some "" ->
  let isPicture := dBlazy.equal p (DOM.parentNode p el) "picture" in
  let scope := if isPicture then default el (DOM.parentNode p el) else el in
  let name := match attr with
              | Some a => a
              | None => if isPicture then "srcset" else "src"
              end in
  let sources := DOM.getElementsByTagName p scope "source" in
  let q := dBlazy.setAttrsWithSources el attr true p in
  (forall s v,
      In s sources -> DOM.getAttribute p s ("data-" +:+ name) = Some v ->
      DOM.getAttribute q s name = Some v /\ DOM.getAttribute q s ("data-" +:+ name) = None)
  /\ (forall e, ~ In e sources -> DOM.node q e = DOM.node p e).
Proof.
  intros _ isPicture scope name sources q. subst q. unfold dBlazy.setAttrsWithSources.
  fold isPicture. fold scope. fold name. fold sources. split.
  - intros s v Hin Hv. apply (SourcesFacts.fold_moves name sources p s v Hin Hv).
    intros _. exact (SourcesFacts.source_reflects p s scope Hin).
  - intros e He. now apply SourcesFacts.fold_other.
Qed.

Lemma setAttrsWithSources_moves_witness :
  DOM.getAttribute (dBlazy.setAttrsWithSources 5%nat None true Sample.page0) 3%nat "srcset"
    = Some "s.webp"
  /\ DOM.getAttribute (dBlazy.setAttrsWithSources 5%nat None true Sample.page0) 3%nat
       "data-srcset" = None.
Proof.
  refine (proj1 (setAttrsWithSources_moves 5%nat None Sample.page0 _) 3%nat "s.webp" _ _).
  - discriminate.
  - vm_compute. tauto.
  - vm_compute. reflexivity.
Defined.

(** ** Class lists under [clearLoading] *)

Module TokenFacts.

Import Words Classes WordFacts.

Lemma token_inv t :
  token t = true ->
  t <> "" /\ every (fun c => negb (DOM.is_ascii_whitespace c)) t = true.
Proof.
  unfold token. intros H. apply andb_prop in H as [H1 H2]. split; [|exact H2].
  intros ->. discriminate H1.
Qed.

Lemma plain_inv t :
  plain t = true ->
  t <> "" /\ every (fun c => negb (JS.is_space c)) t = true
  /\ DOM.includes "loading" t = false.
Proof.
  unfold plain. intros H. apply andb_prop in H as [H H3]. apply andb_prop in H as [H1 H2].
  repeat split; [|exact H2 | now apply negb_true_iff].
  intros ->. discriminate H1.
Qed.

Lemma every_weaken (f g : ascii -> bool) s :
  (forall c, f c = true -> g c = true) -> every f s = true -> every g s = true.
Proof.
  intros Hfg. induction s as [|c s IH]; [reflexivity|].
  rewrite !every_cons. intros H. apply andb_prop in H as [H1 H2].
  now rewrite (Hfg c H1), IH.
Qed.

Lemma nospace_token t :
  t <> "" -> every (fun c => negb (JS.is_space c)) t = true -> token t = true.
Proof.
  intros Hne H. unfold token. apply andb_true_intro. split.
  - apply negb_true_iff. now apply String.eqb_neq.
  - revert H. apply every_weaken. intros c Hc. apply negb_true_iff in Hc.
    apply negb_true_iff. now apply not_space_not_whitespace.
Qed.

Lemma plain_token t : plain t = true -> token t = true.
Proof. intros H. apply plain_inv in H as (H1 & H2 & _). now apply nospace_token. Qed.

(** Reading a token into the one being read. *)
Lemma split_token (u : string) : forall cur B,
  every (fun c => negb (DOM.is_ascii_whitespace c)) u = true ->
  DOM.split_tokens cur (u +:+ B)
    = DOM.split_tokens (rev (list_ascii_of_string u) ++ cur) B.
Proof.
  induction u as [|c u IH]; intros cur B Hu; [reflexivity|].
  rewrite every_cons in Hu. apply andb_prop in Hu as [Hc Hu].
  apply negb_true_iff in Hc.
  change (String c u +:+ B) with (String c (u +:+ B)).
  cbn [DOM.split_tokens]. rewrite Hc.
  rewrite (IH (c :: cur) B Hu). simpl. now rewrite <- app_assoc.
Qed.

Lemma flush_token t :
  t <> "" ->
  match rev (list_ascii_of_string t) with
  | [] => []
  | _ :: _ => [string_of_list_ascii (rev (rev (list_ascii_of_string t)))]
  end = [t].
Proof.
  intros Hne. rewrite rev_involutive, string_of_list_ascii_of_string.
  destruct t as [|a t]; [congruence|]. simpl.
  destruct (rev (list_ascii_of_string t) ++ [a]) eqn:E; [|reflexivity].
  apply app_eq_nil in E as [_ E]. discriminate E.
Qed.

Lemma tokens_space s : DOM.tokens (String " " s) = DOM.tokens s.
Proof. reflexivity. Qed.

Lemma tokens_cons u s :
  token u = true -> DOM.tokens (u +:+ String " " s) = u :: DOM.tokens s.
Proof.
  intros H. apply token_inv in H as [Hne Hu]. unfold DOM.tokens.
  rewrite (split_token u [] _ Hu), app_nil_r. cbn [DOM.split_tokens].
  change (DOM.is_ascii_whitespace " ") with true. cbv iota.
  now rewrite (flush_token u Hne).
Qed.

Lemma append_empty s : s +:+ "" = s.
Proof.
  induction s as [|c s IH]; [reflexivity|].
  change (String c s +:+ "") with (String c (s +:+ "")). now rewrite IH.
Qed.

Lemma tokens_single u : token u = true -> DOM.tokens u = [u].
Proof.
  intros H. apply token_inv in H as [Hne Hu]. unfold DOM.tokens.
  rewrite <- (append_empty u) at 1.
  rewrite (split_token u [] "" Hu), app_nil_r. cbn [DOM.split_tokens].
  now apply flush_token.
Qed.

Lemma serialize_cons x y l :
  DOM.serialize (x :: y :: l) = x +:+ String " " (DOM.serialize (y :: l)).
Proof. reflexivity. Qed.

Lemma serialize_single x : DOM.serialize [x] = x.
Proof. reflexivity. Qed.

(** The tokens of a class attribute written from a class list are the
    list. *)
Lemma tokens_serialize l :
  Forall (fun t => token t = true) l -> DOM.tokens (DOM.serialize l) = l.
Proof.
  induction l as [|x l IH]; intros H; [reflexivity|].
  apply Forall_cons in H as [Hx Hl]. destruct l as [|y l].
  - rewrite serialize_single. now apply tokens_single.
  - rewrite serialize_cons, (tokens_cons x _ Hx). f_equal. now apply IH.
Qed.

Lemma delimited_space s : delimited (String " " s).
Proof. reflexivity. Qed.

Lemma replace_space s :
  Blazy.replace_loading (String " " s) = String " " (Blazy.replace_loading s).
Proof. now rewrite replace_unfold, match_unfold. Qed.

(** Where nothing holds ["loading"] the replacement changes nothing. *)
Lemma replace_plain l :
  Forall (fun t => plain t = true) l ->
  Blazy.replace_loading (DOM.serialize l) = DOM.serialize l.
Proof.
  induction l as [|x l IH]; intros H; [reflexivity|].
  apply Forall_cons in H as [Hx Hl]. apply plain_inv in Hx as (_ & Hu & Hi).
  destruct l as [|y l].
  - rewrite serialize_single. rewrite <- (append_empty x).
    rewrite (replace_word x "" Hu Hi I). reflexivity.
  - rewrite serialize_cons. rewrite (replace_word x _ Hu Hi (delimited_space _)).
    now rewrite replace_space, (IH Hl).
Qed.

Lemma prefix_append (p B : string) : String.prefix p (p +:+ B) = true.
Proof.
  induction p as [|c p IH]; [now destruct B|].
  change (String c p +:+ B) with (String c (p +:+ B)). rewrite prefix_cons.
  destruct (ascii_dec c c); [exact IH | congruence].
Qed.

(** The longest run that ends in ["loading"], in a token that ends so. *)
Lemma longest_suffix (a : string) : forall B,
  every (fun c => negb (JS.is_space c)) a = true ->
  delimited B ->
  Blazy.longest_before_loading (a +:+ ("loading" +:+ B)) = Some (String.length a).
Proof.
  induction a as [|c a IH]; intros B Ha HB.
  - change ("" +:+ ("loading" +:+ B)) with (String "l" ("oading" +:+ B)).
    rewrite longest_unfold. change (JS.is_space "l") with false. cbv iota.
    rewrite (longest_none "oading" B eq_refl eq_refl HB).
    change (String "l" ("oading" +:+ B)) with ("loading" +:+ B).
    now rewrite prefix_append.
  - rewrite every_cons in Ha. apply andb_prop in Ha as [Hc Ha].
    apply negb_true_iff in Hc.
    change (String c a +:+ ("loading" +:+ B)) with (String c (a +:+ ("loading" +:+ B))).
    rewrite longest_unfold, Hc, (IH B Ha HB). reflexivity.
Qed.

Lemma skip_append (a : string) : forall s, Blazy.skip (String.length a) (a +:+ s) = s.
Proof.
  induction a as [|c a IH]; intros s; [now destruct s|].
  change (String c a +:+ s) with (String c (a +:+ s)). simpl. apply IH.
Qed.

Lemma append_assoc (a b c : string) : (a +:+ b) +:+ c = a +:+ (b +:+ c).
Proof.
  induction a as [|x a IH]; [reflexivity|].
  change ((String x a +:+ b) +:+ c) with (String x ((a +:+ b) +:+ c)).
  change (String x a +:+ (b +:+ c)) with (String x (a +:+ (b +:+ c))).
  now rewrite IH.
Qed.

(** A token that ends in ["loading"], with something before it, is taken
    out whole. *)
Lemma replace_suffix (a B : string) :
  a <> "" ->
  every (fun c => negb (JS.is_space c)) a = true ->
  delimited B ->
  Blazy.replace_loading ((a +:+ "loading") +:+ B) = B.
Proof.
  intros Hne Ha HB. rewrite append_assoc.
  destruct a as [|c a]; [congruence|].
  rewrite every_cons in Ha. apply andb_prop in Ha as [Hc Ha].
  apply negb_true_iff in Hc.
  change (String c a +:+ ("loading" +:+ B)) with (String c (a +:+ ("loading" +:+ B))).
  rewrite replace_unfold, match_unfold, Hc, (longest_suffix a B Ha HB).
  change (S (String.length a) + 7)%nat with (S (String.length a + 7)).
  cbn [Blazy.skip].
  replace (String.length a + 7)%nat with (String.length (a +:+ "loading")).
  - rewrite <- append_assoc. apply skip_append.
  - clear. induction a as [|x a IH]; [reflexivity|].
    change (String x a +:+ "loading") with (String x (a +:+ "loading")).
    simpl. now rewrite IH.
Qed.

(** The first class that ends in ["loading"] is taken out, and nothing
    else. *)
Lemma replace_takes_first (pre : list string) (a : string) (post : list string) :
  Forall (fun t => plain t = true) pre ->
  a <> "" ->
  every (fun c => negb (JS.is_space c)) a = true ->
  Forall (fun t => token t = true) post ->
  DOM.tokens (Blazy.replace_loading (DOM.serialize (pre ++ (a +:+ "loading") :: post)))
  = pre ++ post.
Proof.
  intros Hpre Hne Ha Hpost. induction pre as [|u pre IH].
  - cbn [app]. destruct post as [|y post].
    + rewrite serialize_single. rewrite <- (append_empty (a +:+ "loading")).
      now rewrite (replace_suffix a "" Hne Ha I).
    + rewrite serialize_cons, (replace_suffix a _ Hne Ha (delimited_space _)), tokens_space.
      now apply tokens_serialize.
  - apply Forall_cons in Hpre as [Hu Hpre].
    change ((u :: pre) ++ (a +:+ "loading") :: post)
      with (u :: (pre ++ (a +:+ "loading") :: post)).
    destruct (pre ++ (a +:+ "loading") :: post) as [|y rest] eqn:E.
    { destruct pre; discriminate E. }
    rewrite serialize_cons.
    pose proof (plain_inv u Hu) as (_ & Hnu & Hiu).
    rewrite (replace_word u _ Hnu Hiu (delimited_space _)), replace_space.
    rewrite (tokens_cons u _ (plain_token u Hu)).
    cbn [app]. f_equal. now apply IH.
Qed.

End TokenFacts.

(** X19.  On an element that has no ancestor with a class holding
    ["loading"], [clearLoading] takes out of the class list the first
    class that ends in ["loading"] -- with something before it; the
    classes before it hold no ["loading"] -- and leaves every other
    class, later ones that end in ["loading"] too. *)
Theorem clearLoading_takes_first (el : ElId) (p : Page)
    (pre : list string) (a : string) (post : list string) :
  dBlazy.closest p el (DOM.SelClass "is-loading") = None ->
  dBlazy.closest p el (DOM.SelClassIncludes "loading") = None ->
  classList (DOM.node p el) = pre ++ (a +:+ "loading") :: post ->
  Forall (fun t => Words.plain t = true) pre ->
  a <> "" ->
  Words.every (fun c => negb (JS.is_space c)) a = true ->
  Forall (fun t => Classes.token t = true) post ->
  classList (DOM.node (Blazy.clearLoading el p) el) = pre ++ post.
Proof.
  intros H1 H2 Hl Hpre Hne Ha Hpost.
  unfold Blazy.clearLoading. rewrite H1, H2. cbn [fold_left].
  unfold DOM.set_className. rewrite DOMFacts.node_mutate_eq. cbn [classList DOM.with_classList].
  unfold DOM.className. rewrite Hl.
  now apply TokenFacts.replace_takes_first.
Qed.

Lemma clearLoading_takes_first_witness :
  classList
    (DOM.node
       (Blazy.clearLoading 1%nat
          (DOM.set_className 1%nat "b-lazy media--loading is-loading" Sample.page0))
       1%nat)
  = ["b-lazy"] ++ ["is-loading"].
Proof.
  apply (clearLoading_takes_first 1%nat
           (DOM.set_className 1%nat "b-lazy media--loading is-loading" Sample.page0)
           ["b-lazy"] "media--" ["is-loading"]).
  - vm_compute. reflexivity.
  - vm_compute. reflexivity.
  - vm_compute. reflexivity.
  - repeat constructor.
  - discriminate.
  - vm_compute. reflexivity.
  - repeat constructor.
Defined.

(** ** The steps of [clearing], as far as [blazy.native] goes *)

Module NativeFacts.

Import DOM Quiet.

Lemma quiet_refl p : quiet p p.
Proof. exists []. now rewrite app_nil_r. Qed.

Lemma quiet_trans p q r : quiet p q -> quiet q r -> quiet p r.
Proof.
  intros (a & Ha & Fa & Ba) (b & Hb & Fb & Bb). exists (a ++ b).
  rewrite Hb, Ha, <- app_assoc, List.filter_app, Fa, Fb, Bb, Ba. auto.
Qed.

Lemma quiet_mutate el f s p : Classes.is_native s = false -> quiet p (mutate el f s p).
Proof. intros H. exists [s]. simpl. now rewrite H. Qed.

Lemma quiet_record s p : Classes.is_native s = false -> quiet p (record s p).
Proof. intros H. exists [s]. simpl. now rewrite H. Qed.

Lemma quiet_clearLoading el p : quiet p (Blazy.clearLoading el p).
Proof.
  unfold Blazy.clearLoading.
  generalize [Some el; dBlazy.closest p el (SelClass "is-loading");
              dBlazy.closest p el (SelClassIncludes "loading")].
  intros loaders. revert p. induction loaders as [|[l|] loaders IH]; intros p; simpl.
  - apply quiet_refl.
  - eapply quiet_trans; [|apply IH]. now apply quiet_mutate.
  - apply IH.
Qed.

Lemma quiet_reevaluate el p : quiet p (Blazy.reevaluate el p).
Proof.
  unfold Blazy.reevaluate.
  repeat match goal with |- context [if ?c then _ else _] => destruct c end;
    repeat first
      [ apply quiet_refl
      | (eapply quiet_trans; [|now apply quiet_record])
      | now apply quiet_mutate ].
Qed.

Lemma quiet_animate el animation p : quiet p (dBlazy.animate el animation p).
Proof.
  unfold dBlazy.animate, dBlazy.bindEvent. cbn [fold_left fst snd].
  eapply quiet_trans; [|now apply quiet_record].
  repeat match goal with
         | |- context [match ?o with Some _ => _ | None => _ end] =>
             match o with
             | getAttribute _ _ _ => destruct o
             end
         end;
    repeat first
      [ apply quiet_refl
      | (eapply quiet_trans; [|now apply quiet_mutate]) ].
Qed.

(** One call of [clearing]: what it adds to the steps, as far as
    [blazy.native] goes, and the state it leaves. *)
Lemma clearing_native el status p :
  exists added,
    history (Blazy.clearing el status p) = history p ++ added
    /\ List.filter Classes.is_native added =
         (if isNativeExecuted (blazy p) then []
          else [Dispatch (context (blazy p)) "blazy.native"])
    /\ isNativeExecuted (blazy (Blazy.clearing el status p)) = true
    /\ context (blazy (Blazy.clearing el status p)) = context (blazy p).
Proof.
  unfold Blazy.clearing.
  match goal with
  | |- context [dBlazy.trigger el "blazy.done" ?q] =>
      assert (H4 : quiet p q); [|set (p4 := q) in *]
  end.
  { assert (H3 : quiet p (Blazy.updateContainer el (dBlazy.closest p el (SelClass "media"))
                            (Blazy.reevaluate el (Blazy.clearLoading el p)))).
    { eapply quiet_trans; [|unfold Blazy.updateContainer; now apply quiet_record].
      eapply quiet_trans; [|apply quiet_reevaluate]. apply quiet_clearLoading. }
    destruct (dBlazy.closest p el (SelAttr "data-animation")).
    - eapply quiet_trans; [exact H3 | apply quiet_animate].
    - match goal with |- context [if ?c then _ else _] => destruct c end;
        [eapply quiet_trans; [exact H3 | apply quiet_animate] | exact H3]. }
  destruct H4 as (added & Hh & Hf & Hb).
  unfold dBlazy.trigger. cbn [record blazy history]. rewrite Hb.
  destruct (isNativeExecuted (blazy p)) eqn:Hn.
  - exists (added ++ [Dispatch el "blazy.done"]). cbn [record blazy history].
    rewrite Hh, <- app_assoc, List.filter_app, Hf, Hb. auto.
  - exists (added ++ [Dispatch el "blazy.done"; Dispatch (context (blazy p)) "blazy.native"]).
    cbn [set_blazy record blazy history isNativeExecuted context].
    rewrite Hh, <- !app_assoc, List.filter_app, Hf. auto.
Qed.

End NativeFacts.

(** ** What [clearing] leaves alone *)

Module SparesFacts.

Import DOM DOMFacts.

(** [clearing] changes neither the window nor the tree. *)
Lemma clearing_static el status p :
  window (Blazy.clearing el status p) = window p
  /\ tree (Blazy.clearing el status p) = tree p.
Proof.
  assert (Hcl : forall q, window (Blazy.clearLoading el q) = window q
                          /\ tree (Blazy.clearLoading el q) = tree q).
  { intros q. unfold Blazy.clearLoading.
    generalize [Some el; dBlazy.closest q el (SelClass "is-loading");
                dBlazy.closest q el (SelClassIncludes "loading")].
    intros loaders. revert q. induction loaders as [|[l|] loaders IH]; intros q; simpl.
    - auto.
    - destruct (IH (set_className l (Blazy.replace_loading (className q l)) q)) as [-> ->].
      auto.
    - apply IH. }
  assert (Hre : forall q, window (Blazy.reevaluate el q) = window q
                          /\ tree (Blazy.reevaluate el q) = tree q).
  { intros q. unfold Blazy.reevaluate.
    repeat match goal with |- context [if ?c then _ else _] => destruct c end; auto. }
  assert (Han : forall e a q, window (dBlazy.animate e a q) = window q
                              /\ tree (dBlazy.animate e a q) = tree q).
  { intros e a q. unfold dBlazy.animate, dBlazy.bindEvent. cbn [fold_left fst snd].
    repeat match goal with
           | |- context [match ?o with Some _ => _ | None => _ end] =>
               match o with
               | getAttribute _ _ _ => destruct o
               end
           end; auto. }
  unfold Blazy.clearing.
  set (p3 := Blazy.updateContainer el _ _).
  assert (H3 : window p3 = window p /\ tree p3 = tree p).
  { subst p3. unfold Blazy.updateContainer. cbn [record window tree].
    destruct (Hre (Blazy.clearLoading el p)) as [-> ->]. apply Hcl. }
  match goal with
  | |- context [dBlazy.trigger el "blazy.done" ?q] =>
      assert (H4 : window q = window p /\ tree q = tree p)
  end.
  { destruct (dBlazy.closest p el (SelAttr "data-animation")).
    - destruct (Han e None p3) as [-> ->]. exact H3.
    - destruct (Blazy.has p3 (Some el) "data-animation"); [|exact H3].
      destruct (Han el None p3) as [-> ->]. exact H3. }
  match goal with |- context [if ?c then _ else _] => destruct c end; exact H4.
Qed.

End SparesFacts.

(** ** What the failure path leaves for the reload *)

Module RetryFacts.

Import DOM DOMFacts.

(** What [applyAttrs] leaves alone: any reading of an element that
    neither the attributes, nor the [src] property, nor the style
    enter. *)
Lemma applyAttrs_field {A : Type} (field : Element -> A) el isBg p el' :
  (forall a e, field (with_attributes a e) = field e) ->
  (forall v e, field (with_own_src v e) = field e) ->
  (forall st e, field (with_style st e) = field e) ->
  field (node (BioMedia.applyAttrs el isBg p) el') = field (node p el').
Proof.
  intros Ha Ho Hs.
  assert (Hset : forall e n r q, field (node (dBlazy.setAttr e n r q) el') = field (node q el')).
  { intros e n r q. unfold dBlazy.setAttr.
    destruct (getAttribute q e ("data-" +:+ n)); [|reflexivity].
    destruct (String.eqb n "src"), r; unfold removeAttribute, set_src, setAttribute;
      rewrite ?(mutate_frame field); auto; intros x; try destruct (reflects_src x); auto. }
  unfold BioMedia.applyAttrs, BioMedia.setBg, dBlazy.setAttrs. destruct isBg.
  - destruct (getAttribute p el BioMedia._bgSrc); [|reflexivity].
    unfold removeAttribute, set_style. rewrite !(mutate_frame field); auto.
  - cbn [fold_left BioMedia._imgSources]. now rewrite !Hset.
Qed.

(** Where no class holds ["loading"], [clearLoading] leaves the classes
    as they are. *)
Lemma clearLoading_plain el p e :
  Forall (fun t => Words.plain t = true) (classList (node p e)) ->
  classList (node (Blazy.clearLoading el p) e) = classList (node p e).
Proof.
  unfold Blazy.clearLoading.
  generalize [Some el; dBlazy.closest p el (SelClass "is-loading");
              dBlazy.closest p el (SelClassIncludes "loading")].
  intros loaders. revert p. induction loaders as [|[l|] loaders IH]; intros p H; simpl.
  - reflexivity.
  - assert (Hl : classList (node (set_className l (Blazy.replace_loading (className p l)) p) e)
                 = classList (node p e)).
    { unfold set_className. destruct (decide (l = e)) as [->|Hne].
      - rewrite node_mutate_eq. cbn [classList with_classList]. unfold className.
        rewrite (TokenFacts.replace_plain _ H). apply TokenFacts.tokens_serialize.
        eapply Forall_impl; [exact H|]. intros t. apply TokenFacts.plain_token.
      - now rewrite node_mutate_ne. }
    rewrite IH; [exact Hl | now rewrite Hl].
  - now apply IH.
Qed.

(** From [reevaluate] on, [clearing] only adds steps. *)
Lemma clearing_history el status p :
  exists added,
    history (Blazy.clearing el status p)
    = history (Blazy.reevaluate el (Blazy.clearLoading el p)) ++ added.
Proof.
  unfold Blazy.clearing.
  set (p2 := Blazy.reevaluate el (Blazy.clearLoading el p)).
  assert (H4 : forall q, (exists a, history q = history p2 ++ a) ->
                 exists a,
                   history
                     (let p5 := dBlazy.trigger el "blazy.done" q in
                      if isNativeExecuted (blazy p5) then p5
                      else set_blazy
                             {| init_assigned := init_assigned (blazy p5);
                                blazy_successClass := blazy_successClass (blazy p5);
                                items := items (blazy p5);
                                listening := listening (blazy p5);
                                blazy_errorClass := blazy_errorClass (blazy p5);
                                context := context (blazy p5);
                                isNativeExecuted := true |}
                             (dBlazy.trigger (context (blazy p5)) "blazy.native" p5))
                   = history p2 ++ a).
  { intros q [a Ha]. cbv zeta. unfold dBlazy.trigger.
    destruct (isNativeExecuted _); cbn [set_blazy record history]; rewrite Ha, <- ?app_assoc;
      eauto. }
  assert (H3 : exists a, history (Blazy.updateContainer el
                                    (dBlazy.closest p el (SelClass "media")) p2)
                         = history p2 ++ a).
  { unfold Blazy.updateContainer. cbn [record history]. eauto. }
  assert (Han : forall e q, (exists a, history q = history p2 ++ a) ->
                  exists a, history (dBlazy.animate e None q) = history p2 ++ a).
  { intros e q [a Ha].
    destruct (NativeFacts.quiet_animate e None q) as (b & Hb & _).
    rewrite Hb, Ha, <- app_assoc. eauto. }
  apply H4.
  destruct (dBlazy.closest p el (SelAttr "data-animation")).
  - now apply Han.
  - match goal with |- context [if ?c then _ else _] => destruct c end;
      [now apply Han | exact H3].
Qed.

End RetryFacts.

Module ReloadFacts.

Import DOM DOMFacts.

(** On an element that carries the error class, once [Drupal.blazy.init]
    is assigned, [reevaluate] takes the class off and sets the timer. *)
Lemma reevaluate_error el q :
  init_assigned (blazy q) = true ->
  contains q el (blazy_errorClass (blazy q)) = true ->
  In (SetTimeout (Reload el) 10) (history (Blazy.reevaluate el q))
  /\ classList (node (Blazy.reevaluate el q) el)
     = List.filter (fun t => negb (String.eqb t (blazy_errorClass (blazy q))))
         (ordered_set (classList (node q el))).
Proof.
  intros Hi Hc. unfold Blazy.reevaluate, dBlazy.hasClass. rewrite Hi, Hc. cbn [andb].
  assert (Hn : classList (node (classList_remove el (blazy_errorClass (blazy q)) q) el)
               = List.filter (fun t => negb (String.eqb t (blazy_errorClass (blazy q))))
                   (ordered_set (classList (node q el)))).
  { unfold classList_remove. now rewrite node_mutate_eq. }
  match goal with |- context [if ?c then _ else _] => destruct c end;
    cbn [record history]; rewrite ?node_record; (split; [|exact Hn]);
    rewrite ?in_app_iff; simpl; tauto.
Qed.

(** Without an animation asked for on the element or above it, the
    elements are after [clearing] as [reevaluate] left them. *)
Lemma clearing_no_animation el status q e :
  dBlazy.closest q el (SelAttr "data-animation") = None ->
  hasAttribute q el "data-animation" = false ->
  node (Blazy.clearing el status q) e
  = node (Blazy.reevaluate el (Blazy.clearLoading el q)) e.
Proof.
  intros Han Hda. unfold Blazy.clearing. rewrite Han.
  assert (Hno : Blazy.has (Blazy.updateContainer el (dBlazy.closest q el (SelClass "media"))
                             (Blazy.reevaluate el (Blazy.clearLoading el q)))
                  (Some el) "data-animation" = false).
  { unfold Blazy.has, hasAttribute, getAttribute, Blazy.updateContainer.
    rewrite node_record.
    rewrite (BlazyFacts.reevaluate_frame attributes (fun _ _ => eq_refl)).
    rewrite (BlazyFacts.clearLoading_frame attributes (fun _ _ => eq_refl)).
    exact Hda. }
  rewrite Hno.
  match goal with |- context [if ?c then _ else _] => destruct c end; reflexivity.
Qed.

End ReloadFacts.

(** ** The orchestrator's callback, with its exceptions *)

Module ExnFacts.

Import DOM DOMFacts.

Lemma classList_add_one el t p :
  Exn.classList_add el [t] p
  = if Classes.token t then Returned (classList_add el t p) else Thrown p.
Proof. unfold Exn.classList_add. cbn [forallb fold_left]. now rewrite andb_true_r. Qed.

(** [dBlazy.animate] called with the element alone. *)
Lemma animate_alone el p :
  Exn.animate el None p
  = if Classes.token (default "undefined" (getAttribute p el "data-animation"))
    then Returned (dBlazy.animate el None p) else Thrown p.
Proof.
  unfold Exn.animate. cbn [forallb]. rewrite andb_true_r.
  change (Classes.token "animated") with true. cbn [andb].
  destruct (Classes.token _); reflexivity.
Qed.

(** Where no listener waits, the event is dispatched and that is all. *)
Lemma trigger_native_alone listener p :
  listening (blazy p) = [] ->
  Exn.trigger_native listener p = dBlazy.trigger (context (blazy p)) "blazy.native" p.
Proof.
  intros H. unfold Exn.trigger_native.
  set (p0 := dBlazy.trigger _ _ p).
  assert (H0 : listening (blazy p0) = []) by exact H.
  generalize (context (blazy p) :: ancestors p0 (context (blazy p))). intros path.
  clearbody p0. revert p0 H0. induction path as [|node path IH]; intros q Hq; [reflexivity|].
  cbn [fold_left]. rewrite Hq. cbn [List.filter fold_left]. now apply IH.
Qed.

Lemma before_animation_quiet el p : Quiet.quiet p (Exn.before_animation el p).
Proof.
  unfold Exn.before_animation, Blazy.updateContainer.
  eapply NativeFacts.quiet_trans; [|now apply NativeFacts.quiet_record].
  eapply NativeFacts.quiet_trans; [apply NativeFacts.quiet_clearLoading|].
  apply NativeFacts.quiet_reevaluate.
Qed.

Lemma before_animation_getAttribute el p el' n :
  getAttribute (Exn.before_animation el p) el' n = getAttribute p el' n.
Proof.
  unfold Exn.before_animation, Blazy.updateContainer, getAttribute. rewrite node_record.
  rewrite (BlazyFacts.reevaluate_frame attributes (fun _ _ => eq_refl)).
  now rewrite (BlazyFacts.clearLoading_frame attributes (fun _ _ => eq_refl)).
Qed.

(** Where no listener will run, [clearing] is the callback followed
    above when the animation can be put on, and stops at the animation
    when it cannot. *)
Lemma clearing_outcome el p status :
  Exn.calm p ->
  Exn.clearing el p
  = if Exn.animation_ok p el then Returned (Blazy.clearing el status p)
    else Thrown (Exn.before_animation el p).
Proof.
  intros Hcalm. unfold Exn.clearing.
  assert (Hgen : forall depth,
            (isNativeExecuted (blazy p) = true \/ depth = O /\ listening (blazy p) = []) ->
            Exn.clearing_within depth el p
            = if Exn.animation_ok p el then Returned (Blazy.clearing el status p)
              else Thrown (Exn.before_animation el p)).
  { intros depth Hd.
    assert (Heq : Exn.clearing_within depth el p
                  = and_then
                      (match dBlazy.closest p el (SelAttr "data-animation") with
                       | Some a => Exn.animate a None (Exn.before_animation el p)
                       | None => if Blazy.has (Exn.before_animation el p) (Some el) "data-animation"
                                 then Exn.animate el None (Exn.before_animation el p)
                                 else Returned (Exn.before_animation el p)
                       end)
                      (fun p4 =>
                         let p5 := dBlazy.trigger el "blazy.done" p4 in
                         if isNativeExecuted (blazy p5) then Returned p5
                         else Returned
                                (Exn.with_isNativeExecuted true
                                   (match depth with
                                    | O => Exn.trigger_native (fun q => q) p5
                                    | S depth' =>
                                        Exn.trigger_native
                                          (Exn.onNative (Exn.clearing_within depth')) p5
                                    end))))
      by (destruct depth; reflexivity).
    rewrite Heq. clear Heq.
    unfold Exn.animation_ok, Exn.animated, Blazy.clearing.
    fold (Exn.before_animation el p).
    assert (Hhas : Blazy.has (Exn.before_animation el p) (Some el) "data-animation"
                   = Blazy.has p (Some el) "data-animation").
    { unfold Blazy.has. rewrite !hasAttribute_getAttribute.
      now rewrite before_animation_getAttribute. }
    rewrite Hhas.
    assert (Hend : forall p4, Quiet.quiet p p4 ->
              (let p5 := dBlazy.trigger el "blazy.done" p4 in
               if isNativeExecuted (blazy p5) then Returned p5
               else Returned
                      (Exn.with_isNativeExecuted true
                         (match depth with
                          | O => Exn.trigger_native (fun q => q) p5
                          | S depth' =>
                              Exn.trigger_native
                                (Exn.onNative (Exn.clearing_within depth')) p5
                          end)))
              = Returned
                  (let p5 := dBlazy.trigger el "blazy.done" p4 in
                   if isNativeExecuted (blazy p5) then p5
                   else set_blazy
                          {| init_assigned := init_assigned (blazy p5);
                             blazy_errorClass := blazy_errorClass (blazy p5);
                             blazy_successClass := blazy_successClass (blazy p5);
                             context := context (blazy p5);
                             isNativeExecuted := true;
                             items := items (blazy p5);
                             listening := listening (blazy p5) |}
                          (dBlazy.trigger (context (blazy p5)) "blazy.native" p5))).
    { intros p4 (added & _ & _ & Hb). cbv zeta.
      assert (Hb5 : blazy (dBlazy.trigger el "blazy.done" p4) = blazy p) by exact Hb.
      destruct (isNativeExecuted (blazy (dBlazy.trigger el "blazy.done" p4))) eqn:E;
        [reflexivity|].
      destruct Hd as [Hd | [-> Hl]]; [rewrite Hb5 in E; congruence|].
      rewrite trigger_native_alone by (rewrite Hb5; exact Hl). reflexivity. }
    destruct (dBlazy.closest p el (SelAttr "data-animation")) as [a|].
    - rewrite animate_alone, before_animation_getAttribute.
      destruct (Classes.token _); [|reflexivity].
      cbn [and_then]. apply Hend.
      eapply NativeFacts.quiet_trans; [apply before_animation_quiet|].
      apply NativeFacts.quiet_animate.
    - destruct (Blazy.has p (Some el) "data-animation").
      + rewrite animate_alone, before_animation_getAttribute.
        destruct (Classes.token _); [|reflexivity].
        cbn [and_then]. apply Hend.
        eapply NativeFacts.quiet_trans; [apply before_animation_quiet|].
        apply NativeFacts.quiet_animate.
      + cbn [and_then]. apply Hend. apply before_animation_quiet. }
  apply Hgen. destruct Hcalm as [H|H]; [now left|right].
  split; [now rewrite H | exact H].
Qed.

End ExnFacts.

(** ** Bio, with the callbacks that throw *)

Module CounterFacts.

Lemma error_counts hs me el status w :
  match Exn.error hs me el status w with
  | Returned (me', _) => Bio.erCounted me' = Bio.erCounted me + 1
  | Thrown (me', _) => me' = me
  end.
Proof.
  unfold Exn.error. destruct (Exn.on_error hs) as [f|]; [|reflexivity].
  unfold Exn.lift. destruct (f el status (page w)); reflexivity.
Qed.

Lemma success_counts hs me el status w :
  match Exn.success hs me el status w with
  | Returned (me', _) =>
      Bio.erCounted me' = if 0 <? Bio.erCounted me then Bio.erCounted me - 1
                          else Bio.erCounted me
  | Thrown (me', _) => me' = me
  end.
Proof.
  unfold Exn.success. destruct (Exn.on_success hs) as [f|].
  - unfold Exn.lift. destruct (f el status (page w)); [|reflexivity].
    destruct (0 <? Bio.erCounted me); reflexivity.
  - destruct (0 <? Bio.erCounted me); reflexivity.
Qed.

Lemma report_keeps_nonneg hs r s :
  0 <= Bio.erCounted (fst s) -> 0 <= Bio.erCounted (fst (Exn.reached (Exn.report hs r s))).
Proof.
  intros H. destruct s as [me w]. destruct r as [el status|el status]; cbn [Exn.report fst snd].
  - pose proof (success_counts hs me el (Exn.Code status) w) as Hs.
    destruct (Exn.success hs me el (Exn.Code status) w) as [[me' w']|[me' w']];
      cbn [Exn.reached fst] in *.
    + rewrite Hs. destruct (0 <? Bio.erCounted me) eqn:E; [apply Z.ltb_lt in E|]; lia.
    + now subst me'.
  - pose proof (error_counts hs me el (Exn.Code status) w) as He.
    destruct (Exn.error hs me el (Exn.Code status) w) as [[me' w']|[me' w']];
      cbn [Exn.reached fst] in *.
    + lia.
    + now subst me'.
Qed.

Lemma reports_keep_nonneg hs rs : forall s,
  0 <= Bio.erCounted (fst s) -> 0 <= Bio.erCounted (fst (Exn.reports hs rs s)).
Proof.
  unfold Exn.reports. induction rs as [|r rs IH]; intros s H; [exact H|].
  cbn [fold_left]. apply IH. now apply report_keeps_nonneg.
Qed.

End CounterFacts.

(** C10, as the code has it.  [erCounted] is never negative after any
    sequence of [error] and [success] calls on an instance, whatever the
    callbacks do.  [error] adds one to it when the error callback returns
    (or there is none) and leaves it as it is when the callback throws;
    [success] takes one off when it is above zero and the success
    callback returns, and leaves it as it is otherwise. *)
Theorem erCounted_is_never_negative (hs : Exn.Handlers) (me : Bio.t) (w : World)
    (rs : list Report) :
  0 <= Bio.erCounted me ->
  0 <= Bio.erCounted (fst (Exn.reports hs rs (me, w)))
  /\ (forall el status,
         match Exn.error hs me el status w with
         | Returned (me', _) => Bio.erCounted me' = Bio.erCounted me + 1
         | Thrown (me', _) => Bio.erCounted me' = Bio.erCounted me
         end)
  /\ (forall el status,
         match Exn.success hs me el status w with
         | Returned (me', _) =>
             Bio.erCounted me' = if 0 <? Bio.erCounted me then Bio.erCounted me - 1
                                 else Bio.erCounted me
         | Thrown (me', _) => Bio.erCounted me' = Bio.erCounted me
         end)
  /\ (forall el status,
         (exists s, Exn.error hs me el status w = Returned s)
         <-> match Exn.on_error hs with
             | Some f => exists p, f el status (page w) = Returned p
             | None => True
             end).
Proof.
  intros H. split; [|split; [|split]].
  - now apply CounterFacts.reports_keep_nonneg.
  - intros el status. pose proof (CounterFacts.error_counts hs me el status w) as He.
    destruct (Exn.error hs me el status w) as [[me' w']|[me' w']]; [exact He | now subst].
  - intros el status. pose proof (CounterFacts.success_counts hs me el status w) as Hs.
    destruct (Exn.success hs me el status w) as [[me' w']|[me' w']]; [exact Hs | now subst].
  - intros el status. unfold Exn.error. destruct (Exn.on_error hs) as [f|].
    + unfold Exn.lift. destruct (f el status (page w)) as [p|p]; split.
      * eauto.
      * eauto.
      * intros [s Hs]. discriminate Hs.
      * intros [q Hq]. discriminate Hq.
    + split; eauto.
Qed.

Lemma erCounted_is_never_negative_witness :
  0 <= Bio.erCounted
         (fst (Exn.reports Exn.orchestrated
                 [Failed 1%nat (-1); Succeeded 5%nat 1; Failed 8%nat (-1); Succeeded 8%nat 1]
                 (Animated.loader, Animated.world))).
Proof.
  refine (proj1 (erCounted_is_never_negative Exn.orchestrated Animated.loader Animated.world
                   [Failed 1%nat (-1); Succeeded 5%nat 1; Failed 8%nat (-1); Succeeded 8%nat 1]
                   _)).
  vm_compute. discriminate.
Defined.

(** C10, as the specification has it, fails: [error] does not always add
    one.  Under the loader the orchestrator builds, on the image whose
    [data-animation] is ["zoom in"], the error callback [clearing] throws
    at [classList.add('animated', 'zoom in')]: [me.error], called by
    [me.loaded] once the error class is on, throws and leaves [erCounted]
    at 0, and it is still 0 when the protocol has ended. *)
Lemma error_that_throws_is_not_counted :
  Bio.erCounted Animated.loader = 0
  /\ match Exn.error Exn.orchestrated Animated.loader 1%nat (Exn.Code Bio._er)
            (on_page (DOM.classList_add 1%nat "b-error")
               (on_page (BioMedia.applyAttrs 1%nat false) Animated.hit)) with
     | Returned _ => False
     | Thrown (me', _) => Bio.erCounted me' = 0
     end
  /\ Bio.erCounted (fst Animated.failed) = 0
  /\ In (ClassAdd 1%nat "b-error") (history (page (snd Animated.failed))).
Proof.
  split; [vm_compute; reflexivity|]. split; [vm_compute; reflexivity|].
  split; [vm_compute; reflexivity|]. vm_compute. tauto.
Qed.

(** ** BioMedia, with the callbacks that throw *)

Module LoaderFacts.

Import DOM DOMFacts.

(** How [me.loaded] ends: it throws when the class is no token, and else
    as the callback does, which is run on the page with the class on. *)
Lemma loaded_outcome hs me el status w :
  let cls := if Exn.is_ok status then Options.successClass (Bio.options me)
             else Options.errorClass (Bio.options me) in
  let w1 := Exn.with_page (classList_add el cls (page w)) w in
  Exn.loaded hs me el status w
  = if Classes.token cls
    then if Exn.is_ok status then Exn.success hs me el status w1
         else Exn.error hs me el status w1
    else Thrown (me, Exn.with_page (page w) w).
Proof.
  intros cls w1. unfold Exn.loaded, Exn.lift. fold cls. rewrite ExnFacts.classList_add_one.
  destruct (Classes.token cls); reflexivity.
Qed.

(** Neither the variables of the module nor the probes are within reach
    of [me.loaded]. *)
Lemma loaded_world hs me el status w :
  vars (snd (Exn.reached (Exn.loaded hs me el status w))) = vars w
  /\ images (snd (Exn.reached (Exn.loaded hs me el status w))) = images w.
Proof.
  rewrite loaded_outcome. cbv zeta.
  destruct (Classes.token _); [|split; reflexivity].
  destruct (Exn.is_ok status).
  - unfold Exn.success. destruct (Exn.on_success hs) as [f|]; [|split; reflexivity].
    unfold Exn.lift. cbn [page Exn.with_page].
    destruct (f el status _); split; reflexivity.
  - unfold Exn.error. destruct (Exn.on_error hs) as [f|]; [|split; reflexivity].
    unfold Exn.lift. cbn [page Exn.with_page].
    destruct (f el status _); split; reflexivity.
Qed.

(** The instance [me.loaded] leaves differs in [erCounted] at most. *)
Lemma loaded_keeps_instance hs me el status w :
  exists n, fst (Exn.reached (Exn.loaded hs me el status w)) = Bio.with_erCounted n me.
Proof.
  rewrite loaded_outcome. cbv zeta.
  destruct (Classes.token _);
    [|exists (Bio.erCounted me); symmetry; apply EngineFacts.with_erCounted_self].
  destruct (Exn.is_ok status).
  - unfold Exn.success.
    destruct (match Exn.on_success hs with Some f => _ | None => _ end) as [w1|w1];
      cbn [Exn.reached fst].
    + destruct (0 <? Bio.erCounted me); [eauto|].
      exists (Bio.erCounted me); symmetry; apply EngineFacts.with_erCounted_self.
    + exists (Bio.erCounted me); symmetry; apply EngineFacts.with_erCounted_self.
  - unfold Exn.error.
    destruct (match Exn.on_error hs with Some f => _ | None => _ end) as [w1|w1];
      cbn [Exn.reached fst].
    + eauto.
    + exists (Bio.erCounted me); symmetry; apply EngineFacts.with_erCounted_self.
Qed.

(** The branch of an image or of a background block returns: no callback
    is run in it. *)
Lemma branch_preloads hs me el w :
  dBlazy.equal (page w) (parentNode (page w) el) "picture" = false ->
  dBlazy.equal (page w) (Some el) "video" = false ->
  dBlazy.equal (page w) (Some el) "img"
  || src_undefined (page w) el && contains (page w) el (Options.bgClass (Bio.options me))
  = true ->
  Exn.lazyLoad_branch hs me el w
  = Returned (me, BioMedia.setImage me el
                    (src_undefined (page w) el
                     && contains (page w) el (Options.bgClass (Bio.options me))) w).
Proof. intros H1 H2 H3. unfold Exn.lazyLoad_branch. now rewrite H1, H2, H3. Qed.

End LoaderFacts.

(** C8, as the code has it.  On an element that is not marked yet,
    [lazyLoad] writes [data-bio-hit] when the cascade over the kind of
    element (picture, video, image or background, iframe) has returned:
    it is the last step of the hook, and the element is marked from then
    on.  When the cascade throws -- in the picture, video and iframe
    branches [me.loaded] is run, and with it the success callback -- the
    hook ends there and writes no marker.  For an image or a background
    block the cascade returns, having made the probe. *)
Theorem hit_marker_follows_branch (hs : Exn.Handlers) (me : Bio.t) (el : ElId) (w : World) :
  DOM.hasAttribute (page w) el "data-bio-hit" = false ->
  match Exn.lazyLoad_branch hs me el w with
  | Returned (me1, w1) =>
      exists w2,
        Exn.lazyLoad hs me el w = Returned (me1, w2)
        /\ images w2 = images w1
        /\ history (page w2) = history (page w1) ++ [SetAttribute el "data-bio-hit" "1"]
        /\ DOM.getAttribute (page w2) el "data-bio-hit" = Some "1"
  | Thrown s => Exn.lazyLoad hs me el w = Thrown s
  end
  /\ (dBlazy.equal (page w) (DOM.parentNode (page w) el) "picture" = false ->
      dBlazy.equal (page w) (Some el) "video" = false ->
      dBlazy.equal (page w) (Some el) "img"
      || DOM.src_undefined (page w) el
         && DOM.contains (page w) el (Options.bgClass (Bio.options me)) = true ->
      exists w1, Exn.lazyLoad_branch hs me el w = Returned (me, w1)
                 /\ length (images w1) = S (length (images w))
                 /\ page w1 = page w).
Proof.
  intros H. split.
  - unfold Exn.lazyLoad. rewrite H.
    destruct (Exn.lazyLoad_branch hs me el w) as [[me1 w1]|s]; [|reflexivity].
    eexists. split; [reflexivity|]. cbn [Bio.lazyLoad on_page images page].
    split; [reflexivity|]. split; [reflexivity|].
    apply DOMFacts.getAttribute_setAttribute_eq.
  - intros H1 H2 H3. rewrite (LoaderFacts.branch_preloads hs me el w H1 H2 H3).
    eexists. split; [reflexivity|].
    cbn [BioMedia.setImage BioMedia.promise images page]. rewrite length_app. cbn [length].
    split; [lia | reflexivity].
Qed.

Lemma hit_marker_follows_branch_witness :
  exists w1,
    Exn.lazyLoad_branch Exn.orchestrated Animated.loader 1%nat Animated.world
      = Returned (Animated.loader, w1)
    /\ length (images w1) = S (length (images Animated.world))
    /\ page w1 = page Animated.world.
Proof.
  refine (proj2 (hit_marker_follows_branch Exn.orchestrated Animated.loader 1%nat
                   Animated.world _) _ _ _); vm_compute; reflexivity.
Defined.

Module SettleFacts.

Import DOM DOMFacts.

(** The chain of [me.setImage] when the probe has failed. *)
Lemma chain_onerror hs me img w :
  Exn.settle hs me img BioMedia.onerror w
  = match Exn.loaded hs me (for_element img) (Exn.Code Bio._er)
            (on_page (BioMedia.applyAttrs (for_element img) (background img)) w) with
    | Returned (me1, w1) =>
        Returned (me1, BioMedia.setImage_finally (for_element img)
                         (on_page (removeAttribute (for_element img) "data-bio-hit") w1))
    | Thrown (me1, w1) => Thrown (me1, BioMedia.setImage_finally (for_element img) w1)
    end.
Proof.
  unfold Exn.settle, Exn.setImage_catch.
  destruct (Exn.loaded hs me _ _ _) as [[me1 w1]|[me1 w1]]; reflexivity.
Qed.

(** The chain when the probe has loaded. *)
Lemma chain_onload hs me img w :
  Exn.settle hs me img BioMedia.onload w
  = match Exn.loaded hs me (for_element img) (Exn.Code Bio._ok)
            (on_page (BioMedia.applyAttrs (for_element img) (background img)) w) with
    | Returned (me1, w1) =>
        Returned (me1, BioMedia.setImage_finally (for_element img)
                         (on_page (dBlazy.removeAttrs (for_element img)
                                     (if background img then BioMedia._bgSources
                                      else BioMedia._imgSources)) w1))
    | Thrown (me1, w1) =>
        match Exn.setImage_catch hs me1 (for_element img) Exn.Exception w1 with
        | Returned (me2, w2) =>
            Returned (me2, BioMedia.setImage_finally (for_element img) w2)
        | Thrown (me2, w2) => Thrown (me2, BioMedia.setImage_finally (for_element img) w2)
        end
    end.
Proof.
  unfold Exn.settle, Exn.setImage_then.
  destruct (Exn.loaded hs me _ _ _) as [[me1 w1]|[me1 w1]]; reflexivity.
Qed.

End SettleFacts.

(** C6, as the code has it.  When the probe of an element fails and the
    error class is a class token, the error callback is run on a page
    where the element carries the error class and its real attributes
    ([src] and [srcset], or the CSS background) hold what the data
    attributes held.  When the callback returns (or there is none),
    [erCounted] goes up by one, [data-bio-hit] is taken off the element
    and [bio.finally] is dispatched; the class and the real attributes are
    still there if the callback has left them.  When the callback throws,
    [erCounted] stays, [data-bio-hit] is not taken off, and [bio.finally]
    is dispatched all the same. *)
Theorem failure_path_of_the_code (hs : Exn.Handlers) (me : Bio.t) (img : Image) (w : World) :
  let el := for_element img in
  let errorClass := Options.errorClass (Bio.options me) in
  let before :=
    DOM.classList_add el errorClass (BioMedia.applyAttrs el (background img) (page w)) in
  let done := Exn.settle hs me img BioMedia.onerror w in
  well_formed_probe (page w) img ->
  Classes.token errorClass = true ->
  DOM.contains before el errorClass = true
  /\ promoted (page w) img before
  /\ match match Exn.on_error hs with
           | Some f => f el (Exn.Code Bio._er) before
           | None => Returned before
           end with
     | Returned p' =>
         exists w',
           done = Returned (Bio.with_erCounted (Bio.erCounted me + 1) me, w')
           /\ page w' = dBlazy.trigger el "bio.finally" (DOM.removeAttribute el "data-bio-hit" p')
           /\ DOM.hasAttribute (page w') el "data-bio-hit" = false
           /\ (DOM.contains p' el errorClass = true -> DOM.contains (page w') el errorClass = true)
           /\ (promoted (page w) img p' -> promoted (page w) img (page w'))
     | Thrown p' =>
         exists w',
           done = Thrown (me, w')
           /\ page w' = dBlazy.trigger el "bio.finally" p'
           /\ DOM.hasAttribute (page w') el "data-bio-hit" = DOM.hasAttribute p' el "data-bio-hit"
     end.
Proof.
  intros el errorClass before done Hwf Htok. subst done.
  split; [apply DOMFacts.contains_classList_add|].
  split.
  { apply BioMediaFacts.promoted_classList_add. now apply BioMediaFacts.applyAttrs_promoted. }
  rewrite SettleFacts.chain_onerror, LoaderFacts.loaded_outcome. cbv zeta.
  change (Exn.is_ok (Exn.Code Bio._er)) with false. cbv iota.
  fold el errorClass. rewrite Htok. cbn [page on_page Exn.with_page]. fold before.
  unfold Exn.error.
  destruct (Exn.on_error hs) as [f|].
  - unfold Exn.lift. cbn [page Exn.with_page].
    destruct (f el (Exn.Code Bio._er) before) as [p'|p'].
    + eexists. split; [reflexivity|].
      cbn [BioMedia.setImage_finally on_page page Exn.with_page].
      split; [reflexivity|]. unfold dBlazy.trigger. split; [|split].
      * apply DOMFacts.hasAttribute_false. rewrite ProtocolFacts.getAttribute_record.
        apply DOMFacts.getAttribute_removeAttribute_eq.
      * intros H. now rewrite ProtocolFacts.contains_record, DOMFacts.contains_removeAttribute.
      * intros H. apply ProtocolFacts.promoted_record.
        apply BioMediaFacts.promoted_removeAttribute; [discriminate | discriminate | exact H].
    + eexists. split; [reflexivity|].
      cbn [BioMedia.setImage_finally on_page page Exn.with_page].
      split; reflexivity.
  - eexists. split; [reflexivity|].
    cbn [BioMedia.setImage_finally on_page page Exn.with_page].
    split; [reflexivity|]. unfold dBlazy.trigger. split; [|split].
    * apply DOMFacts.hasAttribute_false. rewrite ProtocolFacts.getAttribute_record.
      apply DOMFacts.getAttribute_removeAttribute_eq.
    * intros H. now rewrite ProtocolFacts.contains_record, DOMFacts.contains_removeAttribute.
    * intros H. apply ProtocolFacts.promoted_record.
      apply BioMediaFacts.promoted_removeAttribute; [discriminate | discriminate | exact H].
Qed.

Lemma failure_path_of_the_code_witness :
  exists w',
    Exn.settle Exn.orchestrated Fixture.orchestrated Fixture.probe1 BioMedia.onerror
      Fixture.hit_orchestrated
    = Returned (Bio.with_erCounted (Bio.erCounted Fixture.orchestrated + 1)
                  Fixture.orchestrated, w')
    /\ DOM.hasAttribute (page w') 1%nat "data-bio-hit" = false.
Proof.
  assert (Hwf : well_formed_probe (page Fixture.hit_orchestrated) Fixture.probe1).
  { intros _. vm_compute. reflexivity. }
  assert (Htok : Classes.token (Options.errorClass (Bio.options Fixture.orchestrated)) = true)
    by (vm_compute; reflexivity).
  destruct (failure_path_of_the_code Exn.orchestrated Fixture.orchestrated Fixture.probe1
              Fixture.hit_orchestrated Hwf Htok) as (_ & _ & H).
  cbn [Exn.on_error Exn.orchestrated] in H.
  match type of H with
  | match ?c with Returned _ => _ | Thrown _ => _ end =>
      assert (Hr : match c with Returned _ => True | Thrown _ => False end)
        by (vm_compute; exact I);
      destruct c as [p'|p']
  end.
  - destruct H as (w' & H1 & _ & H3 & _). exists w'. split; [exact H1 | exact H3].
  - destruct Hr.
Defined.

(** C5, as the code has it.  An image element with [data-src="X"] whose
    probe loads, the success class being a class token: the success
    callback is run on a page where the element has [src] equal to [X] and
    carries the success class.  When the callback returns (or there is
    none), [data-src] and [data-srcset] are taken off and [bio.finally] is
    dispatched; [src] and the class are still there if the callback has
    left them.  When the callback throws, the [catch] handler is run on
    what it threw, and [data-src] is taken off by neither handler. *)
Theorem success_roundtrip_of_the_code (hs : Exn.Handlers) (me : Bio.t) (img : Image)
    (w : World) (x : string) :
  let el := for_element img in
  let loadedClass := Options.successClass (Bio.options me) in
  let before := DOM.classList_add el loadedClass (BioMedia.applyAttrs el false (page w)) in
  let done := Exn.settle hs me img BioMedia.onload w in
  background img = false ->
  dBlazy.equal (page w) (Some el) "img" = true ->
  DOM.getAttribute (page w) el "data-src" = Some x ->
  Classes.token loadedClass = true ->
  DOM.getAttribute before el "src" = Some x
  /\ DOM.contains before el loadedClass = true
  /\ match match Exn.on_success hs with
           | Some f => f el (Exn.Code Bio._ok) before
           | None => Returned before
           end with
     | Returned p' =>
         exists me' w',
           done = Returned (me', w')
           /\ Bio.erCounted me' = (if 0 <? Bio.erCounted me then Bio.erCounted me - 1
                                   else Bio.erCounted me)
           /\ page w' = dBlazy.trigger el "bio.finally"
                          (dBlazy.removeAttrs el BioMedia._imgSources p')
           /\ DOM.hasAttribute (page w') el "data-src" = false
           /\ (DOM.getAttribute p' el "src" = Some x ->
               DOM.getAttribute (page w') el "src" = Some x)
           /\ (DOM.contains p' el loadedClass = true ->
               DOM.contains (page w') el loadedClass = true)
     | Thrown p' =>
         let caught :=
           Exn.reached (Exn.loaded hs me el Exn.Exception (Exn.with_page p' w)) in
         page (snd (Exn.reached done))
         = dBlazy.trigger el "bio.finally"
             (match Exn.loaded hs me el Exn.Exception (Exn.with_page p' w) with
              | Returned _ => DOM.removeAttribute el "data-bio-hit" (page (snd caught))
              | Thrown _ => page (snd caught)
              end)
     end.
Proof.
  intros el loadedClass before done Hb Himg Hx Htok. subst done.
  destruct (BioMediaFacts.applyAttrs_image el (page w)
              (BioMediaFacts.equal_img_reflects _ _ Himg)) as (Hsrc & _ & _ & _).
  split.
  { unfold before. rewrite DOMFacts.getAttribute_classList_add. exact (Hsrc x Hx). }
  split; [apply DOMFacts.contains_classList_add|].
  rewrite SettleFacts.chain_onload, Hb, LoaderFacts.loaded_outcome. cbv zeta.
  change (Exn.is_ok (Exn.Code Bio._ok)) with true. cbv iota.
  fold el loadedClass. rewrite Htok. cbn [page on_page Exn.with_page]. fold before.
  unfold Exn.success.
  assert (Hran : forall p' w0,
            exists me' w',
              Returned
                (if 0 <? Bio.erCounted me then Bio.with_erCounted (Bio.erCounted me - 1) me
                 else me,
                 BioMedia.setImage_finally el
                   (on_page (dBlazy.removeAttrs el BioMedia._imgSources)
                      (Exn.with_page p' w0)))
              = Returned (me', w')
              /\ Bio.erCounted me' = (if 0 <? Bio.erCounted me then Bio.erCounted me - 1
                                      else Bio.erCounted me)
              /\ page w' = dBlazy.trigger el "bio.finally"
                             (dBlazy.removeAttrs el BioMedia._imgSources p')
              /\ DOM.hasAttribute (page w') el "data-src" = false
              /\ (DOM.getAttribute p' el "src" = Some x ->
                  DOM.getAttribute (page w') el "src" = Some x)
              /\ (DOM.contains p' el loadedClass = true ->
                  DOM.contains (page w') el loadedClass = true)).
  { intros p' w0. eexists _, _. split; [reflexivity|].
    split; [destruct (0 <? Bio.erCounted me); reflexivity|].
    cbn [BioMedia.setImage_finally on_page page Exn.with_page].
    split; [reflexivity|]. unfold dBlazy.trigger, dBlazy.removeAttrs, BioMedia._imgSources.
    cbn [fold_left].
    change ("data-" +:+ BioMedia._srcSet) with "data-srcset".
    change ("data-" +:+ BioMedia._src) with "data-src".
    split; [|split].
    - apply DOMFacts.hasAttribute_false. rewrite ProtocolFacts.getAttribute_record.
      apply DOMFacts.getAttribute_removeAttribute_eq.
    - intros H. rewrite ProtocolFacts.getAttribute_record.
      now rewrite !DOMFacts.getAttribute_removeAttribute_ne by discriminate.
    - intros H. now rewrite ProtocolFacts.contains_record, !DOMFacts.contains_removeAttribute. }
  destruct (Exn.on_success hs) as [f|].
  - unfold Exn.lift. cbn [page Exn.with_page].
    destruct (f el (Exn.Code Bio._ok) before) as [p'|p'].
    + apply Hran.
    + cbv zeta. unfold Exn.setImage_catch.
      change (Exn.with_page p' (Exn.with_page before (on_page (BioMedia.applyAttrs el false) w)))
        with (Exn.with_page p' w).
      destruct (Exn.loaded hs me el Exn.Exception (Exn.with_page p' w)) as [[me2 w2]|[me2 w2]];
        reflexivity.
  - apply Hran.
Qed.

Lemma success_roundtrip_of_the_code_witness :
  exists me' w',
    Exn.settle Exn.orchestrated Fixture.orchestrated Fixture.probe1 BioMedia.onload
      Fixture.hit_orchestrated = Returned (me', w')
    /\ DOM.getAttribute (page w') 1%nat "src" = Some "a.jpg"
    /\ DOM.contains (page w') 1%nat "b-loaded" = true
    /\ DOM.hasAttribute (page w') 1%nat "data-src" = false.
Proof.
  destruct (success_roundtrip_of_the_code Exn.orchestrated Fixture.orchestrated Fixture.probe1
              Fixture.hit_orchestrated "a.jpg") as (_ & _ & H).
  - reflexivity.
  - vm_compute. reflexivity.
  - vm_compute. reflexivity.
  - vm_compute. reflexivity.
  - cbn [Exn.on_success Exn.orchestrated] in H.
    match type of H with
    | match ?c with Returned _ => _ | Thrown _ => _ end =>
        assert (Hs : DOM.getAttribute (Exn.reached c) 1%nat "src" = Some "a.jpg")
          by (vm_compute; reflexivity);
        assert (Hc : DOM.contains (Exn.reached c) 1%nat "b-loaded" = true)
          by (vm_compute; reflexivity);
        assert (Hr : match c with Returned _ => True | Thrown _ => False end)
          by (vm_compute; exact I);
        destruct c as [p'|p']
    end.
    + destruct H as (me' & w' & H1 & _ & _ & H4 & H5 & H6). exists me', w'.
      split; [exact H1|]. split; [exact (H5 Hs)|]. split; [exact (H6 Hc) | exact H4].
    + destruct Hr.
Defined.

(** C5, as the specification has it, fails: under the loader the
    orchestrator builds, on the image whose [data-animation] is
    ["zoom in"] and whose probe loads, the success callback [clearing]
    throws at [classList.add('animated', 'zoom in')]; the [then] handler
    ends there, and [data-src] is still on the element when the protocol
    has ended (so is [data-bio-hit]: the [catch] handler throws as
    well). *)
Lemma data_src_stays_when_callback_throws :
  images Animated.hit = [Fixture.probe1]
  /\ DOM.getAttribute (page Animated.hit) 1%nat "data-src" = Some "a.jpg"
  /\ DOM.getAttribute (page (snd Animated.loaded)) 1%nat "data-src" = Some "a.jpg"
  /\ DOM.getAttribute (page (snd Animated.loaded)) 1%nat "src" = Some "a.jpg"
  /\ DOM.getAttribute (page (snd Animated.loaded)) 1%nat "data-bio-hit" = Some "1"
  /\ last (history (page (snd Animated.loaded))) = Some (Dispatch 1%nat "bio.finally").
Proof. vm_compute. repeat split. Qed.

(** ** The loader of the orchestrator, with its exceptions *)

Module OrchestratorFacts.

Import DOM DOMFacts.

Lemma animated_ext p q el :
  tree q = tree p ->
  (forall e, getAttribute q e "data-animation" = getAttribute p e "data-animation") ->
  Exn.animated q el = Exn.animated p el.
Proof.
  intros Ht Ha. unfold Exn.animated, dBlazy.closest, ancestors, Blazy.has. rewrite Ht.
  rewrite (OrchestratedFacts.find_pointwise
             (fun a => matches q a (SelAttr "data-animation"))
             (fun a => matches p a (SelAttr "data-animation"))).
  - now rewrite !hasAttribute_getAttribute, Ha.
  - intros a. cbn [matches]. now rewrite !hasAttribute_getAttribute, Ha.
Qed.

Lemma animation_ok_ext p q el :
  tree q = tree p ->
  (forall e, getAttribute q e "data-animation" = getAttribute p e "data-animation") ->
  Exn.animation_ok q el = Exn.animation_ok p el.
Proof.
  intros Ht Ha. unfold Exn.animation_ok. rewrite (animated_ext p q el Ht Ha).
  destruct (Exn.animated p el); [now rewrite Ha | reflexivity].
Qed.

Lemma calm_ext p q : blazy q = blazy p -> Exn.calm p -> Exn.calm q.
Proof. unfold Exn.calm. now intros ->. Qed.

Lemma handed_static el isBg cls p :
  tree (Exn.handed el isBg cls p) = tree p /\ blazy (Exn.handed el isBg cls p) = blazy p.
Proof. exact (OrchestratedFacts.applyAttrs_static el isBg p). Qed.

Lemma handed_getAttribute el isBg cls p e n :
  n <> "src" -> n <> "srcset" ->
  getAttribute (Exn.handed el isBg cls p) e n = getAttribute p e n.
Proof.
  intros N1 N2. unfold Exn.handed. rewrite getAttribute_classList_add.
  now apply OrchestratedFacts.applyAttrs_other_attribute.
Qed.

(** On that page [clearing] ends as on the page of the probe. *)
Lemma clearing_handed el isBg cls p status :
  Exn.calm p ->
  Exn.clearing el (Exn.handed el isBg cls p)
  = if Exn.animation_ok p el
    then Returned (Blazy.clearing el status (Exn.handed el isBg cls p))
    else Thrown (Exn.before_animation el (Exn.handed el isBg cls p)).
Proof.
  intros Hcalm. destruct (handed_static el isBg cls p) as [Ht Hb].
  rewrite (ExnFacts.clearing_outcome el _ status) by now apply (calm_ext p).
  rewrite (animation_ok_ext p); [reflexivity | exact Ht |].
  intros e. apply handed_getAttribute; discriminate.
Qed.

(** The chain of the orchestrated loader when the probe has failed. *)
Lemma orchestrated_onerror me img w :
  let el := for_element img in
  let before := Exn.handed el (background img) (Options.errorClass (Bio.options me)) (page w) in
  Classes.token (Options.errorClass (Bio.options me)) = true ->
  Exn.calm (page w) ->
  Exn.settle Exn.orchestrated me img BioMedia.onerror w
  = if Exn.animation_ok (page w) el
    then Returned (Bio.with_erCounted (Bio.erCounted me + 1) me,
                   {| page := dBlazy.trigger el "bio.finally"
                                (removeAttribute el "data-bio-hit"
                                   (Blazy.clearing el Bio._er before));
                      vars := vars w; images := images w |})
    else Thrown (me,
                 {| page := dBlazy.trigger el "bio.finally"
                              (Exn.before_animation el before);
                    vars := vars w; images := images w |}).
Proof.
  intros el before Htok Hcalm.
  rewrite SettleFacts.chain_onerror, LoaderFacts.loaded_outcome. cbv zeta.
  change (Exn.is_ok (Exn.Code Bio._er)) with false. cbv iota. rewrite Htok.
  unfold Exn.error, Exn.lift, Exn.with_page, on_page.
  cbn [Exn.on_error Exn.orchestrated page vars images].
  change (classList_add (for_element img) (Options.errorClass (Bio.options me))
            (BioMedia.applyAttrs (for_element img) (background img) (page w)))
    with before.
  unfold before. rewrite (clearing_handed el _ _ (page w) Bio._er Hcalm).
  destruct (Exn.animation_ok (page w) el); reflexivity.
Qed.

(** The chain when the probe has loaded and the animation can be put
    on. *)
Lemma orchestrated_onload me img w :
  let el := for_element img in
  let before := Exn.handed el (background img) (Options.successClass (Bio.options me)) (page w) in
  Classes.token (Options.successClass (Bio.options me)) = true ->
  Exn.calm (page w) ->
  Exn.animation_ok (page w) el = true ->
  Exn.settle Exn.orchestrated me img BioMedia.onload w
  = Returned (if 0 <? Bio.erCounted me then Bio.with_erCounted (Bio.erCounted me - 1) me
              else me,
              {| page := dBlazy.trigger el "bio.finally"
                           (dBlazy.removeAttrs el (if background img then BioMedia._bgSources
                                                   else BioMedia._imgSources)
                              (Blazy.clearing el Bio._ok before));
                 vars := vars w; images := images w |}).
Proof.
  intros el before Htok Hcalm Hok.
  rewrite SettleFacts.chain_onload, LoaderFacts.loaded_outcome. cbv zeta.
  change (Exn.is_ok (Exn.Code Bio._ok)) with true. cbv iota. rewrite Htok.
  unfold Exn.success, Exn.lift, Exn.with_page, on_page.
  cbn [Exn.on_success Exn.orchestrated page vars images].
  change (classList_add (for_element img) (Options.successClass (Bio.options me))
            (BioMedia.applyAttrs (for_element img) (background img) (page w)))
    with before.
  unfold before. rewrite (clearing_handed el _ _ (page w) Bio._ok Hcalm), Hok. reflexivity.
Qed.

End OrchestratorFacts.

(** X23.  Under the loader the orchestrator builds, with a success class
    that is a plain name other than the orchestrator's error class: an
    image with [data-src="X"] whose probe loads ends -- when no listener
    of [blazy.native] will run and the animation asked for on the image
    or above it, if any, has a name that is a class token -- with [src]
    equal to [X], with the success class and without [data-src]. *)
Theorem orchestrated_success_path (me : Bio.t) (img : Image) (w : World) (x : string) :
  let el := for_element img in
  let loadedClass := Options.successClass (Bio.options me) in
  Words.plain loadedClass = true ->
  loadedClass <> blazy_errorClass (blazy (page w)) ->
  background img = false ->
  dBlazy.equal (page w) (Some el) "img" = true ->
  DOM.getAttribute (page w) el "data-src" = Some x ->
  Exn.calm (page w) ->
  Exn.animation_ok (page w) el = true ->
  exists me' w',
    Exn.settle Exn.orchestrated me img BioMedia.onload w = Returned (me', w')
    /\ DOM.getAttribute (page w') el "src" = Some x
    /\ DOM.contains (page w') el loadedClass = true
    /\ DOM.hasAttribute (page w') el "data-src" = false.
Proof.
  intros el loadedClass Hp Hne Hb Himg Hx Hcalm Hok.
  rewrite (OrchestratorFacts.orchestrated_onload me img w (TokenFacts.plain_token _ Hp) Hcalm Hok).
  eexists _, _. split; [reflexivity|]. cbn [page]. rewrite Hb. fold el loadedClass.
  unfold dBlazy.trigger, dBlazy.removeAttrs, BioMedia._imgSources. cbn [fold_left].
  change ("data-" +:+ BioMedia._srcSet) with "data-srcset".
  change ("data-" +:+ BioMedia._src) with "data-src".
  destruct (BioMediaFacts.applyAttrs_image el (page w)
              (BioMediaFacts.equal_img_reflects _ _ Himg)) as (Hsrc & _ & _ & _).
  destruct (OrchestratorFacts.handed_static el false loadedClass (page w)) as [_ Hbl].
  split; [|split].
  - rewrite ProtocolFacts.getAttribute_record.
    rewrite !DOMFacts.getAttribute_removeAttribute_ne by discriminate.
    rewrite BlazyFacts.clearing_getAttribute. unfold Exn.handed.
    rewrite DOMFacts.getAttribute_classList_add. exact (Hsrc x Hx).
  - rewrite ProtocolFacts.contains_record, !DOMFacts.contains_removeAttribute.
    apply ClearingFacts.clearing_keeps_class; [exact Hp | now rewrite Hbl |].
    apply DOMFacts.contains_classList_add.
  - apply DOMFacts.hasAttribute_false. rewrite ProtocolFacts.getAttribute_record.
    apply DOMFacts.getAttribute_removeAttribute_eq.
Qed.

Lemma orchestrated_success_path_witness :
  exists me' w',
    Exn.settle Exn.orchestrated Fixture.orchestrated Fixture.probe1 BioMedia.onload
      Fixture.hit_orchestrated = Returned (me', w')
    /\ DOM.getAttribute (page w') 1%nat "src" = Some "a.jpg"
    /\ DOM.contains (page w') 1%nat "b-loaded" = true
    /\ DOM.hasAttribute (page w') 1%nat "data-src" = false.
Proof.
  refine (orchestrated_success_path Fixture.orchestrated Fixture.probe1
            Fixture.hit_orchestrated "a.jpg" _ _ _ _ _ _ _).
  - vm_compute. reflexivity.
  - vm_compute. discriminate.
  - reflexivity.
  - vm_compute. reflexivity.
  - vm_compute. reflexivity.
  - right. vm_compute. reflexivity.
  - vm_compute. reflexivity.
Defined.

(** X24.  Under the loader the orchestrator builds, the error class being
    a class token and no listener of [blazy.native] being about to run, a
    failed probe ends in one of two ways.  When the animation asked for on
    the element or above it has a name that is a class token (or none is
    asked for), the chain returns: [erCounted] has gone up by one, the
    real attributes are applied and [data-bio-hit] is off -- and so is
    the error class, when [Drupal.blazy.init] is assigned, the class is
    the orchestrator's and no animation is asked for.  Otherwise the
    chain ends rejected: [erCounted] is as it was and [data-bio-hit] is
    still on the element if it was. *)
Theorem orchestrated_failure_path (me : Bio.t) (img : Image) (w : World) :
  let el := for_element img in
  let errorClass := Options.errorClass (Bio.options me) in
  let done := Exn.settle Exn.orchestrated me img BioMedia.onerror w in
  well_formed_probe (page w) img ->
  Classes.token errorClass = true ->
  Exn.calm (page w) ->
  if Exn.animation_ok (page w) el
  then exists w',
         done = Returned (Bio.with_erCounted (Bio.erCounted me + 1) me, w')
         /\ promoted (page w) img (page w')
         /\ DOM.hasAttribute (page w') el "data-bio-hit" = false
         /\ (init_assigned (blazy (page w)) = true ->
             errorClass = blazy_errorClass (blazy (page w)) ->
             Exn.animated (page w) el = None ->
             DOM.contains (page w') el errorClass = false)
  else exists w',
         done = Thrown (me, w')
         /\ promoted (page w) img (page w')
         /\ DOM.hasAttribute (page w') el "data-bio-hit"
            = DOM.hasAttribute (page w) el "data-bio-hit".
Proof.
  intros el errorClass done Hwf Htok Hcalm. subst done.
  rewrite (OrchestratorFacts.orchestrated_onerror me img w Htok Hcalm). fold el errorClass.
  set (before := Exn.handed el (background img) errorClass (page w)).
  assert (Hprom : promoted (page w) img before).
  { apply BioMediaFacts.promoted_classList_add. now apply BioMediaFacts.applyAttrs_promoted. }
  destruct (OrchestratorFacts.handed_static el (background img) errorClass (page w))
    as [Ht Hbl]. fold before in Ht, Hbl.
  destruct (Exn.animation_ok (page w) el) eqn:Hok.
  - eexists. split; [reflexivity|]. cbn [page]. unfold dBlazy.trigger. split; [|split].
    + apply ProtocolFacts.promoted_record.
      apply BioMediaFacts.promoted_removeAttribute; [discriminate | discriminate |].
      now apply BlazyFacts.clearing_keeps_promoted.
    + apply DOMFacts.hasAttribute_false. rewrite ProtocolFacts.getAttribute_record.
      apply DOMFacts.getAttribute_removeAttribute_eq.
    + intros Hi Hec Han.
      rewrite ProtocolFacts.contains_record, DOMFacts.contains_removeAttribute.
      rewrite Hec, <- Hbl.
      assert (Han' : Exn.animated before el = None).
      { rewrite (OrchestratorFacts.animated_ext (page w)); [exact Han | exact Ht |].
        intros e. apply OrchestratorFacts.handed_getAttribute; discriminate. }
      unfold Exn.animated in Han'.
      destruct (dBlazy.closest before el (DOM.SelAttr "data-animation")) eqn:Hc;
        [discriminate|].
      apply OrchestratedFacts.clearing_removes_error_class;
        [now rewrite Hbl | exact Hc |].
      unfold Blazy.has in Han'. destruct (DOM.hasAttribute before el "data-animation");
        [discriminate | reflexivity].
  - eexists. split; [reflexivity|]. cbn [page]. unfold dBlazy.trigger. split.
    + apply ProtocolFacts.promoted_record.
      unfold promoted in *. fold el in Hprom |- *.
      destruct (background img).
      * intros x Hx. unfold Exn.before_animation, Blazy.updateContainer.
        rewrite DOMFacts.node_record.
        rewrite (BlazyFacts.reevaluate_frame (fun e => style e !! "backgroundImage")
                   (fun _ _ => eq_refl)).
        rewrite (BlazyFacts.clearLoading_frame (fun e => style e !! "backgroundImage")
                   (fun _ _ => eq_refl)).
        exact (Hprom x Hx).
      * destruct Hprom as [H1 H2].
        split; intros v Hv; rewrite ExnFacts.before_animation_getAttribute; auto.
    + rewrite !DOMFacts.hasAttribute_getAttribute, ProtocolFacts.getAttribute_record.
      rewrite ExnFacts.before_animation_getAttribute.
      unfold before. now rewrite OrchestratorFacts.handed_getAttribute by discriminate.
Qed.

Lemma orchestrated_failure_path_witness :
  exists w',
    Exn.settle Exn.orchestrated Animated.loader Fixture.probe1 BioMedia.onerror Animated.hit
    = Thrown (Animated.loader, w')
    /\ DOM.hasAttribute (page w') 1%nat "data-bio-hit"
       = DOM.hasAttribute (page Animated.hit) 1%nat "data-bio-hit".
Proof.
  assert (Hwf : well_formed_probe (page Animated.hit) Fixture.probe1).
  { intros _. vm_compute. reflexivity. }
  assert (Htok : Classes.token (Options.errorClass (Bio.options Animated.loader)) = true)
    by (vm_compute; reflexivity).
  assert (Hcalm : Exn.calm (page Animated.hit)) by (right; vm_compute; reflexivity).
  pose proof (orchestrated_failure_path Animated.loader Fixture.probe1 Animated.hit
                Hwf Htok Hcalm) as H.
  cbv zeta in H.
  assert (Hno : Exn.animation_ok (page Animated.hit) (for_element Fixture.probe1) = false)
    by (vm_compute; reflexivity).
  rewrite Hno in H. destruct H as (w' & H1 & _ & H3). exists w'. split; [exact H1 | exact H3].
Defined.

(** ** [blazy.native], with the listener of [doNativeLazy] *)

Module ListenerFacts.

Import DOM DOMFacts.

(** What [clearing] leaves of the orchestrator's state when it returns. *)
Lemma clearing_blazy el status p :
  isNativeExecuted (blazy (Blazy.clearing el status p)) = true
  /\ context (blazy (Blazy.clearing el status p)) = context (blazy p)
  /\ listening (blazy (Blazy.clearing el status p)) = listening (blazy p).
Proof.
  unfold Blazy.clearing.
  match goal with
  | |- context [dBlazy.trigger el "blazy.done" ?q] =>
      assert (H4 : blazy q = blazy p); [|set (p4 := q) in *]
  end.
  { assert (H3 : Quiet.quiet p (Exn.before_animation el p))
      by apply ExnFacts.before_animation_quiet.
    unfold Exn.before_animation in H3.
    destruct (dBlazy.closest p el (SelAttr "data-animation")).
    - now destruct (NativeFacts.quiet_trans _ _ _ H3 (NativeFacts.quiet_animate e None _))
        as (? & _ & _ & ?).
    - match goal with |- context [if ?c then _ else _] => destruct c end.
      + now destruct (NativeFacts.quiet_trans _ _ _ H3 (NativeFacts.quiet_animate el None _))
          as (? & _ & _ & ?).
      + now destruct H3 as (? & _ & _ & ?). }
  unfold dBlazy.trigger. cbn [record blazy]. rewrite H4.
  destruct (isNativeExecuted (blazy p)) eqn:Hn;
    cbn [set_blazy record blazy isNativeExecuted context listening]; rewrite ?H4; auto.
Qed.

(** One call of [clearing] where no listener will run, however it
    ends. *)
Lemma clearing_step el p :
  Exn.calm p ->
  let q := Exn.reached (Exn.clearing el p) in
  (exists added,
     history q = history p ++ added
     /\ List.filter Classes.is_native added =
          (if isNativeExecuted (blazy p) then []
           else if isNativeExecuted (blazy q)
                then [Dispatch (context (blazy p)) "blazy.native"] else []))
  /\ context (blazy q) = context (blazy p)
  /\ listening (blazy q) = listening (blazy p)
  /\ (isNativeExecuted (blazy p) = true -> isNativeExecuted (blazy q) = true)
  /\ match Exn.clearing el p with
     | Returned q1 => isNativeExecuted (blazy q1) = true
     | Thrown q1 => isNativeExecuted (blazy q1) = isNativeExecuted (blazy p)
     end.
Proof.
  intros Hcalm q. subst q. rewrite (ExnFacts.clearing_outcome el p 0 Hcalm).
  destruct (Exn.animation_ok p el); cbn [Exn.reached].
  - destruct (clearing_blazy el 0 p) as (Hn & Hc & Hl).
    destruct (NativeFacts.clearing_native el 0 p) as (added & Hh & Hf & _ & _).
    rewrite Hn. repeat split; auto.
    exists added. split; [exact Hh|]. rewrite Hf. now destruct (isNativeExecuted (blazy p)).
  - destruct (ExnFacts.before_animation_quiet el p) as (added & Hh & Hf & Hb).
    rewrite Hb. repeat split; auto.
    exists added. split; [exact Hh|]. rewrite Hf. now destruct (isNativeExecuted (blazy p)).
Qed.

Lemma calm_step el p : Exn.calm p -> Exn.calm (Exn.reached (Exn.clearing el p)).
Proof.
  intros Hcalm. destruct (clearing_step el p Hcalm) as (_ & _ & Hl & Hn & _).
  destruct Hcalm as [H|H]; [left; auto | right; congruence].
Qed.

(** Once set, [_isNativeExecuted] stays set. *)
Lemma flag_kept calls p :
  Exn.calm p ->
  isNativeExecuted (blazy p) = true ->
  isNativeExecuted
    (blazy (fold_left (fun q el => Exn.reached (Exn.clearing el q)) calls p)) = true.
Proof.
  revert p. induction calls as [|el calls IH]; intros p Hcalm H; [exact H|].
  cbn [fold_left]. apply IH; [now apply calm_step|].
  now apply (clearing_step el p Hcalm).
Qed.

(** The tree and the window when [clearing] comes to the animation. *)
Lemma before_animation_static el p :
  window (Exn.before_animation el p) = window p
  /\ tree (Exn.before_animation el p) = tree p.
Proof.
  assert (Hcl : forall q, window (Blazy.clearLoading el q) = window q
                          /\ tree (Blazy.clearLoading el q) = tree q).
  { intros q. unfold Blazy.clearLoading.
    generalize [Some el; dBlazy.closest q el (SelClass "is-loading");
                dBlazy.closest q el (SelClassIncludes "loading")].
    intros loaders. revert q. induction loaders as [|[l|] loaders IH]; intros q; simpl.
    - auto.
    - destruct (IH (set_className l (Blazy.replace_loading (className q l)) q)) as [-> ->].
      auto.
    - apply IH. }
  assert (Hre : forall q, window (Blazy.reevaluate el q) = window q
                          /\ tree (Blazy.reevaluate el q) = tree q).
  { intros q. unfold Blazy.reevaluate.
    repeat match goal with |- context [if ?c then _ else _] => destruct c end; auto. }
  unfold Exn.before_animation, Blazy.updateContainer. cbn [record window tree].
  destruct (Hre (Blazy.clearLoading el p)) as [-> ->]. apply Hcl.
Qed.

End ListenerFacts.

(** X20.  Where no listener of [blazy.native] will run -- the event has
    been dispatched, or [doNativeLazy] has bound none -- however often
    [clearing] is called and however the calls end, [blazy.native] is
    dispatched at most once, on the context, and only when it had not
    been dispatched before.  A call that returns leaves
    [_isNativeExecuted] set; a call that throws, at the animation, leaves
    it as it was. *)
Theorem native_dispatched_at_most_once (calls : list ElId) (p : Page) :
  let q := fold_left (fun q el => Exn.reached (Exn.clearing el q)) calls p in
  Exn.calm p ->
  (exists added,
     history q = history p ++ added
     /\ List.filter Classes.is_native added =
          (if isNativeExecuted (blazy p) then []
           else if isNativeExecuted (blazy q)
                then [Dispatch (context (blazy p)) "blazy.native"] else []))
  /\ (isNativeExecuted (blazy p) = true -> isNativeExecuted (blazy q) = true)
  /\ forall el, match Exn.clearing el p with
                | Returned q1 => isNativeExecuted (blazy q1) = true
                | Thrown q1 => isNativeExecuted (blazy q1) = isNativeExecuted (blazy p)
                end.
Proof.
  intros q Hcalm. subst q.
  split; [|split]; [| |intros el; apply (ListenerFacts.clearing_step el p Hcalm)].
  - revert p Hcalm. induction calls as [|el calls IH]; intros p Hcalm; cbn [fold_left].
    + exists []. rewrite app_nil_r. split; [reflexivity|].
      now destruct (isNativeExecuted (blazy p)).
    + destruct (ListenerFacts.clearing_step el p Hcalm)
        as ((a & Ha & Fa) & Hc & _ & Hn & _).
      set (p1 := Exn.reached (Exn.clearing el p)) in *.
      destruct (IH p1 (ListenerFacts.calm_step el p Hcalm)) as (b & Hb & Fb).
      set (q := fold_left _ calls p1) in *.
      assert (Hkeep : isNativeExecuted (blazy p1) = true -> isNativeExecuted (blazy q) = true)
        by apply (ListenerFacts.flag_kept calls p1 (ListenerFacts.calm_step el p Hcalm)).
      exists (a ++ b). rewrite Hb, Ha, <- app_assoc, List.filter_app, Fa, Fb, Hc.
      split; [reflexivity|].
      destruct (isNativeExecuted (blazy p)); [now rewrite (Hn eq_refl)|].
      destruct (isNativeExecuted (blazy p1)) eqn:E1; [now rewrite (Hkeep eq_refl)|].
      reflexivity.
  - now apply ListenerFacts.flag_kept.
Qed.

Lemma native_dispatched_at_most_once_witness :
  exists added,
    history (fold_left (fun q el => Exn.reached (Exn.clearing el q)) [1; 8]%nat Sample.page0)
    = history Sample.page0 ++ added
    /\ List.filter Classes.is_native added =
         (if isNativeExecuted (blazy Sample.page0) then []
          else if isNativeExecuted
                    (blazy (fold_left (fun q el => Exn.reached (Exn.clearing el q))
                              [1; 8]%nat Sample.page0))
               then [Dispatch (context (blazy Sample.page0)) "blazy.native"] else []).
Proof.
  refine (proj1 (native_dispatched_at_most_once [1; 8]%nat Sample.page0 _)).
  right. reflexivity.
Defined.

(** X21.  Where no listener of [blazy.native] will run, whatever element
    [clearing] is run on and however it ends, it leaves on every element
    the tag name, the content attributes and the CSS background as they
    were, and keeps every class that is a plain name (not empty, no white
    space, no ["loading"] in it) other than the error class of the
    orchestrator; it changes neither the tree nor the window. *)
Theorem clearing_spares_the_elements (el : ElId) (p : Page) (el' : ElId) :
  let q := Exn.reached (Exn.clearing el p) in
  Exn.calm p ->
  nodeName (DOM.node q el') = nodeName (DOM.node p el')
  /\ attributes (DOM.node q el') = attributes (DOM.node p el')
  /\ style (DOM.node q el') !! "backgroundImage" = style (DOM.node p el') !! "backgroundImage"
  /\ (forall t, Words.plain t = true -> t <> blazy_errorClass (blazy p) ->
        DOM.contains p el' t = true -> DOM.contains q el' t = true)
  /\ tree q = tree p /\ window q = window p.
Proof.
  intros q Hcalm. subst q. rewrite (ExnFacts.clearing_outcome el p 0 Hcalm).
  destruct (Exn.animation_ok p el); cbn [Exn.reached].
  - split; [|split; [|split; [|split]]].
    + apply (BlazyFacts.clearing_frame nodeName); reflexivity.
    + apply (BlazyFacts.clearing_frame attributes); reflexivity.
    + apply BlazyFacts.clearing_backgroundImage.
    + intros t Ht Hne Hc. now apply ClearingFacts.clearing_keeps_class.
    + destruct (SparesFacts.clearing_static el 0 p) as [Hw Ht]. auto.
  - assert (Hf : forall {A : Type} (field : Element -> A),
               (forall l e, field (DOM.with_classList l e) = field e) ->
               field (DOM.node (Exn.before_animation el p) el') = field (DOM.node p el')).
    { intros A field Hfield. unfold Exn.before_animation, Blazy.updateContainer.
      rewrite DOMFacts.node_record.
      rewrite (BlazyFacts.reevaluate_frame field Hfield).
      now rewrite (BlazyFacts.clearLoading_frame field Hfield). }
    split; [|split; [|split; [|split]]].
    + apply (Hf _ nodeName). reflexivity.
    + apply (Hf _ attributes). reflexivity.
    + apply (Hf _ (fun e => style e !! "backgroundImage")). reflexivity.
    + intros t Ht Hne Hc. apply bool_decide_eq_true in Hc. apply bool_decide_eq_true.
      unfold Exn.before_animation, Blazy.updateContainer. rewrite DOMFacts.node_record.
      apply (ClearingFacts.reevaluate_keeps t).
      * now rewrite OrchestratedFacts.clearLoading_blazy.
      * now apply ClearingFacts.clearLoading_keeps.
    + destruct (ListenerFacts.before_animation_static el p) as [Hw Ht]. auto.
Qed.

Lemma clearing_spares_the_elements_witness :
  attributes (DOM.node (Exn.reached (Exn.clearing 1%nat Animated.page0)) 1%nat)
  = attributes (DOM.node Animated.page0 1%nat).
Proof.
  refine (proj1 (proj2 (clearing_spares_the_elements 1%nat Animated.page0 1%nat _))).
  right. reflexivity.
Defined.

(** ** A failed image is tried again *)

Module AgainFacts.

Import DOM DOMFacts.

Lemma animation_ok_none p el :
  dBlazy.closest p el (SelAttr "data-animation") = None ->
  hasAttribute p el "data-animation" = false ->
  Exn.animation_ok p el = true.
Proof.
  intros Han Hda. unfold Exn.animation_ok, Exn.animated, Blazy.has. now rewrite Han, Hda.
Qed.

(** An image that is not marked, outside a picture: [me.lazyLoad] makes
    its probe and leaves the instance as it is. *)
Lemma image_is_preloaded hs me el w :
  hasAttribute (page w) el "data-bio-hit" = false ->
  dBlazy.equal (page w) (parentNode (page w) el) "picture" = false ->
  dBlazy.equal (page w) (Some el) "img" = true ->
  Exn.lazyLoad hs me el w =
    Returned
      (me,
       {| page := setAttribute el "data-bio-hit" "1" (page w);
          vars := vars w;
          images := images w ++
                    [{| for_element := el; background := false;
                        image_src := getAttribute (page w) el "data-src";
                        image_srcset := getAttribute (page w) el "data-srcset" |}] |}).
Proof.
  intros Hhit Hpic Himg. unfold Exn.lazyLoad. rewrite Hhit.
  assert (Hv : dBlazy.equal (page w) (Some el) "video" = false).
  { unfold dBlazy.equal in *. apply String.eqb_eq in Himg. now rewrite Himg. }
  rewrite (LoaderFacts.branch_preloads hs me el w Hpic Hv) by now rewrite Himg.
  assert (Hs : src_undefined (page w) el = false).
  { unfold src_undefined. now rewrite (BioMediaFacts.equal_img_reflects _ _ Himg). }
  rewrite Hs. reflexivity.
Qed.

End AgainFacts.

(** X22.  Under the loader the orchestrator builds -- [clearing] is the
    error callback, [Drupal.blazy.init] is assigned -- an image whose
    probe fails is tried again: the chain returns, the failure leaves a
    timer of 10 ms that calls [me.load] on the image, and that call makes
    a new probe from the same [data-src] and [data-srcset]; nothing
    bounds the number of tries.  (The image is outside a picture, its
    classes hold no ["loading"], no animation is asked for on it or above
    it, and no listener of [blazy.native] will run.) *)
Theorem failed_image_is_tried_again (me : Bio.t) (img : Image) (w : World) :
  let el := for_element img in
  let p := page w in
  let errorClass := Options.errorClass (Bio.options me) in
  let successClass := Options.successClass (Bio.options me) in
  init_assigned (blazy p) = true ->
  blazy_errorClass (blazy p) = errorClass ->
  Words.plain errorClass = true ->
  errorClass <> successClass ->
  background img = false ->
  dBlazy.equal p (Some el) "img" = true ->
  dBlazy.equal p (DOM.parentNode p el) "picture" = false ->
  Forall (fun t => Words.plain t = true) (classList (DOM.node p el)) ->
  DOM.contains p el successClass = false ->
  dBlazy.closest p el (DOM.SelAttr "data-animation") = None ->
  DOM.hasAttribute p el "data-animation" = false ->
  Exn.calm p ->
  is_Some (Bio.observer me) ->
  exists me1 w1,
    Exn.settle Exn.orchestrated me img BioMedia.onerror w = Returned (me1, w1)
    /\ In (SetTimeout (Reload el) 10) (history (page w1))
    /\ exists me2 w2,
         Exn.load Exn.orchestrated BioProto.OfBioMedia me1 (BioProto.One el) w1
         = Returned (me2, w2)
         /\ images w2 =
              images w ++
              [{| for_element := el; background := false;
                  image_src := DOM.getAttribute p el "data-src";
                  image_srcset := DOM.getAttribute p el "data-srcset" |}]
         /\ Bio.erCounted me2 = Bio.erCounted me + 1.
Proof.
  intros el p ec sc Hi Hec Hplain Hne Hb Himg Hpic Hcls Hsc Han Hda Hcalm Hio.
  rewrite (OrchestratorFacts.orchestrated_onerror me img w (TokenFacts.plain_token _ Hplain) Hcalm).
  fold el p ec. rewrite (AgainFacts.animation_ok_none p el Han Hda), Hb.
  eexists _, _. split; [reflexivity|]. cbn [page].
  unfold Exn.handed.
  set (before := DOM.classList_add el ec (BioMedia.applyAttrs el false p)).
  set (pc := Blazy.clearing el Bio._er before).
  destruct (OrchestratedFacts.applyAttrs_static el false p) as [Ht Hbl].
  assert (Hbz : blazy before = blazy p) by exact Hbl.
  assert (Htb : tree before = tree p) by exact Ht.
  assert (Hattr : forall e n, n <> "src" -> n <> "srcset" ->
                    DOM.getAttribute before e n = DOM.getAttribute p e n).
  { intros e n N1 N2. subst before.
    rewrite DOMFacts.getAttribute_classList_add.
    apply OrchestratedFacts.applyAttrs_other_attribute; assumption. }
  assert (Hname : forall e, nodeName (DOM.node before e) = nodeName (DOM.node p e)).
  { intros e. subst before. unfold DOM.classList_add.
    rewrite (DOMFacts.mutate_frame nodeName) by reflexivity.
    apply (RetryFacts.applyAttrs_field nodeName); reflexivity. }
  assert (Hcb0 : classList (DOM.node before el)
                 = DOM.ordered_set (classList (DOM.node p el) ++ [ec])).
  { subst before. unfold DOM.classList_add. rewrite DOMFacts.node_mutate_eq.
    cbn [classList DOM.with_classList].
    rewrite (RetryFacts.applyAttrs_field classList) by reflexivity. reflexivity. }
  assert (Hpl : Forall (fun t => Words.plain t = true) (classList (DOM.node before el))).
  { rewrite Hcb0. apply List.Forall_forall. intros t Ht'.
    apply list_elem_of_In, DOMFacts.elem_of_ordered_set, elem_of_app in Ht'.
    destruct Ht' as [Ht'|Ht'].
    - rewrite List.Forall_forall in Hcls. apply Hcls. apply list_elem_of_In. exact Ht'.
    - apply list_elem_of_singleton in Ht'. rewrite Ht'. exact Hplain. }
  (* the element after clearLoading *)
  set (p1 := Blazy.clearLoading el before).
  assert (Hc1 : classList (DOM.node p1 el) = classList (DOM.node before el))
    by (apply RetryFacts.clearLoading_plain; exact Hpl).
  assert (Hb1 : blazy p1 = blazy p).
  { subst p1. rewrite OrchestratedFacts.clearLoading_blazy. exact Hbz. }
  assert (Hhas : DOM.contains p1 el (blazy_errorClass (blazy p1)) = true).
  { rewrite Hb1, Hec. unfold DOM.contains. apply bool_decide_eq_true.
    rewrite Hc1, Hcb0, DOMFacts.elem_of_ordered_set, elem_of_app, list_elem_of_singleton.
    right. reflexivity. }
  destruct (ReloadFacts.reevaluate_error el p1 (eq_trans (f_equal init_assigned Hb1) Hi) Hhas)
    as [Htimer Hc2].
  (* no animation on the page the callback is run on *)
  assert (Han' : dBlazy.closest before el (DOM.SelAttr "data-animation") = None).
  { rewrite <- Han. unfold dBlazy.closest, DOM.ancestors. rewrite Htb.
    apply OrchestratedFacts.find_pointwise. intros a. cbn [DOM.matches].
    rewrite !DOMFacts.hasAttribute_getAttribute. rewrite Hattr by discriminate.
    reflexivity. }
  assert (Hda' : DOM.hasAttribute before el "data-animation" = false).
  { rewrite DOMFacts.hasAttribute_getAttribute. rewrite Hattr by discriminate.
    rewrite <- DOMFacts.hasAttribute_getAttribute. exact Hda. }
  assert (Hnode : forall e, DOM.node pc e = DOM.node (Blazy.reevaluate el p1) e).
  { intros e. subst pc p1. apply ReloadFacts.clearing_no_animation; assumption. }
  split.
  { destruct (RetryFacts.clearing_history el Bio._er before) as [added Hh].
    unfold dBlazy.trigger. cbn [DOM.record history]. unfold DOM.removeAttribute.
    rewrite DOMFacts.history_mutate. fold pc in Hh. fold p1 in Hh. rewrite Hh.
    rewrite !in_app_iff. left; left; left. exact Htimer. }
  (* the page the timer finds *)
  set (p' := dBlazy.trigger el "bio.finally" (DOM.removeAttribute el "data-bio-hit" pc)).
  set (me1 := Bio.with_erCounted (Bio.erCounted me + 1) me).
  assert (Hnot : Bio.isLoaded me1 p' el = false).
  { unfold Bio.isLoaded. cbn [me1 Bio.with_erCounted Bio.options]. fold sc.
    subst p'. unfold dBlazy.trigger.
    rewrite ProtocolFacts.contains_record, DOMFacts.contains_removeAttribute.
    unfold DOM.contains. apply bool_decide_eq_false. rewrite Hnode, Hc2, Hc1, Hcb0.
    rewrite list_elem_of_In, List.filter_In. intros [Hin _].
    apply list_elem_of_In in Hin.
    rewrite !DOMFacts.elem_of_ordered_set, elem_of_app, list_elem_of_singleton in Hin.
    destruct Hin as [Hin|Hin]; [|apply Hne; symmetry; exact Hin].
    unfold DOM.contains in Hsc. apply bool_decide_eq_false in Hsc. apply Hsc. exact Hin. }
  assert (Hname' : forall e, nodeName (DOM.node p' e) = nodeName (DOM.node p e)).
  { intros e. subst p'. unfold dBlazy.trigger. rewrite DOMFacts.node_record.
    unfold DOM.removeAttribute. rewrite (DOMFacts.mutate_frame nodeName) by reflexivity.
    subst pc. rewrite (BlazyFacts.clearing_frame nodeName) by reflexivity. apply Hname. }
  assert (Htree' : tree p' = tree p).
  { subst p' pc. unfold dBlazy.trigger. cbn [DOM.record DOM.removeAttribute DOM.mutate tree].
    destruct (SparesFacts.clearing_static el Bio._er before) as [_ ->]. exact Htb. }
  assert (Hattr' : forall n, n <> "src" -> n <> "srcset" -> n <> "data-bio-hit" ->
                     DOM.getAttribute p' el n = DOM.getAttribute p el n).
  { intros n N1 N2 N3. subst p' pc. unfold dBlazy.trigger.
    rewrite ProtocolFacts.getAttribute_record.
    rewrite DOMFacts.getAttribute_removeAttribute_ne by congruence.
    rewrite BlazyFacts.clearing_getAttribute. apply Hattr; assumption. }
  set (w' := {| page := p'; vars := vars w; images := images w |}).
  set (w2 := on_page (dBlazy.trigger el "bio.intersecting") w').
  assert (Hload : Exn.lazyLoad Exn.orchestrated me1 el w2 =
                    Returned
                      (me1,
                       {| page := DOM.setAttribute el "data-bio-hit" "1" (page w2);
                          vars := vars w2;
                          images := images w2 ++
                                    [{| for_element := el; background := false;
                                        image_src := DOM.getAttribute (page w2) el "data-src";
                                        image_srcset :=
                                          DOM.getAttribute (page w2) el "data-srcset" |}] |})).
  { apply AgainFacts.image_is_preloaded.
    - apply DOMFacts.hasAttribute_false. subst w2 w' p'. cbn [on_page page].
      unfold dBlazy.trigger. rewrite !ProtocolFacts.getAttribute_record.
      apply DOMFacts.getAttribute_removeAttribute_eq.
    - change (page w2) with (DOM.record (Dispatch el "bio.intersecting") p').
      unfold dBlazy.equal, DOM.parentNode, DOM.ancestors. cbn [DOM.record tree].
      rewrite Htree'. fold (DOM.ancestors p el). fold (DOM.parentNode p el).
      unfold dBlazy.equal in Hpic.
      destruct (DOM.parentNode p el) as [parent|]; [|reflexivity].
      rewrite DOMFacts.node_record, Hname'. exact Hpic.
    - change (page w2) with (DOM.record (Dispatch el "bio.intersecting") p').
      unfold dBlazy.equal. rewrite DOMFacts.node_record, Hname'. exact Himg. }
  unfold Exn.load. cbn [BioProto.isValid]. fold me1. fold w'.
  change (page w') with p'. rewrite Hnot. cbn [negb].
  unfold Exn.intersecting. cbn [Exn.orchestrated Exn.on_intersecting].
  fold w2. cbn [Exn.lazyLoad_of]. rewrite Hload.
  destruct Hio as [io Hio].
  cbn [BioProto.with_counted Bio.observer Bio.with_erCounted me1 vars].
  rewrite Hio.
  set (w3 := {| page := _; vars := _; images := _ |}).
  assert (Himages : images w3 =
                      images w ++
                      [{| for_element := el; background := false;
                          image_src := DOM.getAttribute p el "data-src";
                          image_srcset := DOM.getAttribute p el "data-srcset" |}]).
  { subst w3 w2 w'. cbn [images on_page page]. unfold dBlazy.trigger at 1 2.
    rewrite !ProtocolFacts.getAttribute_record.
    rewrite !Hattr' by discriminate. reflexivity. }
  destruct (_disconnected (vars w2)) eqn:Hd; cbn [and_then fst snd].
  - assert (Hd3 : _disconnected (vars w3) = true) by exact Hd.
    rewrite Hd3. eexists _, _. split; [reflexivity|]. split; [exact Himages | reflexivity].
  - assert (Hd3 : _disconnected (vars w3) = false) by exact Hd.
    rewrite Hd3.
    match goal with
    | |- context [Bio.disconnect ?m false w3] =>
        destruct (LoopFacts.disconnect_returns m false w3 (mk_is_Some _ _ eq_refl))
          as (me2 & w4 & -> & _ & _ & He & _ & _ & _ & _ & Him)
    end.
    exists me2, w4. split; [reflexivity|]. split; [congruence | exact He].
Qed.

Lemma failed_image_is_tried_again_witness :
  exists me1 w1,
    Exn.settle Exn.orchestrated Fixture.orchestrated Fixture.probe1 BioMedia.onerror
      Fixture.hit_orchestrated = Returned (me1, w1)
    /\ In (SetTimeout (Reload 1%nat) 10) (history (page w1)).
Proof.
  destruct (failed_image_is_tried_again Fixture.orchestrated Fixture.probe1
              Fixture.hit_orchestrated) as (me1 & w1 & H1 & H2 & _).
  - vm_compute. reflexivity.
  - vm_compute. reflexivity.
  - vm_compute. reflexivity.
  - vm_compute. discriminate.
  - reflexivity.
  - vm_compute. reflexivity.
  - vm_compute. reflexivity.
  - vm_compute. repeat constructor.
  - vm_compute. reflexivity.
  - vm_compute. reflexivity.
  - vm_compute. reflexivity.
  - right. vm_compute. reflexivity.
  - vm_compute. eauto.
  - exists me1, w1. split; [exact H1 | exact H2].
Defined.

(** ** Bio: an element comes into view, a callback may throw *)

Module ViewFacts.

Import DOM DOMFacts.

Lemma self_instance me : exists n, me = Bio.with_erCounted n me.
Proof. exists (Bio.erCounted me). now rewrite EngineFacts.with_erCounted_self. Qed.

(** However the cascade of [me.lazyLoad] ends, the instance differs in
    [erCounted] at most and the variables of the module are as they
    were. *)
Lemma branch_ends hs me el w :
  (exists n, fst (Exn.reached (Exn.lazyLoad_branch hs me el w)) = Bio.with_erCounted n me)
  /\ vars (snd (Exn.reached (Exn.lazyLoad_branch hs me el w))) = vars w.
Proof.
  assert (Hme : (exists n, me = Bio.with_erCounted n me) /\ vars w = vars w)
    by (split; [apply self_instance | reflexivity]).
  unfold Exn.lazyLoad_branch.
  repeat match goal with
         | |- context [if ?b then _ else _] => destruct b
         | |- context [match DOM.getAttribute ?p ?e ?n with _ => _ end] =>
             destruct (DOM.getAttribute p e n) as [[|? ?]|]
         end;
    try exact Hme;
    try match goal with
        | |- context [Exn.loaded ?h ?m ?e ?s ?x] =>
            exact (conj (LoaderFacts.loaded_keeps_instance h m e s x)
                     (proj1 (LoaderFacts.loaded_world h m e s x)))
        end;
    (split; [exact (proj1 Hme) | reflexivity]).
Qed.

(** So it is with [me.lazyLoad], whichever the prototype; a BioMedia
    instance that returns leaves the element marked. *)
Lemma lazyLoad_ends hs c me el w :
  (exists n, fst (Exn.reached (Exn.lazyLoad_of hs c me el w)) = Bio.with_erCounted n me)
  /\ vars (snd (Exn.reached (Exn.lazyLoad_of hs c me el w))) = vars w
  /\ (c = BioProto.OfBioMedia ->
      forall s, Exn.lazyLoad_of hs c me el w = Returned s ->
                hasAttribute (page (snd s)) el "data-bio-hit" = true).
Proof.
  destruct c; cbn [Exn.lazyLoad_of Exn.reached].
  - split; [apply self_instance|]. split; [reflexivity | discriminate].
  - unfold Exn.lazyLoad.
    destruct (hasAttribute (page w) el "data-bio-hit") eqn:Hhit.
    + split; [apply self_instance|]. split; [reflexivity|]. now intros _ s [= <-].
    + pose proof (branch_ends hs me el w) as [Hme Hv].
      destruct (Exn.lazyLoad_branch hs me el w) as [[me1 w1]|[me1 w1]];
        cbn [Exn.reached fst snd] in *.
      * split; [exact Hme|]. split; [exact Hv|]. intros _ s [= <-]. cbn [snd page on_page].
        eapply hasAttribute_true, getAttribute_setAttribute_eq.
      * split; [exact Hme|]. split; [exact Hv | discriminate].
Qed.

(** Without callbacks and with a success class that is a class token,
    [me.lazyLoad] returns. *)
Lemma lazyLoad_returns c me el w :
  Classes.token (Options.successClass (Bio.options me)) = true ->
  exists s, Exn.lazyLoad_of Exn.no_handlers c me el w = Returned s.
Proof.
  intros Htok. destruct c; cbn [Exn.lazyLoad_of]; [eauto|].
  assert (Hl : forall w0, exists s,
             Exn.loaded Exn.no_handlers me el (Exn.Code Bio._ok) w0 = Returned s).
  { intros w0. rewrite LoaderFacts.loaded_outcome. cbv zeta.
    change (Exn.is_ok (Exn.Code Bio._ok)) with true. cbv iota. rewrite Htok.
    unfold Exn.success. cbn [Exn.on_success Exn.no_handlers]. eauto. }
  unfold Exn.lazyLoad. destruct (hasAttribute (page w) el "data-bio-hit"); [eauto|].
  assert (Hb : exists s, Exn.lazyLoad_branch Exn.no_handlers me el w = Returned s).
  { unfold Exn.lazyLoad_branch.
    repeat match goal with
           | |- context [if ?b then _ else _] => destruct b
           | |- context [match DOM.getAttribute ?p ?e ?n with _ => _ end] =>
               destruct (DOM.getAttribute p e n) as [[|? ?]|]
           end; eauto. }
  destruct Hb as [[me1 w1] ->]. eauto.
Qed.

(** The callbacks are run on the page: the variables of the module are
    out of their reach. *)
Lemma lift_vars f w : vars (Exn.reached (Exn.lift f w)) = vars w.
Proof. unfold Exn.lift. destruct (f (page w)); reflexivity. Qed.

(** How [me.intersecting] ends. *)
Lemma intersecting_ends hs c me el w :
  match Exn.intersecting hs c me el w with
  | Returned (me', w') =>
      Bio.counted me' = Bio.counted me + 1
      /\ Bio.options me' = Bio.options me
      /\ vars w' = vars w
      /\ (c = BioProto.OfBioMedia -> hasAttribute (page w') el "data-bio-hit" = true)
      /\ Bio.observer me' =
           (if _disconnected (vars w) then Bio.observer me
            else option_map (BioProto.io_unobserve el) (Bio.observer me))
      /\ (_disconnected (vars w) = false ->
          is_Some (Bio.observer me)
          /\ forall io, Bio.observer me' = Some io -> el ∉ targets io)
  | Thrown (me', w') =>
      vars w' = vars w
      /\ Bio.observer me' = Bio.observer me
      /\ (Bio.counted me' = Bio.counted me
          \/ Bio.counted me' = Bio.counted me + 1
             /\ _disconnected (vars w) = false /\ Bio.observer me = None)
  end.
Proof.
  unfold Exn.intersecting.
  set (cb := match Exn.on_intersecting hs with
             | Some f => Exn.lift (f el) w
             | None => Returned w
             end).
  assert (Hcb : vars (Exn.reached cb) = vars w)
    by (subst cb; destruct (Exn.on_intersecting hs); [apply lift_vars | reflexivity]).
  destruct cb as [w1|w1]; cbn [Exn.reached] in Hcb; [|auto].
  set (w2 := on_page (dBlazy.trigger el "bio.intersecting") w1).
  destruct (lazyLoad_ends hs c me el w2) as ([n Hme] & Hv & Hhit).
  destruct (Exn.lazyLoad_of hs c me el w2) as [[me3 w3]|[me3 w3]];
    cbn [Exn.reached fst snd] in Hme, Hv.
  - subst me3. assert (Hv3 : vars w3 = vars w) by (rewrite Hv; exact Hcb).
    rewrite Hv3.
    assert (Hhit' : c = BioProto.OfBioMedia -> hasAttribute (page w3) el "data-bio-hit" = true)
      by (intros Hc; exact (Hhit Hc _ eq_refl)).
    destruct (_disconnected (vars w)) eqn:Hd.
    + cbn [BioProto.with_counted Bio.with_erCounted Bio.counted Bio.observer].
      repeat split; auto; discriminate.
    + cbn [BioProto.with_counted Bio.with_erCounted Bio.counted Bio.observer].
      destruct (Bio.observer me) as [io|] eqn:Hio;
        cbn [Bio.with_observer Bio.counted Bio.observer option_map].
      * repeat split; auto; eauto.
        intros io' [= <-]. apply EngineFacts.not_in_unobserve.
      * repeat split; auto.
  - subst me3. split; [rewrite Hv; exact Hcb|]. split; [reflexivity | now left].
Qed.

(** With an observer at hand, no callbacks and a success class that is a
    class token, [me.intersecting] returns. *)
Lemma intersecting_without_callbacks c me el w :
  Classes.token (Options.successClass (Bio.options me)) = true ->
  (_disconnected (vars w) = true \/ is_Some (Bio.observer me)) ->
  exists s, Exn.intersecting Exn.no_handlers c me el w = Returned s.
Proof.
  intros Htok Hio. pose proof (intersecting_ends Exn.no_handlers c me el w) as Hends.
  unfold Exn.intersecting in *. cbn [Exn.on_intersecting Exn.no_handlers] in *.
  set (w2 := on_page (dBlazy.trigger el "bio.intersecting") w) in *.
  destruct (lazyLoad_ends Exn.no_handlers c me el w2) as ([n Hme] & Hv & _).
  destruct (lazyLoad_returns c me el w2 Htok) as [[me3 w3] Hl]. rewrite Hl in *.
  cbn [Exn.reached fst snd] in Hme, Hv. subst me3.
  assert (Hv3 : vars w3 = vars w) by exact Hv. rewrite Hv3 in *.
  destruct (_disconnected (vars w)); [eauto|].
  destruct Hio as [Hio|[io Hio]]; [discriminate|].
  cbn [BioProto.with_counted Bio.with_erCounted Bio.observer] in *. rewrite Hio. eauto.
Qed.

End ViewFacts.

(** X1.  Whichever the prototype and the callbacks, a call of
    [me.intersecting] never touches the variables of the module.  When it
    returns, the element is counted ([counted] has grown by one), a
    BioMedia instance has left it marked [data-bio-hit], and on a module
    that is not disconnected the observer -- there was one -- no longer
    watches it.  When it throws, the observer is as it was, and either
    the callback or [me.lazyLoad] threw and the element is not counted,
    or the element is counted, the module is not disconnected and
    [me.observer] is [null].  Without callbacks and with a success class
    that is a class token it returns whenever the module is disconnected
    or the instance holds its observer. *)
Theorem intersecting_may_throw (hs : Exn.Handlers) (c : BioProto.Class)
    (me : Bio.t) (el : ElId) (w : World) :
  match Exn.intersecting hs c me el w with
  | Returned (me', w') =>
      Bio.counted me' = Bio.counted me + 1
      /\ Bio.options me' = Bio.options me
      /\ vars w' = vars w
      /\ (c = BioProto.OfBioMedia -> DOM.hasAttribute (page w') el "data-bio-hit" = true)
      /\ Bio.observer me' =
           (if _disconnected (vars w) then Bio.observer me
            else option_map (BioProto.io_unobserve el) (Bio.observer me))
      /\ (_disconnected (vars w) = false ->
          is_Some (Bio.observer me)
          /\ forall io, Bio.observer me' = Some io -> el ∉ targets io)
  | Thrown (me', w') =>
      vars w' = vars w
      /\ Bio.observer me' = Bio.observer me
      /\ (Bio.counted me' = Bio.counted me
          \/ Bio.counted me' = Bio.counted me + 1
             /\ _disconnected (vars w) = false /\ Bio.observer me = None)
  end
  /\ (hs = Exn.no_handlers ->
      Classes.token (Options.successClass (Bio.options me)) = true ->
      _disconnected (vars w) = true \/ is_Some (Bio.observer me) ->
      exists s, Exn.intersecting hs c me el w = Returned s).
Proof.
  split; [apply ViewFacts.intersecting_ends|].
  intros -> Htok Hio. now apply ViewFacts.intersecting_without_callbacks.
Qed.

(** ** Bio: the callback of the observer, a callback may throw *)

Module TickFacts.

Import BioProto.

(** One entry of the loop of [me.observing]. *)
Lemma entry_ends hs c entry me w :
  let n := if in_view entry then 1 else 0 in
  match Exn.observing_entry hs c entry (me, w) with
  | Returned (me', w') =>
      _bioTick (vars w') = _bioTick (vars w) - n
      /\ _disconnected (vars w') = _disconnected (vars w)
      /\ Bio.counted me <= Bio.counted me' <= Bio.counted me + n
      /\ (is_Some (Bio.observer me) -> is_Some (Bio.observer me'))
      /\ Options.successClass (Bio.options me') = Options.successClass (Bio.options me)
  | Thrown (me', w') =>
      _bioTick (vars w') = _bioTick (vars w)
      /\ Bio.counted me <= Bio.counted me' <= Bio.counted me + n
  end.
Proof.
  intros n. subst n. unfold Exn.observing_entry. cbn [fst snd].
  set (cb := match Exn.on_observing hs with
             | Some f => Exn.lift (f entry) w
             | None => Returned w
             end).
  assert (Hcb : vars (Exn.reached cb) = vars w)
    by (subst cb; destruct (Exn.on_observing hs); [apply ViewFacts.lift_vars | reflexivity]).
  destruct cb as [w1|w1]; cbn [Exn.reached] in Hcb.
  2:{ rewrite Hcb. split; [reflexivity|]. destruct (in_view entry); lia. }
  destruct (in_view entry).
  - destruct (negb (Bio.isLoaded me (page w1) (target entry))).
    + pose proof (ViewFacts.intersecting_ends hs c me (target entry) w1) as H.
      destruct (Exn.intersecting hs c me (target entry) w1) as [[me2 w2]|[me2 w2]];
        cbn [and_then fst snd].
      * destruct H as (Hc & Hopt & Hv & _ & Ho & _).
        unfold set_bioTick. cbn [vars _bioTick _disconnected]. rewrite Hv, Hcb.
        split; [reflexivity|]. split; [reflexivity|]. split; [lia|]. split.
        -- intros [io Hio]. rewrite Ho, Hio. destruct (_disconnected (vars w1)); cbn; eauto.
        -- now rewrite Hopt.
      * destruct H as (Hv & _ & Hc). rewrite Hv, Hcb. split; [reflexivity|].
        destruct Hc as [Hc|(Hc & _)]; lia.
    + unfold set_bioTick. cbn [and_then fst snd vars _bioTick _disconnected]. rewrite Hcb.
      split; [reflexivity|]. split; [reflexivity|]. split; [lia|]. split; auto.
  - rewrite Hcb. split; [lia|]. split; [reflexivity|]. split; [lia|]. split; auto.
Qed.

(** The loop of [me.observing] over the entries. *)
Lemma loop_ends hs c (entries : list Entry) : forall me w,
  let n := Z.of_nat (length (List.filter in_view entries)) in
  match forEach entries (Exn.observing_entry hs c) (me, w) with
  | Returned (me', w') =>
      _bioTick (vars w') = _bioTick (vars w) - n
      /\ _disconnected (vars w') = _disconnected (vars w)
      /\ Bio.counted me <= Bio.counted me' <= Bio.counted me + n
      /\ (is_Some (Bio.observer me) -> is_Some (Bio.observer me'))
      /\ Options.successClass (Bio.options me') = Options.successClass (Bio.options me)
  | Thrown (me', w') =>
      _bioTick (vars w) - n <= _bioTick (vars w') <= _bioTick (vars w)
      /\ Bio.counted me <= Bio.counted me' <= Bio.counted me + n
  end.
Proof.
  induction entries as [|entry entries IH]; intros me w n; subst n.
  - cbn. split; [lia|]. split; [reflexivity|]. split; [lia|]. auto.
  - cbn [forEach List.filter].
    pose proof (entry_ends hs c entry me w) as He. cbv zeta in He.
    assert (Hlen : Z.of_nat (length (if in_view entry
                                     then entry :: List.filter in_view entries
                                     else List.filter in_view entries))
                   = (if in_view entry then 1 else 0)
                     + Z.of_nat (length (List.filter in_view entries)))
      by (destruct (in_view entry); cbn [length]; lia).
    rewrite Hlen. clear Hlen.
    set (k := if in_view entry then 1 else 0) in *.
    assert (Hk : 0 <= k) by (subst k; destruct (in_view entry); lia).
    destruct (Exn.observing_entry hs c entry (me, w)) as [[me1 w1]|[me1 w1]];
      cbn [and_then].
    + destruct He as (Hb & Hd & Hc & Hio & Hopt).
      specialize (IH me1 w1). cbv zeta in IH.
      destruct (forEach entries (Exn.observing_entry hs c) (me1, w1)) as [[me2 w2]|[me2 w2]].
      * destruct IH as (Hb2 & Hd2 & Hc2 & Hio2 & Hopt2).
        split; [lia|]. split; [congruence|]. split; [lia|]. split; [auto | congruence].
      * destruct IH as (Hb2 & Hc2). split; lia.
    + destruct He as (Hb & Hc). split; lia.
Qed.

End TickFacts.

(** X2.  Called on a module that is not disconnected, whatever the
    callbacks do, [me.observing] takes [_bioTick] down by one for every
    entry in view it gets through -- whether its target was loaded or
    not, and below zero if need be -- and [counted] up by at most as
    much: by exactly the number of entries in view when it returns, by at
    most that when a callback, [me.lazyLoad] or a missing observer makes
    it throw.  Without callbacks, with a success class that is a class
    token and for an instance that holds its observer, it returns. *)
Theorem observing_counts_down (hs : Exn.Handlers) (c : BioProto.Class)
    (me : Bio.t) (entries : list BioProto.Entry) (w : World) :
  _disconnected (vars w) = false ->
  let in_view := Z.of_nat (length (List.filter BioProto.in_view entries)) in
  match Exn.observing hs c me entries w with
  | Returned (me', w') =>
      _bioTick (vars w') = _bioTick (vars w) - in_view
      /\ Bio.counted me <= Bio.counted me' <= Bio.counted me + in_view
  | Thrown (me', w') =>
      _bioTick (vars w) - in_view <= _bioTick (vars w') <= _bioTick (vars w)
      /\ Bio.counted me <= Bio.counted me' <= Bio.counted me + in_view
  end
  /\ (hs = Exn.no_handlers ->
      Classes.token (Options.successClass (Bio.options me)) = true ->
      is_Some (Bio.observer me) ->
      exists s, Exn.observing hs c me entries w = Returned s).
Proof.
  intros Hd n. subst n. unfold Exn.observing. rewrite Hd.
  pose proof (TickFacts.loop_ends hs c entries me w) as Hloop. cbv zeta in Hloop.
  split.
  - destruct (forEach entries (Exn.observing_entry hs c) (me, w)) as [[me1 w1]|[me1 w1]];
      cbn [and_then fst snd]; [|exact Hloop].
    destruct Hloop as (Hb & _ & Hc & _).
    unfold Bio.disconnect.
    repeat match goal with
           | |- context [if ?b then _ else _] => destruct b
           | |- context [match Bio.observer ?m with _ => _ end] => destruct (Bio.observer m)
           end; unfold set_disconnected, with_vars; cbn [Bio.counted vars _bioTick];
      split; lia.
  - intros -> Htok Hio.
    assert (Hret : forall es me0 w0,
               is_Some (Bio.observer me0) ->
               Classes.token (Options.successClass (Bio.options me0)) = true ->
               exists me1 w1,
                 forEach es (Exn.observing_entry Exn.no_handlers c) (me0, w0)
                 = Returned (me1, w1)
                 /\ is_Some (Bio.observer me1)).
    { induction es as [|entry es IH]; intros me0 w0 Hio0 Htok0; [cbn; eauto|].
      cbn [forEach].
      pose proof (TickFacts.entry_ends Exn.no_handlers c entry me0 w0) as He.
      cbv zeta in He.
      assert (Hr : exists s, Exn.observing_entry Exn.no_handlers c entry (me0, w0)
                             = Returned s).
      { unfold Exn.observing_entry. cbn [Exn.on_observing Exn.no_handlers fst snd].
        destruct (BioProto.in_view entry); [|eauto].
        destruct (negb (Bio.isLoaded me0 (page w0) (BioProto.target entry)));
          [|cbn [and_then]; eauto].
        destruct (ViewFacts.intersecting_without_callbacks c me0 (BioProto.target entry) w0 Htok0
                    (or_intror Hio0)) as [s ->].
        cbn [and_then]. eauto. }
      destruct Hr as [[me1 w1] Hr]. rewrite Hr in *. cbn [and_then].
      destruct He as (_ & _ & _ & Hio1 & Hopt1).
      apply IH; [auto | now rewrite Hopt1]. }
    destruct (Hret entries me w Hio Htok) as (me1 & w1 & -> & Hio1).
    cbn [and_then fst snd].
    destruct (LoopFacts.disconnect_returns me1 false w1 Hio1) as (me' & w' & -> & _).
    eauto.
Qed.

Lemma observing_counts_down_witness :
  exists s,
    Exn.observing Exn.no_handlers BioProto.OfBioMedia Fixture.plain
      [{| BioProto.target := 1%nat; BioProto.isIntersecting := true;
          BioProto.intersectionRatio := 1 |};
       {| BioProto.target := 8%nat; BioProto.isIntersecting := false;
          BioProto.intersectionRatio := 0 |};
       {| BioProto.target := 1%nat; BioProto.isIntersecting := false;
          BioProto.intersectionRatio := 1 # 2 |}]
      Fixture.world_plain = Returned s.
Proof.
  refine (proj2 (observing_counts_down Exn.no_handlers BioProto.OfBioMedia Fixture.plain
                   [{| BioProto.target := 1%nat; BioProto.isIntersecting := true;
                       BioProto.intersectionRatio := 1 |};
                    {| BioProto.target := 8%nat; BioProto.isIntersecting := false;
                       BioProto.intersectionRatio := 0 |};
                    {| BioProto.target := 1%nat; BioProto.isIntersecting := false;
                       BioProto.intersectionRatio := 1 # 2 |}]
                   Fixture.world_plain _) _ _ _).
  - vm_compute. reflexivity.
  - reflexivity.
  - vm_compute. reflexivity.
  - vm_compute. eauto.
Defined.

(** ** BioMedia: an image inside a picture, a callback may throw *)

(** X17.  An [img] inside a [picture] is loaded at once, without a probe.
    When the success class is a class token, the hook [me.lazyLoad] runs
    the success callback, if any, on a page where every [source] of the
    picture has got its [srcset] from [data-srcset], the image its [src]
    from [data-src], the data attributes are gone and the image carries
    the success class.  When the callback returns, the marker
    [data-bio-hit] is written last and the hook returns; when it throws,
    the hook ends there, the marker is not written and the error
    counter is as it was. *)
Theorem picture_is_loaded_at_once (hs : Exn.Handlers) (me : Bio.t) (el parent : ElId)
    (w : World) :
  DOM.parentNode (page w) el = Some parent ->
  dBlazy.equal (page w) (Some parent) "picture" = true ->
  dBlazy.equal (page w) (Some el) "img" = true ->
  DOM.hasAttribute (page w) el "data-bio-hit" = false ->
  Classes.token (Options.successClass (Bio.options me)) = true ->
  exists before,
    DOM.contains before el (Options.successClass (Bio.options me)) = true
    /\ (forall x, DOM.getAttribute (page w) el "data-src" = Some x ->
          DOM.getAttribute before el "src" = Some x
          /\ DOM.getAttribute before el "data-src" = None)
    /\ (forall s v,
          In s (DOM.getElementsByTagName (page w) parent "source") ->
          DOM.getAttribute (page w) s "data-srcset" = Some v ->
          DOM.getAttribute before s "srcset" = Some v
          /\ DOM.getAttribute before s "data-srcset" = None)
    /\ match match Exn.on_success hs with
             | Some f => f el (Exn.Code Bio._ok) before
             | None => Returned before
             end with
       | Returned p' =>
           exists me' w',
             Exn.lazyLoad hs me el w = Returned (me', w')
             /\ images w' = images w
             /\ page w' = DOM.setAttribute el "data-bio-hit" "1" p'
       | Thrown p' =>
           exists w',
             Exn.lazyLoad hs me el w = Thrown (me, w')
             /\ images w' = images w
             /\ page w' = p'
       end.
Proof.
  intros Hp Hpic Himg Hhit Htok.
  unfold Exn.lazyLoad. rewrite Hhit.
  unfold Exn.lazyLoad_branch. rewrite Hp, Hpic.
  set (p := page w) in *.
  set (sources := DOM.getElementsByTagName p parent "source").
  set (p1 := dBlazy.setAttrsWithSources el (Some BioMedia._srcSet) true p).
  assert (Hp1 : p1 = fold_left (fun q source => dBlazy.setAttr source "srcset" true q) sources p).
  { subst p1 sources. unfold dBlazy.setAttrsWithSources. fold p. now rewrite Hp, Hpic. }
  assert (Hel : ~ In el sources).
  { subst sources. unfold DOM.getElementsByTagName. rewrite List.filter_In. intros [_ H].
    unfold dBlazy.equal in Himg. fold p in Himg.
    apply String.eqb_eq in H. apply String.eqb_eq in Himg. congruence. }
  assert (Hnode : DOM.node p1 el = DOM.node p el).
  { rewrite Hp1. now apply SourcesFacts.fold_other. }
  set (p2 := dBlazy.setAttr el BioMedia._src true p1).
  exists (DOM.classList_add el (Options.successClass (Bio.options me)) p2).
  split; [apply DOMFacts.contains_classList_add|]. split; [|split].
  - intros x Hx. rewrite !DOMFacts.getAttribute_classList_add. subst p2.
    apply (SourcesFacts.setAttr_moves el "src" p1 x).
    + unfold DOM.getAttribute. rewrite Hnode. exact Hx.
    + intros _. rewrite Hnode. now apply BioMediaFacts.equal_img_reflects.
  - intros s v Hs Hv. rewrite !DOMFacts.getAttribute_classList_add. subst p2.
    assert (Hne : s <> el) by (intros ->; exact (Hel Hs)).
    unfold DOM.getAttribute. rewrite SourcesFacts.setAttr_other by exact Hne.
    rewrite Hp1. apply (SourcesFacts.fold_moves "srcset" sources p s v Hs Hv).
    discriminate.
  - rewrite LoaderFacts.loaded_outcome. cbv zeta.
    change (Exn.is_ok (Exn.Code Bio._ok)) with true. cbv iota. rewrite Htok.
    cbn [page on_page Exn.with_page]. fold p. fold p1. fold p2.
    unfold Exn.success.
    destruct (Exn.on_success hs) as [f|].
    + unfold Exn.lift. cbn [page Exn.with_page].
      destruct (f el (Exn.Code Bio._ok) _) as [p'|p'].
      * eexists _, _. split; [reflexivity|]. split; reflexivity.
      * eexists. split; [reflexivity|]. split; reflexivity.
    + eexists _, _. split; [reflexivity|]. split; reflexivity.
Qed.

Lemma picture_is_loaded_at_once_witness :
  exists before,
    DOM.contains before 5%nat (Options.successClass (Bio.options Fixture.plain)) = true
    /\ (forall x, DOM.getAttribute (page Fixture.world_plain) 5%nat "data-src" = Some x ->
          DOM.getAttribute before 5%nat "src" = Some x
          /\ DOM.getAttribute before 5%nat "data-src" = None).
Proof.
  destruct (picture_is_loaded_at_once Exn.no_handlers Fixture.plain 5%nat 2%nat
              Fixture.world_plain) as (before & H1 & H2 & _).
  - vm_compute. reflexivity.
  - vm_compute. reflexivity.
  - vm_compute. reflexivity.
  - vm_compute. reflexivity.
  - vm_compute. reflexivity.
  - exists before. split; [exact H1 | exact H2].
Defined.

(** ** BioMedia: a background block, a callback may throw *)

(** X18.  A background block with [data-src="X"] whose probe loads, the
    success class being a class token: the success callback, if any, is
    run on a page where the block has the CSS background [url("X")],
    carries the success class and has no [src] attribute.  When the
    callback returns, [data-src] is taken off and [bio.finally] is
    dispatched; the background, the class and the absence of [src] are
    still there if the callback has left them.  When it throws, the
    [catch] handler is run on what it threw and [data-src] is taken off
    by neither handler. *)
Theorem background_roundtrip_of_the_code (hs : Exn.Handlers) (me : Bio.t) (img : Image)
    (w : World) (x : string) :
  let el := for_element img in
  let loadedClass := Options.successClass (Bio.options me) in
  let before := DOM.classList_add el loadedClass (BioMedia.applyAttrs el true (page w)) in
  let done := Exn.settle hs me img BioMedia.onload w in
  background img = true ->
  DOM.getAttribute (page w) el "data-src" = Some x ->
  Classes.token loadedClass = true ->
  style (DOM.node before el) !! "backgroundImage" = Some (BioMedia.css_url x)
  /\ DOM.contains before el loadedClass = true
  /\ DOM.hasAttribute before el "src" = false
  /\ match match Exn.on_success hs with
           | Some f => f el (Exn.Code Bio._ok) before
           | None => Returned before
           end with
     | Returned p' =>
         exists me' w',
           done = Returned (me', w')
           /\ page w' = dBlazy.trigger el "bio.finally"
                          (dBlazy.removeAttrs el BioMedia._bgSources p')
           /\ DOM.hasAttribute (page w') el "data-src" = false
           /\ (style (DOM.node p' el) !! "backgroundImage" = Some (BioMedia.css_url x) ->
               style (DOM.node (page w') el) !! "backgroundImage"
               = Some (BioMedia.css_url x))
           /\ (DOM.contains p' el loadedClass = true ->
               DOM.contains (page w') el loadedClass = true)
           /\ (DOM.hasAttribute p' el "src" = false ->
               DOM.hasAttribute (page w') el "src" = false)
     | Thrown p' =>
         let caught :=
           Exn.reached (Exn.loaded hs me el Exn.Exception (Exn.with_page p' w)) in
         page (snd (Exn.reached done))
         = dBlazy.trigger el "bio.finally"
             (match Exn.loaded hs me el Exn.Exception (Exn.with_page p' w) with
              | Returned _ => DOM.removeAttribute el "data-bio-hit" (page (snd caught))
              | Thrown _ => page (snd caught)
              end)
     end.
Proof.
  intros el loadedClass before done Hb Hx Htok. subst done.
  split.
  { unfold before. rewrite DOMFacts.style_classList_add.
    now apply BioMediaFacts.applyAttrs_background. }
  split; [apply DOMFacts.contains_classList_add|].
  split.
  { apply DOMFacts.hasAttribute_false. unfold before.
    rewrite DOMFacts.getAttribute_classList_add.
    unfold BioMedia.applyAttrs, BioMedia.setBg. change BioMedia._bgSrc with "data-src".
    rewrite Hx. apply DOMFacts.getAttribute_removeAttribute_eq. }
  rewrite SettleFacts.chain_onload, Hb, LoaderFacts.loaded_outcome. cbv zeta.
  change (Exn.is_ok (Exn.Code Bio._ok)) with true. cbv iota.
  fold el loadedClass. rewrite Htok. cbn [page on_page Exn.with_page]. fold before.
  unfold Exn.success.
  assert (Hran : forall p' w0,
            exists me' w',
              Returned
                (if 0 <? Bio.erCounted me then Bio.with_erCounted (Bio.erCounted me - 1) me
                 else me,
                 BioMedia.setImage_finally el
                   (on_page (dBlazy.removeAttrs el BioMedia._bgSources)
                      (Exn.with_page p' w0)))
              = Returned (me', w')
              /\ page w' = dBlazy.trigger el "bio.finally"
                             (dBlazy.removeAttrs el BioMedia._bgSources p')
              /\ DOM.hasAttribute (page w') el "data-src" = false
              /\ (style (DOM.node p' el) !! "backgroundImage" = Some (BioMedia.css_url x) ->
                  style (DOM.node (page w') el) !! "backgroundImage"
                  = Some (BioMedia.css_url x))
              /\ (DOM.contains p' el loadedClass = true ->
                  DOM.contains (page w') el loadedClass = true)
              /\ (DOM.hasAttribute p' el "src" = false ->
                  DOM.hasAttribute (page w') el "src" = false)).
  { intros p' w0. eexists _, _. split; [reflexivity|].
    cbn [BioMedia.setImage_finally on_page page Exn.with_page].
    split; [reflexivity|]. unfold dBlazy.trigger, dBlazy.removeAttrs, BioMedia._bgSources.
    cbn [fold_left]. change ("data-" +:+ BioMedia._src) with "data-src".
    split; [|split; [|split]].
    - apply DOMFacts.hasAttribute_false. rewrite ProtocolFacts.getAttribute_record.
      apply DOMFacts.getAttribute_removeAttribute_eq.
    - intros H.
      change (style (DOM.node (DOM.record ?s ?q) el)) with (style (DOM.node q el)).
      now rewrite DOMFacts.style_removeAttribute.
    - intros H. now rewrite ProtocolFacts.contains_record, DOMFacts.contains_removeAttribute.
    - intros H. rewrite DOMFacts.hasAttribute_getAttribute in *.
      rewrite ProtocolFacts.getAttribute_record.
      now rewrite DOMFacts.getAttribute_removeAttribute_ne by discriminate. }
  destruct (Exn.on_success hs) as [f|].
  - unfold Exn.lift. cbn [page Exn.with_page].
    destruct (f el (Exn.Code Bio._ok) before) as [p'|p'].
    + apply Hran.
    + cbv zeta. unfold Exn.setImage_catch.
      change (Exn.with_page p' (Exn.with_page before (on_page (BioMedia.applyAttrs el true) w)))
        with (Exn.with_page p' w).
      destruct (Exn.loaded hs me el Exn.Exception (Exn.with_page p' w)) as [[me2 w2]|[me2 w2]];
        reflexivity.
  - apply Hran.
Qed.

Lemma background_roundtrip_of_the_code_witness :
  style (DOM.node
           (DOM.classList_add 8%nat (Options.successClass (Bio.options Fixture.plain))
              (BioMedia.applyAttrs 8%nat true
                 (page (snd (BioMedia.lazyLoad Fixture.plain 8%nat Fixture.world_plain)))))
           8%nat) !! "backgroundImage" = Some (BioMedia.css_url "bg.jpg").
Proof.
  refine (proj1 (background_roundtrip_of_the_code Exn.no_handlers Fixture.plain
                   {| for_element := 8%nat; background := true;
                      image_src := Some "bg.jpg"; image_srcset := None |}
                   (snd (BioMedia.lazyLoad Fixture.plain 8%nat Fixture.world_plain))
                   "bg.jpg" _ _ _)).
  - reflexivity.
  - vm_compute. reflexivity.
  - vm_compute. reflexivity.
Defined.

(** ** Bio: construction, with what the platform refuses *)

(** X4.  [new Bio(options)] returns exactly when the platform can parse
    the selector, can parse the root margin and every threshold is from
    0 to 1.  Then, whatever the flags of the module were, it has found
    the elements that match the selector and do not carry the success
    class, counted them, has a new observer watch each of them once, set
    [_bioTick] to their number and left the module observed and not
    disconnected.  Otherwise it throws, a SyntaxError or a RangeError:
    the instance has no observer, the module is neither observed nor
    disconnected.  Either way the page is not touched. *)
Theorem new_returns_or_throws (pf : Exn.Platform) (o : Options.t) (w : World) :
  let found :=
    DOM.querySelectorAll (page w) (Options.root o)
      (DOM.SelAnd (Options.selector o) (DOM.SelNot (DOM.SelClass (Options.successClass o)))) in
  let selector_ok := Exn.selector_parses pf (Options.selector o) (Options.successClass o) in
  let config_ok :=
    Exn.rootMargin_parses pf (Options.rootMargin o) && Exn.threshold_ok (Options.threshold o) in
  if selector_ok && config_ok
  then exists me io w',
         Exn.new pf o w = Returned (me, w')
         /\ Bio.options me = o
         /\ Bio.elms me = Some found
         /\ Bio.count me = Z.of_nat (length found)
         /\ Bio.counted me = -1
         /\ Bio.erCounted me = 0
         /\ Bio.observer me = Some io
         /\ NoDup (targets io)
         /\ (forall el, el ∈ targets io <-> el ∈ found)
         /\ vars w' = {| _bioTick := Z.of_nat (length found); _revTick := _revTick (vars w);
                         _disconnected := false; _observed := true |}
         /\ page w' = page w /\ images w' = images w
  else exists me w',
         Exn.new pf o w = Thrown (me, w')
         /\ Bio.options me = o
         /\ Bio.elms me = (if selector_ok then Some found else None)
         /\ Bio.observer me = None
         /\ vars w' = {| _bioTick := _bioTick (vars w); _revTick := _revTick (vars w);
                         _disconnected := false; _observed := false |}
         /\ page w' = page w /\ images w' = images w.
Proof.
  intros found selector_ok config_ok. unfold Exn.new, Exn.init.
  cbn [Bio.prototype Bio.options]. fold selector_ok config_ok.
  destruct selector_ok; cbn [negb andb].
  - destruct config_ok; cbn [negb].
    + exact (InitFacts.init_fresh (Bio.prototype o)
               (set_observed false (set_disconnected false w)) eq_refl).
    + eexists _, _. split; [reflexivity|]. cbn. repeat split.
  - eexists _, _. split; [reflexivity|]. cbn. repeat split.
Qed.

(** ** Runs on the sample page *)

(** With the listener of [doNativeLazy] waiting, the first [clearing]
    dispatches [blazy.native]; the listener rewrites the items and calls
    [clearing] on each, and the first of these calls dispatches the event
    once more, [_isNativeExecuted] being set only after the dispatch. *)
Example listener_of_native_runs :
  List.filter Classes.is_native (history (Exn.reached (Exn.clearing 8%nat Waiting.page0)))
  = [Dispatch 0%nat "blazy.native"; Dispatch 0%nat "blazy.native"]
  /\ DOM.getAttribute (Exn.reached (Exn.clearing 8%nat Waiting.page0)) 1%nat "src"
     = Some "a.jpg"
  /\ DOM.getAttribute (Exn.reached (Exn.clearing 8%nat Waiting.page0)) 1%nat "data-src" = None
  /\ DOM.contains (Exn.reached (Exn.clearing 8%nat Waiting.page0)) 1%nat "b-loaded" = true
  /\ listening (blazy (Exn.reached (Exn.clearing 8%nat Waiting.page0))) = []
  /\ isNativeExecuted (blazy (Exn.reached (Exn.clearing 8%nat Waiting.page0))) = true.
Proof. vm_compute. repeat split. Qed.

(** ** The loading hook and the chain, whatever throws *)

Module HookFacts.

Import DOM DOMFacts.

(** The cascade of [me.lazyLoad] makes one probe at most, and none when it
    throws. *)
Lemma branch_one_probe hs me el w :
  match Exn.lazyLoad_branch hs me el w with
  | Returned (_, w1) => images w1 = images w \/ exists img, images w1 = images w ++ [img]
  | Thrown (_, w1) => images w1 = images w
  end.
Proof.
  unfold Exn.lazyLoad_branch.
  repeat match goal with
         | |- context [if ?b then _ else _] => destruct b
         | |- context [match DOM.getAttribute ?p ?e ?n with _ => _ end] =>
             destruct (DOM.getAttribute p e n) as [[|? ?]|]
         end;
    try (left; reflexivity);
    try (right; eexists; reflexivity);
    match goal with
    | |- context [Exn.loaded ?h ?m ?e ?s ?x] =>
        pose proof (proj2 (LoaderFacts.loaded_world h m e s x)) as H;
        destruct (Exn.loaded h m e s x) as [[? ?]|[? ?]]; cbn [Exn.reached snd] in H;
        [left|]; exact H
    end.
Qed.

(** So does [me.lazyLoad]. *)
Lemma lazyLoad_one_probe hs me el w :
  match Exn.lazyLoad hs me el w with
  | Returned (_, w1) => images w1 = images w \/ exists img, images w1 = images w ++ [img]
  | Thrown (_, w1) => images w1 = images w
  end.
Proof.
  unfold Exn.lazyLoad. destruct (hasAttribute (page w) el "data-bio-hit"); [now left|].
  pose proof (branch_one_probe hs me el w) as H.
  destruct (Exn.lazyLoad_branch hs me el w) as [[me1 w1]|[me1 w1]]; exact H.
Qed.

End HookFacts.

(** X25.  Two calls of the loading hook [lazyLoad] on an element, one
    right after the other, make at most one image probe, whatever the
    callbacks do.  When the first call returns, the element carries
    [data-bio-hit] and the second changes nothing; when it throws -- a
    callback of the picture, video or iframe branch did, or the success
    class is no class token -- it has made no probe. *)
Theorem lazyLoad_twice_whatever_throws (hs : Exn.Handlers) (me : Bio.t) (el : ElId)
    (w : World) :
  let first := Exn.lazyLoad hs me el w in
  let second := Exn.lazyLoad hs (fst (Exn.reached first)) el (snd (Exn.reached first)) in
  (length (images (snd (Exn.reached second))) <= S (length (images w)))%nat
  /\ match first with
     | Returned (me1, w1) =>
         DOM.hasAttribute (page w1) el "data-bio-hit" = true
         /\ second = Returned (me1, w1)
     | Thrown (_, w1) => images w1 = images w
     end.
Proof.
  intros first second. subst first second.
  pose proof (HookFacts.lazyLoad_one_probe hs me el w) as H1.
  assert (Hmark : forall me1 w1, Exn.lazyLoad hs me el w = Returned (me1, w1) ->
                    DOM.hasAttribute (page w1) el "data-bio-hit" = true).
  { intros me1 w1 E.
    exact (proj2 (proj2 (ViewFacts.lazyLoad_ends hs BioProto.OfBioMedia me el w))
             eq_refl (me1, w1) E). }
  destruct (Exn.lazyLoad hs me el w) as [[me1 w1]|[me1 w1]] eqn:E; cbn [Exn.reached fst snd].
  - pose proof (Hmark me1 w1 eq_refl) as Hm.
    assert (Hsame : Exn.lazyLoad hs me1 el w1 = Returned (me1, w1))
      by (unfold Exn.lazyLoad; now rewrite Hm).
    rewrite Hsame. cbn [Exn.reached snd]. split; [|split; [exact Hm | reflexivity]].
    destruct H1 as [-> | [img ->]]; [lia|]. rewrite length_app. cbn [length]. lia.
  - split; [|exact H1].
    pose proof (HookFacts.lazyLoad_one_probe hs me1 el w1) as H2. rewrite <- H1.
    destruct (Exn.lazyLoad hs me1 el w1) as [[me2 w2]|[me2 w2]]; cbn [Exn.reached snd].
    + destruct H2 as [-> | [img ->]]; [lia|]. rewrite length_app. cbn [length]. lia.
    + rewrite H2. lia.
Qed.

(** X26.  However the probe of an image or of a background block ends,
    load or error, and whatever the handlers of the chain throw, the
    last thing the protocol does is to dispatch [bio.finally] on the
    element. *)
Theorem finally_whatever_throws (hs : Exn.Handlers) (me : Bio.t) (img : Image)
    (outcome : BioMedia.Outcome) (w : World) :
  last (history (page (snd (Exn.reached (Exn.settle hs me img outcome w)))))
  = Some (Dispatch (for_element img) "bio.finally").
Proof.
  unfold Exn.settle.
  match goal with
  | |- context [match ?handled with Returned _ => _ | Thrown _ => _ end] =>
      destruct handled as [[me3 w3]|[me3 w3]]
  end; cbn [Exn.reached snd BioMedia.setImage_finally on_page page]; apply last_snoc.
Qed.

(** ** Runs of [dBlazy.activeWidth] where the product is rounded *)

(** A window 400 wide at a pixel ratio of 1.1: the product of the doubles
    is 440.00000000000006, just above the key 440, and the next key is
    taken. *)
Example activeWidth_400_at_11_tenths :
  dBlazy.activeWidth
    {| innerWidth := 400; documentElement_clientWidth := 400; body_clientWidth := 400;
       screen_width := 400; devicePixelRatio := 11 # 10; picturefill := false |}
    [("440", JS.Str "x.jpg"); ("880", JS.Str "y.jpg")] false
  = JS.Str "y.jpg".
Proof. vm_compute. reflexivity. Qed.

(** A window 320 wide at the same ratio: the product of the doubles is
    352, and the key 352 is taken. *)
Example activeWidth_320_at_11_tenths :
  dBlazy.activeWidth
    {| innerWidth := 320; documentElement_clientWidth := 320; body_clientWidth := 320;
       screen_width := 320; devicePixelRatio := 11 # 10; picturefill := false |}
    [("352", JS.Str "x.jpg"); ("704", JS.Str "y.jpg")] false
  = JS.Str "x.jpg".
Proof. vm_compute. reflexivity. Qed.
